(** * uWebSockets HttpParser.h: a shallow embedding and its verified properties

    The development follows [src/HttpParser.h] of uWebSockets: the request
    view [HttpRequest], the head decoder [getHeaders] with its sentinel
    assisted scanner [find_cr], the per-head loop
    [fenceAndConsumePostPadded] and the top-level driver
    [consumePostPadded].

    Conventions.
    - A [char] is its byte value, a [Z] in [0, 256).
    - A buffer is a [list Z]; a pointer is a [Z] offset into the buffer
      it points into.  The post-padding the caller must supply is part of
      the buffer.
    - [unsigned int] values are [Z] reduced with [u32] where the C++
      arithmetic can wrap; the [(int)] cast is [s32].
    - Loops that the source lets "scan forever" take fuel (the size of the
      buffer) and return [None] when they leave the buffer, which is
      undefined behaviour in the source.
    - The build without [UWS_WITH_PROXY] is modelled. *)

From Stdlib Require Import ZArith List Lia ZifyBool Bool String Ascii.
From stdpp Require Import prelude.
Local Open Scope Z_scope.

(** ** Machine integers and bytes *)

Definition u32 (x : Z) : Z := x mod 2 ^ 32.
Definition u64 (x : Z) : Z := x mod 2 ^ 64.
Definition s32 (x : Z) : Z := (x + 2 ^ 31) mod 2 ^ 32 - 2 ^ 31.

Definition zlen {A} (l : list A) : Z := Z.of_nat (length l).

Abbreviation CR := 13.
Abbreviation LF := 10.

(** Bytes of a string literal (used for the literals of the source and for
    test inputs). *)
Fixpoint bytes (s : string) : list Z :=
  match s with
  | EmptyString => []
  | String c s' => Z.of_N (N_of_ascii c) :: bytes s'
  end.

Definition CRLF : list Z := [CR; LF].

(** ** Buffers and string views *)

Abbreviation buffer := (list Z).

(** [*p] *)
Definition rd (mem : buffer) (p : Z) : Z := nth (Z.to_nat p) mem 0.

(** [*p = c] *)
Definition wr (mem : buffer) (p : Z) (c : Z) : buffer := <[Z.to_nat p := c]> mem.

(** The bytes [p, p + n) of a buffer. *)
Definition slice (mem : buffer) (p n : Z) : list Z :=
  take (Z.to_nat n) (drop (Z.to_nat p) mem).

(** [std::string_view]: a pointer and a length. *)
Record string_view := SV { sv_data : Z; sv_len : Z }.

(** [std::string_view(nullptr, 0)] *)
Definition sv_null : string_view := SV 0 0.

Definition sv_bytes (mem : buffer) (s : string_view) : list Z :=
  slice mem (sv_data s) (sv_len s).

(** [HttpRequest::Header] *)
Record Header := MkHeader { key : string_view; value : string_view }.

Definition set_key (s : string_view) (h : Header) : Header := MkHeader s (value h).
Definition set_value (s : string_view) (h : Header) : Header := MkHeader (key h) s.

Definition MINIMUM_HTTP_POST_PADDING : Z := 32.
Definition MAX_HEADERS : Z := 50.
Definition MAX_FALLBACK_SIZE : Z := 1024 * 4.

(** ** The scanner [find_cr] *)

(** [*(uint64_t * )p] on a little-endian machine. *)
Definition load64 (mem : buffer) (p : Z) : Z :=
  rd mem p + Z.shiftl (rd mem (p + 1)) 8 + Z.shiftl (rd mem (p + 2)) 16
  + Z.shiftl (rd mem (p + 3)) 24 + Z.shiftl (rd mem (p + 4)) 32
  + Z.shiftl (rd mem (p + 5)) 40 + Z.shiftl (rd mem (p + 6)) 48
  + Z.shiftl (rd mem (p + 7)) 56.

(** The test of [find_cr]'s outer loop on one word:
    [(val + 0xfefefefefefefeff) & (~val & 0x8080808080808080)] with
    [val = word ^ 0x0d0d0d0d0d0d0d0d]. *)
Definition cr_mask (word : Z) : Z :=
  let val := Z.lxor word 0x0d0d0d0d0d0d0d0d in
  Z.land (u64 (val + 0xfefefefefefefeff))
         (Z.land (Z.lnot val) 0x8080808080808080).

(** [while ( *(unsigned char * )p != 0x0d) p++;] *)
Fixpoint find_cr_bytes (fuel : nat) (mem : buffer) (p : Z) : option Z :=
  match fuel with
  | O => None
  | S fuel' => if rd mem p =? 13 then Some p else find_cr_bytes fuel' mem (p + 1)
  end.

(** [for (mask = ...; true; p += 8)] *)
Fixpoint find_cr_words (fuel : nat) (mem : buffer) (p : Z) : option Z :=
  match fuel with
  | O => None
  | S fuel' =>
      if cr_mask (load64 mem p) =? 0 then find_cr_words fuel' mem (p + 8)
      else find_cr_bytes 8 mem p
  end.

Definition find_cr (mem : buffer) (p : Z) : option Z :=
  find_cr_words (length mem) mem p.

(** ** The head decoder [getHeaders] *)

(** The key loop:
    [for (; ( *p != ':') && ( *(unsigned char * )p > 32); *(p++) |= 32);] *)
Fixpoint scan_key (fuel : nat) (mem : buffer) (p : Z) : option (buffer * Z) :=
  match fuel with
  | O => None
  | S fuel' =>
      let c := rd mem p in
      if negb (c =? 58) && (32 <? c)
      then scan_key fuel' (wr mem p (Z.lor c 32)) (p + 1)
      else Some (mem, p)
  end.

(** The trim loop:
    [for (; ( *p == ':' || *(unsigned char * )p < 33) && *p != '\r'; p++);] *)
Fixpoint trim_value (fuel : nat) (mem : buffer) (p : Z) : option Z :=
  match fuel with
  | O => None
  | S fuel' =>
      let c := rd mem p in
      if ((c =? 58) || (c <? 33)) && negb (c =? 13)
      then trim_value fuel' mem (p + 1)
      else Some p
  end.

(** Colon and space, or the trim loop. *)
Definition skip_separator (mem : buffer) (p : Z) : option Z :=
  if (rd mem p =? 58) && (rd mem (p + 1) =? 32) then Some (p + 2)
  else trim_value (length mem) mem p.

(** The body of [getHeaders]' for loop, [n] iterations left; [h] is the
    [headers] pointer as an index into the header array. *)
Fixpoint getHeaders_loop (n : nat) (mem : buffer) (start p : Z)
    (headers : list Header) (h : nat) : option (buffer * list Header * Z) :=
  match n with
  | O => Some (mem, headers, 0)
  | S n' =>
      '(mem, q) ← scan_key (length mem) mem p;
      let headers := alter (set_key (SV p (q - p))) h headers in
      preliminaryValue ← skip_separator mem q;
      r ← find_cr mem preliminaryValue;
      if rd mem (r + 1) =? 10 then
        let headers :=
          alter (set_value (SV preliminaryValue (r - preliminaryValue))) h headers in
        let r := r + 2 in
        let h := S h in
        if rd mem r =? 13 then
          if rd mem (r + 1) =? 10
          then Some (mem, alter (set_key sv_null) h headers, u32 (r + 2 - start))
          else Some (mem, headers, 0)
        else getHeaders_loop n' mem start r headers h
      else Some (mem, headers, 0)
  end.

(** [getHeaders(postPaddedBuffer, end, headers, reserved)]: [end] and
    [reserved] are only used by the PROXY build. *)
Definition getHeaders (mem : buffer) (postPaddedBuffer : Z) (headers : list Header)
  : option (buffer * list Header * Z) :=
  getHeaders_loop (Z.to_nat (MAX_HEADERS - 1)) mem postPaddedBuffer postPaddedBuffer headers 0.

(** ** Collaborators that are not part of [HttpParser.h]

    [BloomFilter.h] and [ChunkedEncoding.h] are included by the parser but
    are separate files; the parser is verified against their interfaces. *)

(** The interface of [BloomFilter]: [reset], [add] and [mightHave] over the
    bytes of a key. *)
Class BloomFilterOps := {
  BloomFilter : Type;
  bf_reset : BloomFilter → BloomFilter;
  bf_add : BloomFilter → list Z → BloomFilter;
  bf_mightHave : BloomFilter → list Z → bool
}.

(** A filter has no false negatives: a key added since the last [reset]
    is reported by [mightHave]. *)
Class BloomFilterSound `{BloomFilterOps} : Prop := {
  bf_add_mightHave : ∀ b k, bf_mightHave (bf_add b k) k = true;
  bf_add_mono : ∀ b k k', bf_mightHave b k = true → bf_mightHave (bf_add b k') k = true
}.

(** The interface of [ChunkedEncoding.h] as the parser uses it: the
    constant [STATE_IS_CHUNKED], the predicate [isParsingChunkedEncoding]
    and the iterator [ChunkIterator], which, run to its end over a window
    and a state, has yielded a list of chunks and has left a shorter window
    (its new length is the second component) and a new state. *)
Class ChunkedEncoding := {
  STATE_IS_CHUNKED : Z;
  isParsingChunkedEncoding : Z → bool;
  ChunkIterator : list Z → Z → list (list Z) * Z * Z
}.

(** What the parser relies on: the iterator only removes a prefix of its
    window; its state, an [unsigned int], is never negative; started in a
    chunked state it stops either because the window is used up or because
    the body is finished (state 0); and the state a chunked body starts in
    is a chunked state. *)
Class ChunkedEncodingLaws `{ChunkedEncoding} : Prop := {
  chunk_window : ∀ d st, 0 ≤ (ChunkIterator d st).1.2 ≤ zlen d;
  chunk_state : ∀ d st, 0 ≤ st → 0 ≤ (ChunkIterator d st).2;
  chunk_drains : ∀ d st,
    isParsingChunkedEncoding st = true →
    (ChunkIterator d st).1.2 = 0 ∨ (ChunkIterator d st).2 = 0;
  chunked_state : 0 ≤ STATE_IS_CHUNKED;
  chunked_is_parsing : isParsingChunkedEncoding STATE_IS_CHUNKED = true
}.

(** ** The request view [HttpRequest] *)

(** [getParameter] reads the externally assigned pair
    [currentParameters]; its second component points to an array owned by
    the router, modelled by the list of its elements.  [None] stands for a
    read outside that array. *)
Definition getParameter_of (currentParameters : Z * list string_view) (index : Z)
  : option string_view :=
  if currentParameters.1 <? s32 index then Some sv_null
  else currentParameters.2 !! Z.to_nat index.

Section Parser.

Context `{BloomFilterOps} `{ChunkedEncoding}.

(** Whether plain [char] is signed on the platform; it decides the value of
    [(unsigned int) c]. *)
Variable char_is_signed : bool.

Record HttpRequest := MkRequest {
  headers : list Header;
  ancientHttp : bool;
  querySeparator : Z;
  didYield : bool;
  bf : BloomFilter;
  currentParameters : Z * list string_view
}.

Definition no_header : Header := MkHeader sv_null sv_null.

(** [req->headers], the first slot of the array. *)
Definition headers0 (req : HttpRequest) : Header := nth 0 (headers req) no_header.

Definition isAncient (req : HttpRequest) : bool := ancientHttp req.

Definition getYield (req : HttpRequest) : bool := didYield req.

Definition setYield (req : HttpRequest) (yield : bool) : HttpRequest :=
  MkRequest (headers req) (ancientHttp req) (querySeparator req) yield (bf req)
            (currentParameters req).

(** [strncmp(s1, s2, n) == 0]: the comparison stops at the first difference
    and at a NUL. *)
Fixpoint strncmp_eq (s1 s2 : list Z) (n : nat) : bool :=
  match n with
  | O => true
  | S n' =>
      let c1 := hd 0 s1 in
      let c2 := hd 0 s2 in
      if c1 =? c2
      then if c1 =? 0 then true else strncmp_eq (tl s1) (tl s2) n'
      else false
  end.

(** The loop of [getHeader], over the slots after the first:
    [for (Header *h = headers; (++h)->key.length(); )]. *)
Fixpoint getHeader_loop (mem : buffer) (hs : list Header) (lowerCasedHeader : list Z)
  : string_view :=
  match hs with
  | [] => sv_null
  | h :: hs' =>
      if sv_len (key h) =? 0 then sv_null
      else if (sv_len (key h) =? zlen lowerCasedHeader)
              && strncmp_eq (drop (Z.to_nat (sv_data (key h))) mem) lowerCasedHeader
                            (length lowerCasedHeader)
      then value h
      else getHeader_loop mem hs' lowerCasedHeader
  end.

Definition getHeader (mem : buffer) (req : HttpRequest) (lowerCasedHeader : list Z)
  : string_view :=
  if bf_mightHave (bf req) lowerCasedHeader
  then getHeader_loop mem (drop 1 (headers req)) lowerCasedHeader
  else sv_null.

Definition getUrl (req : HttpRequest) : string_view :=
  SV (sv_data (value (headers0 req))) (querySeparator req).

Definition getMethod (req : HttpRequest) : string_view :=
  SV (sv_data (key (headers0 req))) (sv_len (key (headers0 req))).

Definition getQuery (req : HttpRequest) : string_view :=
  let v := value (headers0 req) in
  if querySeparator req <? sv_len v
  then SV (sv_data v + querySeparator req + 1) (sv_len v - querySeparator req - 1)
  else sv_null.

Definition setParameters (req : HttpRequest) (parameters : Z * list string_view)
  : HttpRequest :=
  MkRequest (headers req) (ancientHttp req) (querySeparator req) (didYield req) (bf req)
            parameters.

Definition getParameter (req : HttpRequest) (index : Z) : option string_view :=
  getParameter_of (currentParameters req) index.

(** ** The parser [HttpParser] *)

Record HttpParser := MkParser {
  fallback : list Z;
  remainingStreamingBytes : Z
}.

(** [(unsigned int) c] for a [char c]. *)
Definition char_to_uint (c : Z) : Z :=
  if char_is_signed && (128 <=? c) then u32 (c - 256) else c.

Definition toUnsignedInteger (str : list Z) : Z :=
  fold_left (λ unsignedIntegerValue c,
               u32 (u32 (unsignedIntegerValue * 10) + u32 (char_to_uint c - 48)))
            str 0.

(** *** Callbacks

    The three callbacks are functions of the application's own state [A];
    every invocation is logged with its arguments and its result. *)

Inductive Event :=
| RequestEvent (user : Z) (mem : buffer) (req : HttpRequest) (returned : Z)
| DataEvent (user : Z) (chunk : list Z) (fin : bool) (returned : Z)
| ErrorEvent (user : Z) (returned : Z).

Context {A : Type}.

Record Handlers := MkHandlers {
  requestHandler : A → Z → buffer → HttpRequest → A * Z;
  dataHandler : A → Z → list Z → bool → A * Z;
  errorHandler : A → Z → A * Z
}.

Definition World : Type := A * list Event.

Variable handlers : Handlers.

Definition callRequest (w : World) (user : Z) (mem : buffer) (req : HttpRequest)
  : World * Z :=
  let '(a, returned) := requestHandler handlers w.1 user mem req in
  ((a, w.2 ++ [RequestEvent user mem req returned]), returned).

Definition callData (w : World) (user : Z) (chunk : list Z) (fin : bool) : World * Z :=
  let '(a, returned) := dataHandler handlers w.1 user chunk fin in
  ((a, w.2 ++ [DataEvent user chunk fin returned]), returned).

Definition callError (w : World) (user : Z) : World * Z :=
  let '(a, returned) := errorHandler handlers w.1 user in
  ((a, w.2 ++ [ErrorEvent user returned]), returned).

(** [for (auto chunk : uWS::ChunkIterator(...)) dataHandler(user, chunk, chunk.length() == 0);]
    the results of the calls are dropped. *)
Definition emitChunks (w : World) (user : Z) (chunks : list (list Z)) : World :=
  fold_left (λ w chunk, (callData w user chunk (zlen chunk =? 0)).1) chunks w.

(** *** [fenceAndConsumePostPadded] *)

(** [memchr(s, c, n)] as the offset of the first [c], if any. *)
Fixpoint memchr (s : list Z) (c : Z) : option Z :=
  match s with
  | [] => None
  | x :: s' => if x =? c then Some 0 else Z.succ <$> memchr s' c
  end.

(** The Bloom filter loop:
    [for (Header *h = req->headers; (++h)->key.length(); ) req->bf.add(h->key);] *)
Fixpoint addKeys (mem : buffer) (hs : list Header) (b : BloomFilter) : BloomFilter :=
  match hs with
  | [] => b
  | h :: hs' =>
      if sv_len (key h) =? 0 then b
      else addKeys mem hs' (bf_add b (sv_bytes mem (key h)))
  end.

(** What the loop body does to the request view between [getHeaders] and
    the call of the request handler: the version flag, the stripped target,
    the Bloom filter and the query separator. *)
Definition finishRequest (mem : buffer) (hs : list Header) (req : HttpRequest)
  : HttpRequest :=
  let v := value (nth 0 hs no_header) in
  let ancient := negb (sv_len v =? 0) && (rd mem (sv_data v + sv_len v - 1) =? 48) in
  let v' := SV (sv_data v) (Z.max 0 (s32 (sv_len v) - 9)) in
  let hs := alter (set_value v') 0%nat hs in
  let b := addKeys mem (drop 1 hs) (bf_reset (bf req)) in
  let querySeparator :=
    match memchr (sv_bytes mem v') 63 with
    | Some off => u32 off
    | None => u32 (sv_len v')
    end in
  MkRequest hs ancient querySeparator (didYield req) b (currentParameters req).

(** The state the loop of [fenceAndConsumePostPadded] works on. *)
Record Cursor := MkCursor {
  c_mem : buffer;
  c_data : Z;
  c_length : Z;
  c_consumedTotal : Z;
  c_req : HttpRequest;
  c_remaining : Z;
  c_world : World
}.

(** The body framing after the request handler has returned the token it
    was given. *)
Definition frameBody (CONSUME_MINIMALLY : bool) (user : Z) (c : Cursor) : Cursor :=
  let mem := c_mem c in
  let req := c_req c in
  if negb (bool_decide (sv_bytes mem (getMethod req) = bytes "get")) then
    let contentLengthString := getHeader mem req (bytes "content-length") in
    if negb (sv_len contentLengthString =? 0) then
      let remaining := toUnsignedInteger (sv_bytes mem contentLengthString) in
      if negb CONSUME_MINIMALLY then
        let emittable := Z.min remaining (c_length c) in
        let w := (callData (c_world c) user (slice mem (c_data c) emittable)
                           (emittable =? remaining)).1 in
        MkCursor mem (c_data c + emittable) (u32 (c_length c - emittable))
                 (u32 (c_consumedTotal c + emittable)) req (u32 (remaining - emittable)) w
      else
        MkCursor mem (c_data c) (c_length c) (c_consumedTotal c) req remaining (c_world c)
    else
      if negb CONSUME_MINIMALLY then
        let '(chunks, rest, remaining) :=
          ChunkIterator (slice mem (c_data c) (c_length c)) STATE_IS_CHUNKED in
        let w := emitChunks (c_world c) user chunks in
        let consumed := u32 (c_length c - u32 rest) in
        MkCursor mem (c_data c + (c_length c - rest)) (u32 rest)
                 (u32 (c_consumedTotal c + consumed)) req remaining w
      else
        MkCursor mem (c_data c) (c_length c) (c_consumedTotal c) req STATE_IS_CHUNKED
                 (c_world c)
  else
    let w := (callData (c_world c) user [] true).1 in
    MkCursor mem (c_data c) (c_length c) (c_consumedTotal c) req (c_remaining c) w.

(** How one iteration of the loop ends: with the loop left (by its
    condition, a [return] or a [break]) or with another iteration. *)
Inductive Step :=
| Leave (c : Cursor) (returned : Z)
| Again (c : Cursor).

(** One iteration of
    [for (unsigned int consumed; length && (consumed = getHeaders(...)); )],
    condition first. *)
Definition fenceAndConsume_step (CONSUME_MINIMALLY : bool) (user : Z) (c : Cursor)
  : option Step :=
  if c_length c =? 0 then Some (Leave c user) else
  '(mem, hs, consumed) ← getHeaders (c_mem c) (c_data c) (headers (c_req c));
  let req0 := c_req c in
  let req0 := MkRequest hs (ancientHttp req0) (querySeparator req0) (didYield req0)
                        (bf req0) (currentParameters req0) in
  if consumed =? 0
  then Some (Leave (MkCursor mem (c_data c) (c_length c) (c_consumedTotal c) req0
                             (c_remaining c) (c_world c)) user)
  else
    let data := c_data c + consumed in
    let length := u32 (c_length c - consumed) in
    let consumedTotal := u32 (c_consumedTotal c + consumed) in
    let req := finishRequest mem hs req0 in
    let '(w, returnedUser) := callRequest (c_world c) user mem req in
    let c := MkCursor mem data length consumedTotal req (c_remaining c) w in
    if negb (returnedUser =? user) then Some (Leave c returnedUser)
    else
      let c := frameBody CONSUME_MINIMALLY user c in
      if CONSUME_MINIMALLY then Some (Leave c user) else Some (Again c).

(** The loop; the result is the final cursor and the returned user token. *)
Fixpoint fenceAndConsume_loop (fuel : nat) (CONSUME_MINIMALLY : bool) (user : Z)
    (c : Cursor) : option (Cursor * Z) :=
  match fuel with
  | O => None
  | S fuel' =>
      match fenceAndConsume_step CONSUME_MINIMALLY user c with
      | None => None
      | Some (Leave c returned) => Some (c, returned)
      | Some (Again c) => fenceAndConsume_loop fuel' CONSUME_MINIMALLY user c
      end
  end.

(** [fenceAndConsumePostPadded<CONSUME_MINIMALLY>(data, length, user, reserved, req, ...)] *)
Definition fenceAndConsumePostPadded (CONSUME_MINIMALLY : bool) (mem : buffer)
    (data length : Z) (user : Z) (req : HttpRequest) (remaining : Z) (w : World)
  : option (Cursor * Z) :=
  let mem := wr mem (data + length) 13 in
  let mem := wr mem (data + length + 1) 97 in
  fenceAndConsume_loop (S (Z.to_nat length)) CONSUME_MINIMALLY user
    (MkCursor mem data length 0 req remaining w).

(** *** [consumePostPadded] *)

(** What a call of [consumePostPadded] leaves: the parser's members, the
    application's state with the log of callbacks, and the returned user
    token. *)
Record Outcome := MkOutcome {
  o_parser : HttpParser;
  o_world : World;
  o_returned : Z
}.

(** How the streaming of a length-delimited body ends: with a [return], or
    with the rest of the window still to parse. *)
Inductive Resume :=
| Returned (remaining : Z) (w : World) (returned : Z)
| Continue (remaining : Z) (data length : Z) (w : World).

(** The streaming of a length-delimited body, which the source has twice
    ("this is exactly the same as above!"). *)
Definition resumeLength (remaining : Z) (mem : buffer) (data length user : Z) (w : World)
  : Resume :=
  if length <=? remaining then
    let '(w, returnedUser) :=
      callData w user (slice mem data length) (remaining =? length) in
    Returned (u32 (remaining - length)) w returnedUser
  else
    let '(w, returnedUser) := callData w user (slice mem data remaining) true in
    if negb (returnedUser =? user) then Returned 0 w returnedUser
    else Continue 0 (data + remaining) (u32 (length - remaining)) w.

(** The end of [consumePostPadded]: parse fresh heads, then stash what is
    left.  [fb] is the parser's fallback buffer at that point. *)
Definition consumeFresh (fb : list Z) (remaining : Z) (mem : buffer)
    (data length user : Z) (req : HttpRequest) (w : World) : option Outcome :=
  '(c, second) ← fenceAndConsumePostPadded false mem data length user req remaining w;
  if negb (second =? user)
  then Some (MkOutcome (MkParser fb (c_remaining c)) (c_world c) second)
  else
    let data := data + c_consumedTotal c in
    let length := u32 (length - c_consumedTotal c) in
    if negb (length =? 0) then
      if length <? MAX_FALLBACK_SIZE
      then Some (MkOutcome (MkParser (fb ++ slice (c_mem c) data length) (c_remaining c))
                           (c_world c) user)
      else
        let '(w, returned) := callError (c_world c) user in
        Some (MkOutcome (MkParser fb (c_remaining c)) w returned)
    else Some (MkOutcome (MkParser fb (c_remaining c)) (c_world c) user).

(** [consumePostPadded(data, length, user, reserved, requestHandler, dataHandler, errorHandler)];
    [req] is the content of the uninitialised [HttpRequest req] on the
    stack.  The fallback string is parsed in a buffer of its own, [fbmem]:
    its bytes followed by the capacity that [reserve] has added, whose
    content the source leaves open and which is zero here. *)
Definition consumePostPadded (p : HttpParser) (mem : buffer) (data length user : Z)
    (req : HttpRequest) (w : World) : option Outcome :=
  let remaining := remainingStreamingBytes p in
  if negb (remaining =? 0) then
    if isParsingChunkedEncoding remaining then
      let '(chunks, rest, remaining) := ChunkIterator (slice mem data length) remaining in
      let w := emitChunks w user chunks in
      consumeFresh (fallback p) remaining mem (data + (length - rest)) (u32 rest) user req w
    else
      match resumeLength remaining mem data length user w with
      | Returned remaining w returned =>
          Some (MkOutcome (MkParser (fallback p) remaining) w returned)
      | Continue remaining data length w =>
          consumeFresh (fallback p) remaining mem data length user req w
      end
  else if negb (zlen (fallback p) =? 0) then
    let had := u32 (zlen (fallback p)) in
    let maxCopyDistance := Z.min (u64 (MAX_FALLBACK_SIZE - zlen (fallback p))) length in
    let fb := fallback p ++ slice mem data maxCopyDistance in
    let fbmem := fb ++ replicate (Z.to_nat MINIMUM_HTTP_POST_PADDING) 0 in
    '(c, second) ← fenceAndConsumePostPadded true fbmem 0 (u32 (zlen fb)) user req
                                              remaining w;
    let fb := take (Z.to_nat (zlen fb)) (c_mem c) in
    if negb (second =? user)
    then Some (MkOutcome (MkParser fb (c_remaining c)) (c_world c) second)
    else if negb (c_consumedTotal c =? 0) then
      let data := data + u32 (c_consumedTotal c - had) in
      let length := u32 (length - u32 (c_consumedTotal c - had)) in
      if negb (c_remaining c =? 0) then
        match resumeLength (c_remaining c) mem data length user (c_world c) with
        | Returned remaining w returned => Some (MkOutcome (MkParser [] remaining) w returned)
        | Continue remaining data length w =>
            consumeFresh [] remaining mem data length user (c_req c) w
        end
      else consumeFresh [] (c_remaining c) mem data length user (c_req c) (c_world c)
    else if zlen fb =? MAX_FALLBACK_SIZE then
      let '(w, returned) := callError (c_world c) user in
      Some (MkOutcome (MkParser fb (c_remaining c)) w returned)
    else Some (MkOutcome (MkParser fb (c_remaining c)) (c_world c) user)
  else consumeFresh (fallback p) remaining mem data length user req w.

End Parser.

Arguments HttpRequest {_}.
Arguments Event {_}.
Arguments Handlers {_} _.
Arguments World {_} _.
Arguments Cursor {_} _.
Arguments Outcome {_} _.
Arguments Resume {_} _.
Arguments Step {_} _.

(** ** Iteration over the headers, and the query of a key *)

Section RequestMore.

Context `{BloomFilterOps}.

(** [HeaderIterator]: its [ptr] is null or points to the slot [headers + i]. *)
Inductive HeaderIterator :=
| ItNull
| ItAt (i : Z).

Definition ptr_eqb (it other : HeaderIterator) : bool :=
  match it, other with
  | ItNull, ItNull => true
  | ItAt i, ItAt j => i =? j
  | _, _ => false
  end.

(** The slot a pointer into [headers] points to; [None] outside the array
    and for the null pointer. *)
Definition slot (req : HttpRequest) (it : HeaderIterator) : option Header :=
  match it with
  | ItNull => None
  | ItAt i => if i <? 0 then None else headers req !! Z.to_nat i
  end.

(** [begin()] is [{headers + 1}] and [end()] is [{nullptr}]. *)
Definition begin (req : HttpRequest) : HeaderIterator := ItAt 1.

Definition end' (req : HttpRequest) : HeaderIterator := ItNull.

(** [operator!=]: "comparison with end is a special case". *)
Definition it_ne (req : HttpRequest) (it other : HeaderIterator) : option bool :=
  if negb (ptr_eqb it other) then
    match other with
    | ItAt _ => Some true
    | ItNull => h ← slot req it; Some (negb (sv_len (key h) =? 0))
    end
  else Some false.

(** [operator++]. *)
Definition it_next (it : HeaderIterator) : option HeaderIterator :=
  match it with
  | ItNull => None
  | ItAt i => Some (ItAt (i + 1))
  end.

(** [operator*]. *)
Definition it_get (req : HttpRequest) (it : HeaderIterator)
  : option (string_view * string_view) :=
  h ← slot req it; Some (key h, value h).

(** [for (auto [key, value] : *req)]: the pairs the loop body is given, in
    order; [fuel] bounds the number of iterations. *)
Fixpoint it_loop (fuel : nat) (req : HttpRequest) (it : HeaderIterator)
  : option (list (string_view * string_view)) :=
  match fuel with
  | O => None
  | S fuel' =>
      more ← it_ne req it (end' req);
      if more : bool then
        kv ← it_get req it;
        it' ← it_next it;
        rest ← it_loop fuel' req it';
        Some (kv :: rest)
      else Some []
  end.

Definition iterate (req : HttpRequest) : option (list (string_view * string_view)) :=
  it_loop (S (length (headers req))) req (begin req).

(** The argument that [getQuery(key)] hands to [getDecodedQueryValue]: the
    "raw querystring including initial '?' sign". *)
Definition queryString (req : HttpRequest) : string_view :=
  let v := value (headers0 req) in
  SV (sv_data v + querySeparator req) (u64 (sv_len v - querySeparator req)).

(** [getQuery(key)]; [getDecodedQueryValue] is defined in [QueryParser.h]. *)
Definition getQuery_key {R : Type} (getDecodedQueryValue : list Z → string_view → R)
    (req : HttpRequest) (key : list Z) : R :=
  getDecodedQueryValue key (queryString req).

End RequestMore.

(** ** Instances of the collaborators, modelled from the specification *)

(** Modelled from the spec: [BloomFilter.h] is not among the sources.  The
    specification (4.3) describes "a small fixed-size bitset (e.g., 64
    bits) with a cheap hash over a byte slice" exposing [reset], [add] and
    [mightHave]; the hash below is the sum of the bytes. *)
Definition bloom_hash (k : list Z) : Z := fold_left Z.add k 0 mod 64.

#[export] Instance spec_bloom : BloomFilterOps := {|
  BloomFilter := Z;
  bf_reset _ := 0;
  bf_add b k := Z.lor b (Z.shiftl 1 (bloom_hash k));
  bf_mightHave b k := Z.testbit b (bloom_hash k)
|}.

Definition STATE_HAS_SIZE : Z := 0x80000000.
Definition STATE_SIZE_MASK : Z := 0x3FFFFFFF.

Definition hex_digit (c : Z) : option Z :=
  if (48 <=? c) && (c <=? 57) then Some (c - 48)
  else if (97 <=? c) && (c <=? 102) then Some (c - 87)
  else if (65 <=? c) && (c <=? 70) then Some (c - 55)
  else None.

Definition flush (acc : list Z) : list (list Z) :=
  match acc with [] => [] | _ => [rev acc] end.

(** Modelled from the spec: [ChunkedEncoding.h] is not among the sources.
    The specification (3, 4.5, 4.6) describes a resumable decoder whose
    state lives in the two highest bits of a 32-bit integer, with a counter
    in the low 30 bits, and which "alternately consumes a hex size line
    terminated by CRLF and then that many payload bytes followed by CRLF; a
    zero-size line terminates the body and yields an empty chunk".  Here
    bit 30 alone means that a size line is being read (the counter is the
    size so far), bit 31 that a chunk is being read (the counter is what is
    left of the payload and its CRLF), both bits that the CRLF after the
    terminating chunk is awaited, and 0 that no body is in progress.
    [acc] holds the payload bytes of the current chunk met so far in this
    window, last first; a counter is decremented by packing it anew under
    the two mode bits. *)
Fixpoint spec_decode (d : list Z) (st : Z) (acc : list Z) : list (list Z) * Z * Z :=
  match d with
  | [] => (flush acc, 0, st)
  | c :: d' =>
      let n := Z.land st STATE_SIZE_MASK in
      if Z.land st 0xC0000000 =? 0 then (flush acc, zlen d, st)
      else if Z.land st STATE_HAS_SIZE =? 0 then
        match hex_digit c with
        | Some v =>
            spec_decode d' (Z.lor 0x40000000 (Z.land (n * 16 + v) STATE_SIZE_MASK)) acc
        | None =>
            if c =? LF then
              if n =? 0 then
                let '(chunks, rest, st') := spec_decode d' (0xC0000000 + 2) [] in
                ([] :: chunks, rest, st')
              else
                spec_decode d' (Z.lor STATE_HAS_SIZE (Z.land (n + 2) STATE_SIZE_MASK)) []
            else spec_decode d' st acc
        end
      else if 3 <? n then spec_decode d' (Z.lor (Z.land st 0xC0000000) (n - 1)) (c :: acc)
      else if n =? 3 then
        let '(chunks, rest, st') := spec_decode d' (Z.lor (Z.land st 0xC0000000) (n - 1)) [] in
        (rev (c :: acc) :: chunks, rest, st')
      else if n =? 2 then spec_decode d' (Z.lor (Z.land st 0xC0000000) (n - 1)) acc
      else if Z.land st 0x40000000 =? 0 then spec_decode d' 0x40000000 acc
      else spec_decode d' 0 acc
  end.

#[export] Instance spec_chunked : ChunkedEncoding := {|
  STATE_IS_CHUNKED := 0x40000000;
  isParsingChunkedEncoding st := negb (Z.land st 0xC0000000 =? 0);
  ChunkIterator d st := spec_decode d st []
|}.

(** ** Vocabulary of the statements

    A head is a list of lines, each followed by CR LF, and a final CR LF.
    The functions below say what the decoder makes of one line. *)

Fixpoint lines_bytes (lines : list (list Z)) : list Z :=
  match lines with
  | [] => []
  | l :: ls => l ++ CR :: LF :: lines_bytes ls
  end.

Definition head_bytes (lines : list (list Z)) : list Z := lines_bytes lines ++ [CR; LF].

(** The bytes the key loop runs over: neither a colon nor below 33. *)
Definition is_key_byte (c : Z) : bool := negb (c =? 58) && (32 <? c).

Fixpoint key_of (l : list Z) : list Z :=
  match l with
  | c :: l' => if is_key_byte c then c :: key_of l' else []
  | [] => []
  end.

Fixpoint after_key (l : list Z) : list Z :=
  match l with
  | c :: l' => if is_key_byte c then after_key l' else l
  | [] => []
  end.

(** The bytes the trim loop skips. *)
Definition is_trim_byte (c : Z) : bool := ((c =? 58) || (c <? 33)) && negb (c =? 13).

Fixpoint trim (l : list Z) : list Z :=
  match l with
  | c :: l' => if is_trim_byte c then trim l' else l
  | [] => []
  end.

(** What follows the separator: two bytes are skipped after colon and
    space, a run of colons and blanks otherwise. *)
Definition after_separator (r : list Z) : list Z :=
  if (hd 0 r =? 58) && (hd 0 (tl r) =? 32) then tl (tl r) else trim r.

Definition value_of (l : list Z) : list Z := after_separator (after_key l).

(** A line after the key loop: [|= 32] on every byte of the key. *)
Definition lower (k : list Z) : list Z := map (λ c, Z.lor c 32) k.

Definition lower_line (l : list Z) : list Z := lower (key_of l) ++ after_key l.

(** The header slot of the line [l] that starts at offset [o]. *)
Definition line_header (o : Z) (l : list Z) : Header :=
  MkHeader (SV o (zlen (key_of l)))
           (SV (o + zlen l - zlen (value_of l)) (zlen (value_of l))).

Fixpoint line_headers (o : Z) (lines : list (list Z)) : list Header :=
  match lines with
  | [] => []
  | l :: ls => line_header o l :: line_headers (o + zlen l + 2) ls
  end.

(** The header array after a head of [length vs] lines was stored from its
    first free slot on: the lines, then the empty key that ends them. *)
Fixpoint fill (vs : list Header) (todo : list Header) : list Header :=
  match vs, todo with
  | [], t :: todo' => set_key sv_null t :: todo'
  | v :: vs', _ :: todo' => v :: fill vs' todo'
  | _, [] => []
  end.

Definition no_cr (l : list Z) : Prop := Forall (λ c, c ≠ 13) l.

(** Lines of a head: none holds a CR, and only the first may be empty. *)
Definition valid_lines (lines : list (list Z)) : Prop :=
  Forall no_cr lines ∧ Forall (λ l, l ≠ []) (tail lines).

Definition bytes_ok (mem : list Z) : Prop := Forall (λ b, 0 ≤ b < 256) mem.

(** Little-endian value of a list of bytes. *)
Fixpoint le_word (bs : list Z) : Z :=
  match bs with
  | [] => 0
  | b :: bs' => b + 256 * le_word bs'
  end.

(** [ones n] is 0x01...01 and [highs n] is 0x80...80, [n] bytes each. *)
Definition ones (n : nat) : Z := le_word (replicate n 1).
Definition highs (n : nat) : Z := le_word (replicate n 128).

(** The zero-byte test of [find_cr] on a word of [length vs] bytes. *)
Definition haszero (vs : list Z) : Z :=
  Z.land ((le_word vs - ones (length vs)) mod 256 ^ zlen vs)
         (Z.land (Z.lnot (le_word vs)) (highs (length vs))).

(** What [getHeader] finds among the header lines of a head: the value of
    the first line whose stored key is [name]; the lines behind a line
    with an empty key are not looked at. *)
Fixpoint lookup_header (name : list Z) (lines : list (list Z)) : list Z :=
  match lines with
  | [] => []
  | l :: ls =>
      if bool_decide (key_of l = []) then []
      else if bool_decide (lower (key_of l) = name) then value_of l
      else lookup_header name ls
  end.

(** Whether that search meets the key [name] at all. *)
Fixpoint has_header (name : list Z) (lines : list (list Z)) : bool :=
  match lines with
  | [] => false
  | l :: ls =>
      if bool_decide (key_of l = []) then false
      else if bool_decide (lower (key_of l) = name) then true
      else has_header name ls
  end.

(** ASCII lower case, which is what a caller of [getHeader] applies to a
    header name. *)
Definition ascii_lower (c : Z) : Z := if (65 <=? c) && (c <=? 90) then c + 32 else c.

(** The value of a decimal numeral read without any check, in unbounded
    arithmetic; [v c] is the number a byte stands for. *)
Definition decimal_value (v : Z → Z) (str : list Z) : Z :=
  fold_left (λ acc c, acc * 10 + (v c - 48)) str 0.

(** The request target: the value of the request line without its last
    nine bytes (a blank and the version). *)
Definition target_of (v : list Z) : list Z := take (length v - 9) v.

(** A request line and a header line as a client writes them. *)
Definition request_line (method target version : list Z) : list Z :=
  method ++ 32 :: target ++ 32 :: version.

Definition header_line (field : list Z * list Z) : list Z :=
  field.1 ++ 58 :: 32 :: field.2.

(** A token: bytes above the blank other than the colon, at least one. *)
Definition token (name : list Z) : Prop :=
  name ≠ [] ∧ Forall (λ c, is_key_byte c = true) name.

(** A target starts with a byte that the trim loop does not skip. *)
Definition target_start (target : list Z) : Prop :=
  target ≠ [] ∧ is_trim_byte (hd 0 target) = false ∧ hd 0 target ≠ 13.

(** The value of the first field whose name, with 0x20 or-ed into every
    byte, is [name]. *)
Fixpoint lookup_field (name : list Z) (fields : list (list Z * list Z)) : list Z :=
  match fields with
  | [] => []
  | f :: fs => if bool_decide (lower f.1 = name) then f.2 else lookup_field name fs
  end.

(** The number the byte [c] stands for as a [char]. *)
Definition char_value (char_is_signed : bool) (c : Z) : Z :=
  if char_is_signed && (128 <=? c) then c - 256 else c.

(** What the decoder's control flow sees of a byte: a CR, an LF, or
    anything else. *)
Definition kind (c : Z) : Z := if c =? 13 then 1 else if c =? 10 then 2 else 0.

Definition pattern (l : list Z) : list Z := map kind l.

(** [w] does not begin with a complete head of at most 49 lines. *)
Definition NoHead (w : list Z) : Prop :=
  ∀ lines rest,
    lines ≠ [] → valid_lines lines → zlen lines ≤ MAX_HEADERS - 1 →
    w ≠ head_bytes lines ++ rest.

(** The header lines that an iteration or a lookup gets to see: those
    before the first line with an empty key. *)
Fixpoint listed (lines : list (list Z)) : list (list Z) :=
  match lines with
  | [] => []
  | l :: ls => if bool_decide (key_of l = []) then [] else l :: listed ls
  end.

(** A buffer with the fence at [F]: a CR, and a byte that is no LF. *)
Definition fenced (mem : list Z) (F : Z) : list Z := wr (wr mem F 13) (F + 1) 97.

(** ** A cursor at a complete head *)

Section StepDefs.

Context `{BloomFilterOps} {A : Type}.

(** The window of the cursor begins with a complete head of at most 49
    lines. *)
Record HeadAt (c : Cursor A) (pre : list Z) (lines : list (list Z)) (post : list Z)
  : Prop := {
  head_mem : c_mem c = pre ++ head_bytes lines ++ post;
  head_data : c_data c = zlen pre;
  head_lines : lines ≠ [] ∧ valid_lines lines ∧ zlen lines ≤ MAX_HEADERS - 1;
  head_bytes_ok : bytes_ok (c_mem c);
  head_slots : length (headers (c_req c)) = Z.to_nat MAX_HEADERS;
  head_length : zlen (head_bytes lines) ≤ c_length c < 2 ^ 32
}.

(** The request view that the handler is given for that head. *)
Definition head_mem' (pre : list Z) (lines : list (list Z)) (post : list Z) : list Z :=
  pre ++ head_bytes (map lower_line lines) ++ post.

Definition head_request (c : Cursor A) (pre : list Z) (lines : list (list Z))
    (post : list Z) : HttpRequest :=
  finishRequest (head_mem' pre lines post)
                (fill (line_headers (zlen pre) lines) (headers (c_req c))) (c_req c).

(** The cursor behind the head, once the request handler has run. *)
Definition head_cursor (c : Cursor A) (pre : list Z) (lines : list (list Z))
    (post : list Z) (w : World A) : Cursor A :=
  MkCursor (head_mem' pre lines post)
           (c_data c + zlen (head_bytes lines))
           (c_length c - zlen (head_bytes lines))
           (u32 (c_consumedTotal c + zlen (head_bytes lines)))
           (head_request c pre lines post) (c_remaining c) w.

End StepDefs.

Definition step_cursor `{BloomFilterOps} {A} (s : Step A) : Cursor A :=
  match s with Leave c _ | Again c => c end.

(** The log of callbacks at a cursor. *)
Definition log `{BloomFilterOps} {A} (c : Cursor A) : list Event := (c_world c).2.

(** ** The driver: cursors on a fenced buffer, calls and connections *)

Section DriverDefs.

Context `{BloomFilterOps} `{ChunkedEncoding}.
Variable char_is_signed : bool.
Context {A : Type} (handlers : Handlers A).

(** The bytes the loop has still to look at. *)
Definition window (c : Cursor A) : list Z := slice (c_mem c) (c_data c) (c_length c).

(** The cursor is on a buffer of bytes whose window ends at [F], where the
    fence stands: a CR that no LF follows.  The counters are within
    [unsigned int]. *)
Record Fenced (c : Cursor A) (F : Z) : Prop := {
  fenced_bytes : bytes_ok (c_mem c);
  fenced_data : 0 ≤ c_data c;
  fenced_length : 0 ≤ c_length c;
  fenced_end : c_data c + c_length c = F;
  fenced_cr : rd (c_mem c) F = 13;
  fenced_lf : rd (c_mem c) (F + 1) ≠ 10;
  fenced_total : 0 ≤ c_consumedTotal c;
  fenced_u32 : c_consumedTotal c + c_length c < 2 ^ 32
}.

(** [w] begins with a complete head of [n] bytes. *)
Definition HeadPrefix (n : Z) (w : list Z) : Prop :=
  ∃ lines rest,
    w = head_bytes lines ++ rest ∧ zlen (head_bytes lines) = n
    ∧ lines ≠ [] ∧ valid_lines lines ∧ zlen lines ≤ MAX_HEADERS - 1.

(** The iteration found no head: nothing moved, no callback ran, and the
    window, which the decoder may have lower-cased in places, still holds
    no head. *)
Record Failed (c c' : Cursor A) : Prop := {
  failed_length : c_length c ≠ 0;
  failed_data : c_data c' = c_data c;
  failed_same_length : c_length c' = c_length c;
  failed_total : c_consumedTotal c' = c_consumedTotal c;
  failed_remaining : c_remaining c' = c_remaining c;
  failed_world : c_world c' = c_world c;
  failed_bytes : bytes_ok (c_mem c');
  failed_pattern : pattern (c_mem c') = pattern (c_mem c);
  failed_window : NoHead (window c')
}.

(** The iteration found a head of [n] bytes and [c1] is the cursor behind
    it, after the request handler has run. *)
Record Parsed (c c1 : Cursor A) (F : Z) (n : Z) : Prop := {
  parsed_length : 0 < n ≤ c_length c;
  parsed_head : HeadPrefix n (window c);
  parsed_data : c_data c1 = c_data c + n;
  parsed_rest : c_length c1 = c_length c - n;
  parsed_total : c_consumedTotal c1 = c_consumedTotal c + n;
  parsed_remaining : c_remaining c1 = c_remaining c;
  parsed_pattern : pattern (c_mem c1) = pattern (c_mem c);
  parsed_fenced : Fenced c1 F
}.

(** What one iteration on a fenced cursor comes to. *)
Definition StepOk (cm : bool) (user : Z) (c : Cursor A) (F : Z) (s : Step A) : Prop :=
  match s with
  | Leave c' r =>
      (r = user ∧ c_length c = 0 ∧ c' = c)
      ∨ (r = user ∧ Failed c c')
      ∨ ∃ c1 n, Parsed c c1 F n
           ∧ ((r ≠ user ∧ c' = c1)
              ∨ (r = user ∧ cm = true ∧ c' = frameBody char_is_signed handlers cm user c1))
  | Again c' =>
      cm = false
      ∧ ∃ c1 n, Parsed c c1 F n ∧ c' = frameBody char_is_signed handlers cm user c1
  end.

(** The state of a parser between two calls: the framing state is an
    [unsigned int]; head bytes are carried over only while no body is in
    progress; the fallback buffer is within its bound; and what it holds
    is not yet a complete head. *)
Record Inv (p : HttpParser) : Prop := {
  inv_remaining : 0 ≤ remainingStreamingBytes p;
  inv_one : fallback p = [] ∨ remainingStreamingBytes p = 0;
  inv_bound : zlen (fallback p) ≤ MAX_FALLBACK_SIZE;
  inv_bytes : bytes_ok (fallback p);
  inv_head : NoHead (fallback p)
}.

(** One call of [consumePostPadded]: the receive buffer, the window in it,
    the user token and the content of the [HttpRequest] on the stack. *)
Record Call := MkCall {
  call_mem : buffer;
  call_data : Z;
  call_length : Z;
  call_user : Z;
  call_req : HttpRequest
}.

(** The buffer contract: the window is inside a buffer of bytes and is
    followed by the post padding. *)
Record call_ok (k : Call) : Prop := {
  call_bytes : bytes_ok (call_mem k);
  call_start : 0 ≤ call_data k;
  call_size : 0 ≤ call_length k < 2 ^ 32;
  call_padding : call_data k + call_length k + MINIMUM_HTTP_POST_PADDING ≤ zlen (call_mem k)
}.

Definition consume (p : HttpParser) (k : Call) (w : World A) : option (Outcome A) :=
  consumePostPadded char_is_signed handlers p (call_mem k) (call_data k) (call_length k)
                    (call_user k) (call_req k) w.

(** The calls on one connection: the caller feeds the parser one receive
    buffer after the other and stops at the first call that returns
    another token than the one it passed in.  The result pairs every call
    made with its outcome. *)
Fixpoint consume_calls (p : HttpParser) (w : World A) (calls : list Call)
  : option (list (Call * Outcome A)) :=
  match calls with
  | [] => Some []
  | k :: calls' =>
      match consume p k w with
      | None => None
      | Some o =>
          if o_returned o =? call_user k then
            match consume_calls (o_parser o) (o_world o) calls' with
            | None => None
            | Some os => Some ((k, o) :: os)
            end
          else Some [(k, o)]
      end
  end.

End DriverDefs.

Arguments Call {_}.

(** ** Test fixtures

    A parser on a fresh connection, with the Bloom filter and the chunked
    decoder modelled above, [char] signed, and callbacks without state. *)

Definition empty_slots : list Header := replicate (Z.to_nat MAX_HEADERS) (MkHeader sv_null sv_null).

Definition fresh_request : HttpRequest := MkRequest empty_slots false 0 false 0 (0, []).

Definition fresh_parser : HttpParser := MkParser [] 0.

Definition post_padding : list Z := replicate (Z.to_nat MINIMUM_HTTP_POST_PADDING) 0.

(** Callbacks that return the token they are given. *)
Definition keep : Handlers unit :=
  MkHandlers (λ a user _ _, (a, user)) (λ a user _ _, (a, user)) (λ a user, (a, user)).

(** A request handler that returns another token (an upgrade). *)
Definition upgrade (other : Z) : Handlers unit :=
  MkHandlers (λ a _ _ _, (a, other)) (λ a user _ _, (a, user)) (λ a user, (a, user)).

(** A data handler that returns another token. *)
Definition close_on_data (other : Z) : Handlers unit :=
  MkHandlers (λ a user _ _, (a, user)) (λ a _ _ _, (a, other)) (λ a user, (a, user)).

(** One call of [consumePostPadded] on [input] in a padded receive buffer. *)
Definition run (handlers : Handlers unit) (p : HttpParser) (input : list Z) (user : Z)
  : option (Outcome unit) :=
  consumePostPadded true handlers p (input ++ post_padding) 0 (zlen input) user
                    fresh_request (tt, []).

(** The cursor at the start of the loop over [input], fence written. *)
Definition cursor_on (input : list Z) : Cursor unit :=
  MkCursor (input ++ 13 :: 97 :: drop 2 post_padding) 0 (zlen input) 0 fresh_request 0
           (tt, []).

(** What a log shows: the callbacks in order, a request as its method,
    URL, query and version flag. *)
Inductive Seen :=
| SeenRequest (method url query : list Z) (ancient : bool) (returned : Z)
| SeenData (chunk : list Z) (fin : bool) (returned : Z)
| SeenError (returned : Z).

Definition seen (e : Event) : Seen :=
  match e with
  | RequestEvent _ mem req returned =>
      SeenRequest (sv_bytes mem (getMethod req)) (sv_bytes mem (getUrl req))
                  (sv_bytes mem (getQuery req)) (isAncient req) returned
  | DataEvent _ chunk fin returned => SeenData chunk fin returned
  | ErrorEvent _ returned => SeenError returned
  end.

(** What [getHeader] returns for [name] in each request of the log. *)
Definition seen_header (name : list Z) (e : Event) : option (list Z) :=
  match e with
  | RequestEvent _ mem req _ => Some (sv_bytes mem (getHeader mem req name))
  | _ => None
  end.

(** The outcome of a call as the parser's members, what the log shows and
    the returned token. *)
Definition summary (o : option (Outcome unit)) : option (HttpParser * list Seen * Z) :=
  match o with
  | Some o => Some (o_parser o, map seen (o_world o).2, o_returned o)
  | None => None
  end.

(** The concatenation the URL/query property speaks of: the question mark
    is left out when the query is empty. *)
Definition url_with_query (url query : list Z) : list Z :=
  url ++ (if bool_decide (query = []) then [] else 63 :: query).

(** A request of a request line and one header line, and the cursor at
    its start. *)
Definition sample_request_line : list Z :=
  request_line (bytes "GET") (bytes "/a?b=1") (bytes "HTTP/1.0").

Definition sample_headers : list (list Z) := [header_line (bytes "Host", bytes "x")].

Definition sample_post : list Z := 13 :: 97 :: drop 2 post_padding.

Definition sample_cursor : Cursor unit :=
  cursor_on (head_bytes (sample_request_line :: sample_headers)).

(** A request with a body of five bytes, all of them in the window. *)
Definition sample_post_line : list Z :=
  request_line (bytes "POST") (bytes "/") (bytes "HTTP/1.1").

Definition sample_post_headers : list (list Z) :=
  [header_line (bytes "Content-Length", bytes "5")].

Definition sample_post_cursor : Cursor unit :=
  cursor_on (head_bytes (sample_post_line :: sample_post_headers) ++ bytes "ABCDE").

(** A call on [input] in a padded receive buffer. *)
Definition call_on (input : list Z) (user : Z) : Call :=
  MkCall (input ++ post_padding) 0 (zlen input) user fresh_request.

(** A request that arrives in two fragments, the first of which ends inside
    the head. *)
Definition split_calls : list Call :=
  [call_on (bytes "GET / HTTP/1.1" ++ CRLF ++ bytes "Ho") 7;
   call_on (bytes "st: x" ++ CRLF ++ CRLF) 7].

(** 4200 bytes without a line end. *)
Definition long_call : Call := call_on (replicate (Z.to_nat 4200) 97) 7.


Definition filling_call : Call := call_on (replicate (Z.to_nat 200) 97) 7.

(** ** Requests in a window *)

(** A request as it stands in a window: the lines of its head and its
    body. *)
Definition message_bytes (m : list (list Z) * list Z) : list Z := head_bytes m.1 ++ m.2.

Definition messages_bytes (ms : list (list (list Z) * list Z)) : list Z :=
  concat (map message_bytes ms).

(** The target up to its first question mark, and what follows that. *)
Fixpoint url_of (target : list Z) : list Z :=
  match target with
  | [] => []
  | c :: t => if c =? 63 then [] else c :: url_of t
  end.

Fixpoint query_of (target : list Z) : list Z :=
  match target with
  | [] => []
  | c :: t => if c =? 63 then t else query_of t
  end.

(** What the two callbacks of a request with its whole body show when they
    hand the token back. *)
Definition seen_message (user : Z) (m : list (list Z) * list Z) : list Seen :=
  let l0 := hd [] m.1 in
  let target := target_of (value_of l0) in
  [SeenRequest (lower (key_of l0)) (url_of target) (query_of target)
               (bool_decide (last (value_of l0) = Some 48)) user;
   SeenData m.2 true user].

(** What the callbacks of a request show whose head was completed from
    the bytes carried over: the body is streamed afterwards, and no data
    handler is called for a body of length zero unless the method is
    get. *)
Definition seen_resumed (user : Z) (m : list (list Z) * list Z) : list Seen :=
  let l0 := hd [] m.1 in
  let target := target_of (value_of l0) in
  SeenRequest (lower (key_of l0)) (url_of target) (query_of target)
              (bool_decide (last (value_of l0) = Some 48)) user
  :: if bool_decide (lower (key_of l0) = bytes "get") then [SeenData [] true user]
     else if zlen m.2 =? 0 then [] else [SeenData m.2 true user].

(** Lines that differ only where the key loop has been: in the case of
    the letters of the key. *)
Definition same_line (l' l : list Z) : Prop :=
  lower (key_of l') = lower (key_of l) ∧ after_key l' = after_key l.

Section CallDefs.

Context `{BloomFilterOps}.
Variable char_is_signed : bool.
Context {A : Type}.

(** What a log shows, for any Bloom filter. *)
Definition observe (e : Event) : Seen :=
  match e with
  | RequestEvent _ mem req returned =>
      SeenRequest (sv_bytes mem (getMethod req)) (sv_bytes mem (getUrl req))
                  (sv_bytes mem (getQuery req)) (isAncient req) returned
  | DataEvent _ chunk fin returned => SeenData chunk fin returned
  | ErrorEvent _ returned => SeenError returned
  end.

(** A request that the parser frames by itself: a head of at most 49 lines
    and either the method get (in any case) and no body, or another method
    and a Content-Length value that [toUnsignedInteger] reads as the
    length of the body. *)
Definition framed (m : list (list Z) * list Z) : Prop :=
  m.1 ≠ [] ∧ valid_lines m.1 ∧ zlen m.1 ≤ MAX_HEADERS - 1
  ∧ zlen (hd [] m.1) < 2 ^ 31 ∧ bytes_ok (message_bytes m)
  ∧ if bool_decide (lower (key_of (hd [] m.1)) = bytes "get") then m.2 = []
    else lookup_header (bytes "content-length") (tl m.1) ≠ []
         ∧ toUnsignedInteger char_is_signed
             (lookup_header (bytes "content-length") (tl m.1)) = zlen m.2.

(** The cursor that the loop over the window of a call starts from. *)
Definition call_cursor (k : Call) (remaining : Z) (w : World A) : Cursor A :=
  MkCursor (fenced (call_mem k) (call_data k + call_length k)) (call_data k)
           (call_length k) 0 (call_req k) remaining w.

(** The data events of a body of which [n] bytes are still to come and
    which arrives as the windows of the calls [ks], when the data handler
    hands the token back. *)
Fixpoint streamed (n : Z) (ks : list Call) : list Event :=
  match ks with
  | [] => []
  | k :: ks' =>
      DataEvent (call_user k) (slice (call_mem k) (call_data k) (call_length k))
                (n =? call_length k) (call_user k)
      :: streamed (n - call_length k) ks'
  end.

(** The bytes that the windows of the calls hold together. *)
Definition windows_length (ks : list Call) : Z :=
  foldr (λ k s, call_length k + s) 0 ks.

(** The parser and the world after the calls whose outcomes are [outs]. *)
Definition end_state (p : HttpParser) (w : World A) (outs : list (Call * Outcome A))
  : HttpParser * World A :=
  match last outs with
  | Some ko => (o_parser ko.2, o_world ko.2)
  | None => (p, w)
  end.

(** The handlers hand the token back. *)
Definition keeps_token (handlers : Handlers A) : Prop :=
  (∀ a user mem req, (requestHandler handlers a user mem req).2 = user)
  ∧ (∀ a user chunk fin, (dataHandler handlers a user chunk fin).2 = user).

End CallDefs.

(** A request after the decoder has been over its head. *)
Definition lower_message (m : list (list Z) * list Z) : list (list Z) * list Z :=
  (map lower_line m.1, m.2).

(** *** More inputs *)

(** Two requests with their bodies, and the beginning of a third. *)
Definition two_requests : list (list (list Z) * list Z) :=
  [([request_line (bytes "GET") (bytes "/a?b=1") (bytes "HTTP/1.1");
     header_line (bytes "Host", bytes "x")], []);
   ([sample_post_line; header_line (bytes "Content-Length", bytes "5")], bytes "ABCDE")].

Definition partial_head : list Z := bytes "GET /next HTT".

Definition pipelined_call : Call :=
  call_on (messages_bytes two_requests ++ partial_head) 7.

(** The same two requests on a connection whose request handler returns
    another token. *)
Definition takeover_call : Call := call_on (messages_bytes two_requests) 7.

(** A body in two windows. *)
Definition body_calls : list Call := [call_on (bytes "AB") 7; call_on (bytes "CDE") 7].

(** A parser whose fallback buffer is full. *)
Definition full_parser : HttpParser := MkParser (replicate (Z.to_nat MAX_FALLBACK_SIZE) 97) 0.

(** A parser that carries the beginning of a request line over, and the
    calls that complete the head: with a Content-Length body, another
    request and the beginning of a third behind it; and with a chunked
    body. *)
Definition carrying_parser : HttpParser := MkParser (bytes "post /up HTT") 0.




Definition chunked_head : list (list Z) :=
  [bytes "post /up HTTP/1.1"; bytes "Transfer-Encoding: chunked"].

Definition chunked_rest : list Z :=
  bytes "P/1.1" ++ CRLF ++ bytes "Transfer-Encoding: chunked" ++ CRLF ++ CRLF.

Definition chunked_body : list Z := bytes "5" ++ CRLF ++ bytes "ABCDE" ++ CRLF.

Definition chunked_call : Call := call_on (chunked_rest ++ chunked_body) 7.



(** A GET request, and a POST request with the first two of the five
    bytes of its body. *)
Definition partial_body_call : Call :=
  call_on (messages_bytes (take 1 two_requests)
           ++ head_bytes [sample_post_line; header_line (bytes "Content-Length", bytes "5")]
           ++ bytes "AB") 7.

(** A POST request whose head is cut inside the name of its second line:
    the first window holds a GET request and 25 bytes of the head, the
    second the rest of the head, the body, another GET request and the
    beginning of a further request. *)
Definition split_head : list (list Z) :=
  [sample_post_line; header_line (bytes "Content-Length", bytes "5")].

Definition first_fragment : Call :=
  call_on (messages_bytes (take 1 two_requests) ++ take 25 (head_bytes split_head)) 7.

Definition second_fragment : Call :=
  call_on (drop 25 (head_bytes split_head) ++ bytes "ABCDE"
           ++ messages_bytes (take 1 two_requests) ++ partial_head) 7.

(** * Verification

    ** Bytes and words *)

Lemma testbit_byte_cons a x i :
  0 ≤ a < 256 → 0 ≤ i →
  Z.testbit (a + 256 * x) i = if i <? 8 then Z.testbit a i else Z.testbit x (i - 8).
Proof.
  intros Ha Hi.
  destruct (Z.ltb_spec i 8).
  - rewrite <- (Z.mod_pow2_bits_low (a + 256 * x) 8 i) by lia.
    replace ((a + 256 * x) mod 2 ^ 8) with a; [done|].
    change (2 ^ 8) with 256. 
    rewrite (Z.mul_comm 256), Z_mod_plus_full.
    symmetry. apply Z.mod_small. lia.
  - replace i with ((i - 8) + 8) at 1 by lia.
    rewrite <- Z.div_pow2_bits by lia.
    f_equal. change (2 ^ 8) with 256.
    rewrite (Z.add_comm a), (Z.mul_comm 256), Z.div_add_l by lia.
    rewrite (Z.div_small a); lia.
Qed.

Lemma byte_high_bits a i : 0 ≤ a < 256 → 8 ≤ i → Z.testbit a i = false.
Proof.
  intros Ha Hi. rewrite <- (Z.mod_small a (2 ^ 8)) by (change (2 ^ 8) with 256; lia).
  apply Z.mod_pow2_bits_high. lia.
Qed.

Lemma byte_of_bits z :
  0 ≤ z → (∀ i, 8 ≤ i → Z.testbit z i = false) → 0 ≤ z < 256.
Proof.
  intros Hz Hhi. assert (z mod 2 ^ 8 = z) as <-.
  { apply Z.bits_inj'. intros i Hi. destruct (Z.lt_ge_cases i 8).
    - by rewrite Z.mod_pow2_bits_low.
    - rewrite Z.mod_pow2_bits_high by lia. symmetry. by apply Hhi. }
  apply Z.mod_pos_bound. done.
Qed.

Lemma land_byte a c : 0 ≤ a < 256 → 0 ≤ Z.land a c < 256.
Proof.
  intros Ha. apply byte_of_bits.
  - apply Z.land_nonneg. lia.
  - intros i Hi. by rewrite Z.land_spec, byte_high_bits.
Qed.

Lemma lxor_byte a c : 0 ≤ a < 256 → 0 ≤ c < 256 → 0 ≤ Z.lxor a c < 256.
Proof.
  intros Ha Hc. apply byte_of_bits.
  - apply Z.lxor_nonneg. lia.
  - intros i Hi. by rewrite Z.lxor_spec, !byte_high_bits.
Qed.

Lemma lor_byte a c : 0 ≤ a < 256 → 0 ≤ c < 256 → 0 ≤ Z.lor a c < 256.
Proof.
  intros Ha Hc. apply byte_of_bits.
  - apply Z.lor_nonneg. lia.
  - intros i Hi. by rewrite Z.lor_spec, !byte_high_bits.
Qed.

Lemma land_byte_cons a x c y :
  0 ≤ a < 256 → 0 ≤ c < 256 →
  Z.land (a + 256 * x) (c + 256 * y) = Z.land a c + 256 * Z.land x y.
Proof.
  intros Ha Hc. apply Z.bits_inj'. intros i Hi.
  pose proof (land_byte a c Ha).
  rewrite Z.land_spec, !testbit_byte_cons by lia.
  destruct (i <? 8); by rewrite Z.land_spec.
Qed.

Lemma lxor_byte_cons a x c y :
  0 ≤ a < 256 → 0 ≤ c < 256 →
  Z.lxor (a + 256 * x) (c + 256 * y) = Z.lxor a c + 256 * Z.lxor x y.
Proof.
  intros Ha Hc. apply Z.bits_inj'. intros i Hi.
  pose proof (lxor_byte a c Ha Hc).
  rewrite Z.lxor_spec, !testbit_byte_cons by lia.
  destruct (i <? 8); by rewrite Z.lxor_spec.
Qed.

Lemma byte_cases (P : Z → bool) :
  forallb P (seqZ 0 256) = true → ∀ b, 0 ≤ b < 256 → P b = true.
Proof.
  intros HP b Hb. rewrite forallb_forall in HP. apply HP.
  apply list_elem_of_In, elem_of_seqZ. lia.
Qed.

Lemma mod_byte_cons a x m :
  0 ≤ a < 256 → 0 < m → (a + 256 * x) mod (256 * m) = a + 256 * (x mod m).
Proof.
  intros Ha Hm. symmetry. apply (Z.mod_unique _ _ (x / m)).
  - left. pose proof (Z.mod_pos_bound x m Hm). lia.
  - rewrite (Z.div_mod x m) at 1 by lia. lia.
Qed.

Lemma lnot_byte_cons a x : Z.lnot (a + 256 * x) = (255 - a) + 256 * Z.lnot x.
Proof. unfold Z.lnot. lia. Qed.

Lemma haszero_cons b vs :
  0 ≤ b < 256 →
  haszero (b :: vs) =
    if b =? 0 then 128 + 256 * Z.land ((le_word vs - ones (length vs) - 1) mod 256 ^ zlen vs)
                                    (Z.land (Z.lnot (le_word vs)) (highs (length vs)))
    else 256 * haszero vs.
Proof.
  intros Hb. unfold haszero, ones, highs, zlen. cbn [length replicate le_word].
  rewrite Nat2Z.inj_succ, Z.pow_succ_r by lia.
  set (n := length vs). set (M := 256 ^ Z.of_nat n).
  assert (0 < M) by (apply Z.pow_pos_nonneg; lia).
  rewrite lnot_byte_cons.
  rewrite (land_byte_cons (255 - b) _ 128) by lia.
  pose proof (land_byte (255 - b) 128 ltac:(lia)).
  destruct (Z.eqb_spec b 0) as [->|Hne].
  - replace (0 + 256 * le_word vs - (1 + 256 * le_word (replicate n 1)))
      with (255 + 256 * (le_word vs - le_word (replicate n 1) - 1)) by lia.
    rewrite mod_byte_cons by lia.
    rewrite land_byte_cons by lia. done.
  - replace (b + 256 * le_word vs - (1 + 256 * le_word (replicate n 1)))
      with ((b - 1) + 256 * (le_word vs - le_word (replicate n 1))) by lia.
    rewrite mod_byte_cons by lia.
    rewrite land_byte_cons by lia.
    assert (Z.land (b - 1) (Z.land (255 - b) 128) = 0) as ->; [|lia].
    pose proof (byte_cases
      (λ b, (b =? 0) || (Z.land (b - 1) (Z.land (255 - b) 128) =? 0))
      ltac:(by vm_compute) b Hb) as Hc.
    simpl in Hc. lia.
Qed.

Lemma haszero_nonneg vs : 0 ≤ haszero vs.
Proof.
  unfold haszero. apply Z.land_nonneg. left. apply Z.mod_pos_bound.
  apply Z.pow_pos_nonneg; unfold zlen; lia.
Qed.

Lemma haszero_spec vs :
  Forall (λ b, 0 ≤ b < 256) vs → (haszero vs = 0 ↔ Forall (λ b, b ≠ 0) vs).
Proof.
  induction 1 as [|b vs Hb Hvs IH].
  - split; [constructor|]. intros _. by vm_compute.
  - rewrite haszero_cons by done. destruct (Z.eqb_spec b 0) as [->|Hne].
    + split.
      * intros Hz. exfalso.
        match type of Hz with 128 + 256 * ?t = 0 => assert (0 ≤ t) end; [|lia].
        apply Z.land_nonneg. left. apply Z.mod_pos_bound.
        apply Z.pow_pos_nonneg; unfold zlen; lia.
      * intros Hall. by inversion Hall.
    + rewrite Forall_cons. split.
      * intros Hz. split; [done|]. apply IH. lia.
      * intros [_ Hall]. apply IH in Hall. lia.
Qed.

(** ** Reading and writing buffers *)

Lemma zlen_app {A} (l1 l2 : list A) : zlen (l1 ++ l2) = zlen l1 + zlen l2.
Proof. unfold zlen. rewrite length_app. lia. Qed.

Lemma zlen_cons {A} (x : A) l : zlen (x :: l) = 1 + zlen l.
Proof. unfold zlen. cbn [length]. lia. Qed.

Lemma zlen_nil {A} : zlen (@nil A) = 0.
Proof. done. Qed.

Lemma zlen_nonneg {A} (l : list A) : 0 ≤ zlen l.
Proof. unfold zlen. lia. Qed.

Lemma zlen_map {A B} (f : A → B) l : zlen (map f l) = zlen l.
Proof. unfold zlen. by rewrite length_map. Qed.

Lemma rd_app_l pre post p : 0 ≤ p < zlen pre → rd (pre ++ post) p = rd pre p.
Proof. unfold rd, zlen. intros. apply app_nth1. lia. Qed.

Lemma rd_app_r pre post p : zlen pre ≤ p → rd (pre ++ post) p = rd post (p - zlen pre).
Proof.
  unfold rd, zlen. intros. rewrite app_nth2 by lia. f_equal. lia.
Qed.

Lemma rd_cons_0 x l : rd (x :: l) 0 = x.
Proof. done. Qed.

Lemma rd_cons_S x l p : 0 < p → rd (x :: l) p = rd l (p - 1).
Proof.
  unfold rd. intros. replace (Z.to_nat p) with (S (Z.to_nat (p - 1))) by lia. done.
Qed.

Lemma rd_nil p : rd [] p = 0.
Proof. unfold rd. by destruct (Z.to_nat p). Qed.

Lemma rd_outside mem p : zlen mem ≤ p → rd mem p = 0.
Proof. unfold rd, zlen. intros. apply nth_overflow. lia. Qed.

Lemma rd_at pre x post : rd (pre ++ x :: post) (zlen pre) = x.
Proof. rewrite rd_app_r by lia. by rewrite Z.sub_diag. Qed.

Lemma rd_hd pre post : rd (pre ++ post) (zlen pre) = hd 0 post.
Proof.
  destruct post; [|apply rd_at]. rewrite app_nil_r. apply rd_outside. lia.
Qed.

Lemma rd_byte mem p : bytes_ok mem → 0 ≤ rd mem p < 256.
Proof.
  intros Hok. unfold rd. destruct (Nat.lt_ge_cases (Z.to_nat p) (length mem)).
  - apply (proj1 (Forall_forall _ _) Hok). apply list_elem_of_In. by apply nth_In.
  - rewrite nth_overflow by done. lia.
Qed.

Lemma rd_in (l : list Z) i : 0 ≤ i < zlen l → rd l i ∈ l.
Proof. unfold rd, zlen. intros. apply list_elem_of_In, nth_In. lia. Qed.

Lemma wr_at pre x post c : wr (pre ++ x :: post) (zlen pre) c = pre ++ c :: post.
Proof.
  unfold wr, zlen. rewrite Nat2Z.id, insert_app_r_alt by lia.
  by rewrite Nat.sub_diag.
Qed.

Lemma length_wr mem p c : length (wr mem p c) = length mem.
Proof. apply length_insert. Qed.

Lemma bytes_ok_app l1 l2 : bytes_ok (l1 ++ l2) ↔ bytes_ok l1 ∧ bytes_ok l2.
Proof. apply Forall_app. Qed.

Lemma slice_at pre l post : slice (pre ++ l ++ post) (zlen pre) (zlen l) = l.
Proof.
  unfold slice, zlen. rewrite !Nat2Z.id, drop_app_length. apply take_app_length.
Qed.

(** ** The scanner finds the first carriage return *)

Lemma load64_le_word mem p :
  load64 mem p =
  le_word [rd mem p; rd mem (p + 1); rd mem (p + 2); rd mem (p + 3);
           rd mem (p + 4); rd mem (p + 5); rd mem (p + 6); rd mem (p + 7)].
Proof.
  unfold load64. rewrite !Z.shiftl_mul_pow2 by lia. cbn [le_word]. lia.
Qed.

Lemma lxor_le_word bs c :
  bytes_ok bs → 0 ≤ c < 256 →
  Z.lxor (le_word bs) (le_word (replicate (length bs) c)) = le_word (map (λ b, Z.lxor b c) bs).
Proof.
  intros Hbs Hc. induction Hbs as [|b bs Hb _ IH]; [done|].
  cbn [length replicate le_word map]. rewrite lxor_byte_cons by done. by rewrite IH.
Qed.

Lemma cr_mask_haszero bs :
  length bs = 8%nat → bytes_ok bs →
  cr_mask (le_word bs) = haszero (map (λ b, Z.lxor b 13) bs).
Proof.
  intros Hlen Hbs. unfold cr_mask, haszero, u64.
  change 0x0d0d0d0d0d0d0d0d with (le_word (replicate 8 13)).
  rewrite <- Hlen, lxor_le_word by (done || lia).
  set (v := le_word (map (λ b, Z.lxor b 13) bs)).
  rewrite length_map, zlen_map. unfold zlen. rewrite Hlen.
  change (highs 8) with 0x8080808080808080.
  f_equal.
  replace (v + 0xfefefefefefefeff) with (v - ones 8 + 1 * 2 ^ 64)
    by (change (ones 8) with 0x0101010101010101; lia).
  by rewrite Z_mod_plus_full.
Qed.

Lemma cr_mask_zero mem p :
  bytes_ok mem →
  cr_mask (load64 mem p) = 0 ↔ ∀ i, 0 ≤ i < 8 → rd mem (p + i) ≠ 13.
Proof.
  intros Hok. rewrite load64_le_word, cr_mask_haszero.
  - rewrite haszero_spec.
    + cbn [map]. rewrite !Forall_cons, Forall_nil.
      setoid_rewrite Z.lxor_eq_0_iff.
      split.
      * intros (?&?&?&?&?&?&?&?&_) i Hi.
        assert (i = 0 ∨ i = 1 ∨ i = 2 ∨ i = 3 ∨ i = 4 ∨ i = 5 ∨ i = 6 ∨ i = 7) as Hc
          by lia.
        destruct Hc as [->|[->|[->|[->|[->|[->|[->| ->]]]]]]];
          rewrite ?Z.add_0_r; done.
      * intros Hall. rewrite <- (Z.add_0_r p) at 1.
        repeat split; try apply Hall; lia.
    + cbn [map]. repeat (apply Forall_cons; split; [apply lxor_byte; [by apply rd_byte|lia]|]).
      constructor.
  - done.
  - repeat (apply Forall_cons; split; [by apply rd_byte|]). constructor.
Qed.

Lemma find_cr_bytes_first fuel mem p c :
  p ≤ c → rd mem c = 13 → (∀ i, p ≤ i < c → rd mem i ≠ 13) →
  (Z.to_nat (c - p) < fuel)%nat →
  find_cr_bytes fuel mem p = Some c.
Proof.
  revert p. induction fuel as [|fuel IH]; intros p Hp Hc Hfirst Hfuel; [lia|].
  cbn [find_cr_bytes]. destruct (Z.eqb_spec (rd mem p) 13) as [Heq|Hne].
  - destruct (decide (p = c)) as [->|]; [done|]. exfalso. apply (Hfirst p); [lia|done].
  - assert (p ≠ c) by congruence. apply IH; [lia|done| |lia].
    intros i Hi. apply Hfirst. lia.
Qed.

Lemma find_cr_words_first fuel mem p c :
  bytes_ok mem →
  p ≤ c → rd mem c = 13 → (∀ i, p ≤ i < c → rd mem i ≠ 13) →
  (Z.to_nat ((c - p) / 8) < fuel)%nat →
  find_cr_words fuel mem p = Some c.
Proof.
  intros Hok. revert p.
  induction fuel as [|fuel IH]; intros p Hp Hc Hfirst Hfuel; [lia|].
  cbn [find_cr_words]. destruct (Z.eqb_spec (cr_mask (load64 mem p)) 0) as [Hz|Hnz].
  - rewrite cr_mask_zero in Hz by done.
    assert (p + 8 ≤ c).
    { destruct (Z.le_gt_cases (p + 8) c); [done|]. exfalso.
      apply (Hz (c - p)); [lia|]. by replace (p + (c - p)) with c by lia. }
    apply IH; [done|done| |].
    + intros i Hi. apply Hfirst. lia.
    + replace (c - p) with ((c - (p + 8)) + 1 * 8) in Hfuel by lia.
      rewrite Z.div_add in Hfuel by lia.
      assert (0 ≤ (c - (p + 8)) / 8) by (apply Z.div_pos; lia). lia.
  - apply find_cr_bytes_first; [done..|].
    destruct (Z.le_gt_cases (p + 8) c); [|lia]. exfalso. apply Hnz.
    apply cr_mask_zero; [done|]. intros i Hi. apply Hfirst. lia.
Qed.

(** [find_cr] returns the position of the first carriage return at or
    after [p]. *)
Lemma find_cr_first mem p c :
  bytes_ok mem →
  0 ≤ p ≤ c → rd mem c = 13 → (∀ i, p ≤ i < c → rd mem i ≠ 13) →
  find_cr mem p = Some c.
Proof.
  intros Hok Hp Hc Hfirst. apply find_cr_words_first; [done|lia|done|done|].
  assert (c < zlen mem).
  { destruct (Z.lt_ge_cases c (zlen mem)); [done|]. rewrite rd_outside in Hc; lia. }
  assert ((c - p) / 8 ≤ c - p) by (apply Z.div_le_upper_bound; lia).
  unfold zlen in *. lia.
Qed.

(** What [find_cr] returns is the first carriage return. *)
Lemma find_cr_bytes_sound fuel : ∀ mem p c,
  find_cr_bytes fuel mem p = Some c →
  p ≤ c ∧ rd mem c = 13 ∧ ∀ i, p ≤ i < c → rd mem i ≠ 13.
Proof.
  induction fuel as [|fuel IH]; intros mem p c Hrun; cbn in Hrun; [done|].
  destruct (Z.eqb_spec (rd mem p) 13) as [E|E].
  - inversion Hrun; subst. split; [lia|]. split; [done|]. intros; lia.
  - destruct (IH _ _ _ Hrun) as (Hp & Hc & Hfirst). split; [lia|]. split; [done|].
    intros i Hi. destruct (decide (i = p)) as [->|]; [done|]. apply Hfirst. lia.
Qed.

Lemma find_cr_words_sound fuel : ∀ mem p c,
  bytes_ok mem → find_cr_words fuel mem p = Some c →
  p ≤ c ∧ rd mem c = 13 ∧ ∀ i, p ≤ i < c → rd mem i ≠ 13.
Proof.
  induction fuel as [|fuel IH]; intros mem p c Hok Hrun; cbn [find_cr_words] in Hrun; [done|].
  destruct (Z.eqb_spec (cr_mask (load64 mem p)) 0) as [E|E].
  - destruct (IH _ _ _ Hok Hrun) as (Hp & Hc & Hfirst).
    pose proof (proj1 (cr_mask_zero mem p Hok) E) as Hword.
    split; [lia|]. split; [done|]. intros i Hi.
    destruct (Z.lt_ge_cases i (p + 8)).
    + replace i with (p + (i - p)) by lia. apply Hword. lia.
    + apply Hfirst. lia.
  - by apply find_cr_bytes_sound in Hrun.
Qed.


(** ** One line of a head *)

Lemma key_split l : key_of l ++ after_key l = l.
Proof. induction l as [|c l IH]; [done|]. cbn. destruct (is_key_byte c); cbn; congruence. Qed.

Lemma zlen_key_split l : zlen (key_of l) + zlen (after_key l) = zlen l.
Proof. rewrite <- zlen_app. by rewrite key_split. Qed.

Lemma after_key_hd l : is_key_byte (hd 0 (after_key l)) = false.
Proof.
  induction l as [|c l IH]; [done|]. cbn. by destruct (is_key_byte c) eqn:E.
Qed.

Lemma zlen_lower k : zlen (lower k) = zlen k.
Proof. apply zlen_map. Qed.

Lemma zlen_lower_line l : zlen (lower_line l) = zlen l.
Proof. unfold lower_line. by rewrite zlen_app, zlen_lower, zlen_key_split. Qed.

Lemma after_separator_suffix r : ∃ s, r = s ++ after_separator r ∧ no_cr s.
Proof.
  assert (∀ r, ∃ s, r = s ++ trim r ∧ no_cr s) as Htrim.
  { clear r. induction r as [|c r (s & Hs & Hcr)]; [exists []; by split; [|constructor]|].
    cbn. destruct (is_trim_byte c) eqn:E; [|exists []; by split; [|constructor]].
    exists (c :: s). split; [cbn; congruence|]. constructor; [|done].
    unfold is_trim_byte in E. lia. }
  unfold after_separator.
  destruct ((hd 0 r =? 58) && (hd 0 (tl r) =? 32)) eqn:E; [|apply Htrim].
  destruct r as [|c1 [|c2 r]]; cbn in E; [done|lia|].
  exists [c1; c2]. split; [done|]. repeat constructor; lia.
Qed.

Lemma trim_suffix r : ∃ s, r = s ++ trim r ∧ Forall (λ c, is_trim_byte c = true) s.
Proof.
  induction r as [|c r (s & Hs & Hcr)]; [by exists []|].
  cbn. destruct (is_trim_byte c) eqn:E; [|by exists []].
  exists (c :: s). split; [cbn; congruence|]. by constructor.
Qed.

Lemma trim_hd r : is_trim_byte (hd 0 (trim r ++ [13])) = false.
Proof.
  induction r as [|c r IH]; [done|]. cbn. by destruct (is_trim_byte c) eqn:E.
Qed.

(** The key loop lower-cases the key of the line and stops behind it. *)
Lemma scan_key_line fuel pre l post :
  is_key_byte (hd 0 post) = false →
  (length (key_of l) < fuel)%nat →
  scan_key fuel (pre ++ l ++ post) (zlen pre)
  = Some (pre ++ lower_line l ++ post, zlen pre + zlen (key_of l)).
Proof.
  revert fuel pre. induction l as [|c l IH]; intros fuel pre Hpost Hfuel.
  - destruct fuel; [cbn in Hfuel; lia|]. cbn [scan_key app].
    rewrite rd_hd. unfold is_key_byte in Hpost. rewrite Hpost.
    cbn. by rewrite Z.add_0_r.
  - destruct fuel; [cbn in Hfuel; lia|]. cbn [scan_key app].
    rewrite rd_at. unfold lower_line. cbn [key_of after_key].
    fold (is_key_byte c). destruct (is_key_byte c) eqn:E.
    + cbn [key_of] in Hfuel. rewrite E in Hfuel. cbn [length] in Hfuel.
      rewrite wr_at.
      replace (pre ++ Z.lor c 32 :: l ++ post) with ((pre ++ [Z.lor c 32]) ++ l ++ post)
        by by rewrite <- app_assoc.
      replace (zlen pre + 1) with (zlen (pre ++ [Z.lor c 32]))
        by (rewrite zlen_app; done).
      rewrite IH by (done || lia).
      rewrite zlen_app, !zlen_cons, zlen_nil. cbn [lower map app].
      f_equal. f_equal; [|lia]. by rewrite <- app_assoc.
    + cbn. by rewrite Z.add_0_r.
Qed.

Lemma length_trim_le r : (length (trim r) ≤ length r)%nat.
Proof.
  induction r as [|c r IH]; [done|]. cbn. destruct (is_trim_byte c); cbn; lia.
Qed.

Lemma trim_value_line fuel pre r post :
  (length r - length (trim r) < fuel)%nat →
  trim_value fuel (pre ++ r ++ 13 :: post) (zlen pre)
  = Some (zlen pre + zlen r - zlen (trim r)).
Proof.
  revert fuel pre. induction r as [|c r IH]; intros fuel pre Hfuel.
  - destruct fuel; [lia|]. cbn [trim_value app]. rewrite rd_at. cbn. f_equal. lia.
  - destruct fuel; [cbn in Hfuel; lia|]. cbn [trim_value app trim].
    rewrite rd_at. fold (is_trim_byte c). destruct (is_trim_byte c) eqn:E.
    + replace (pre ++ c :: r ++ 13 :: post) with ((pre ++ [c]) ++ r ++ 13 :: post)
        by by rewrite <- app_assoc.
      replace (zlen pre + 1) with (zlen (pre ++ [c])) by (rewrite zlen_app; done).
      rewrite IH.
      * f_equal. rewrite zlen_app, !zlen_cons, zlen_nil. lia.
      * cbn [trim] in Hfuel. rewrite E in Hfuel. cbn [length] in Hfuel.
        pose proof (length_trim_le r). lia.
    + f_equal. lia.
Qed.

Lemma skip_separator_line pre r post :
  skip_separator (pre ++ r ++ 13 :: post) (zlen pre)
  = Some (zlen pre + zlen r - zlen (after_separator r)).
Proof.
  unfold skip_separator, after_separator.
  rewrite rd_hd.
  assert ((rd (pre ++ r ++ 13 :: post) (zlen pre + 1) =? 32) = (hd 0 (tl r) =? 32)
          ∨ (hd 0 (r ++ 13 :: post) =? 58) = false) as Hnext.
  { destruct r as [|c1 r]; [by right|]. left. cbn [app].
    rewrite rd_app_r, rd_cons_S by lia.
    replace (zlen pre + 1 - zlen pre - 1) with 0 by lia.
    destruct r as [|c2 r]; done. }
  assert ((hd 0 (r ++ 13 :: post) =? 58) = (hd 0 r =? 58)) as Hhd.
  { by destruct r. }
  destruct Hnext as [Hn|Hn].
  - rewrite Hn, Hhd.
    destruct ((hd 0 r =? 58) && (hd 0 (tl r) =? 32)) eqn:E.
    + f_equal. destruct r as [|c1 [|c2 r]]; cbn in E; [done|lia|].
      cbn [tl]. rewrite !zlen_cons. lia.
    + apply trim_value_line. rewrite !length_app. cbn.
      pose proof (length_trim_le r). lia.
  - rewrite Hn. rewrite Hhd in Hn. rewrite Hn. cbn.
    apply trim_value_line. rewrite !length_app. cbn.
    pose proof (length_trim_le r). lia.
Qed.

Lemma bytes_ok_lower k : bytes_ok k → bytes_ok (lower k).
Proof.
  intros Hk. apply Forall_map. eapply Forall_impl; [exact Hk|].
  intros c Hc. cbn in *. apply lor_byte; lia.
Qed.

Lemma bytes_ok_lower_line l : bytes_ok l → bytes_ok (lower_line l).
Proof.
  intros Hl. rewrite <- (key_split l) in Hl. apply bytes_ok_app in Hl as [Hk Ha].
  apply bytes_ok_app. split; [by apply bytes_ok_lower|done].
Qed.

Lemma no_cr_after_key l : no_cr l → no_cr (after_key l).
Proof.
  intros Hl. rewrite <- (key_split l) in Hl. by apply Forall_app in Hl as [_ ?].
Qed.

Lemma zlen_value_of_le l : zlen (value_of l) ≤ zlen (after_key l).
Proof.
  unfold value_of. destruct (after_separator_suffix (after_key l)) as (s & Hs & _).
  rewrite Hs at 2. rewrite zlen_app. pose proof (zlen_nonneg s). lia.
Qed.

Lemma rd_mid pre l post i : 0 ≤ i < zlen l → rd (pre ++ l ++ post) (zlen pre + i) ∈ l.
Proof.
  intros Hi. rewrite rd_app_r, rd_app_l by lia.
  replace (zlen pre + i - zlen pre) with i by lia. by apply rd_in.
Qed.

(** The three scans of one line, on a line that is followed by a CR. *)
Lemma line_scan pre l post :
  bytes_ok (pre ++ l ++ 13 :: post) → no_cr l →
  let mem := pre ++ l ++ 13 :: post in
  let mem1 := pre ++ lower_line l ++ 13 :: post in
  let q := zlen pre + zlen (key_of l) in
  let pv := zlen pre + zlen l - zlen (value_of l) in
  scan_key (length mem) mem (zlen pre) = Some (mem1, q)
  ∧ skip_separator mem1 q = Some pv
  ∧ find_cr mem1 pv = Some (zlen pre + zlen l)
  ∧ bytes_ok mem1 ∧ length mem1 = length mem.
Proof.
  intros Hok Hcr mem mem1 q pv.
  assert (bytes_ok mem1) as Hok1.
  { apply bytes_ok_app in Hok as (? & [? ?]%bytes_ok_app).
    apply bytes_ok_app. split; [done|]. apply bytes_ok_app. split; [|done].
    by apply bytes_ok_lower_line. }
  assert (length mem1 = length mem) as Hlen.
  { unfold mem1, mem. rewrite !length_app.
    pose proof (zlen_lower_line l) as Hll. unfold zlen in Hll. lia. }
  pose proof (zlen_key_split l) as Hks.
  pose proof (zlen_value_of_le l) as Hvl.
  pose proof (zlen_nonneg (key_of l)). pose proof (zlen_nonneg (value_of l)).
  pose proof (zlen_nonneg pre).
  split; [|split; [|split; [|done]]].
  - apply scan_key_line; [done|]. unfold mem. rewrite !length_app.
    unfold zlen in Hks. cbn [length]. lia.
  - unfold mem1, lower_line, q, pv.
    rewrite <- (zlen_lower (key_of l)), <- zlen_app.
    rewrite <- !app_assoc, (app_assoc pre).
    rewrite skip_separator_line. f_equal. unfold value_of.
    rewrite zlen_app, zlen_lower. lia.
  - apply find_cr_first; [done|unfold pv; lia| |].
    + unfold mem1. rewrite (app_assoc pre).
      rewrite <- (zlen_lower_line l), <- zlen_app. apply rd_at.
    + intros i Hi. unfold mem1, lower_line.
      rewrite <- !app_assoc, (app_assoc pre).
      replace i with (zlen (pre ++ lower (key_of l)) + (i - zlen pre - zlen (key_of l)))
        by (rewrite zlen_app, zlen_lower; lia).
      pose proof (rd_mid (pre ++ lower (key_of l)) (after_key l) (13 :: post)
                    (i - zlen pre - zlen (key_of l)) ltac:(unfold pv in Hi; lia)) as Hin.
      pose proof (no_cr_after_key l Hcr) as Hak.
      unfold no_cr in Hak. rewrite Forall_forall in Hak. by apply Hak.
Qed.

Lemma alter_twice (k v : string_view) h (hs : list Header) :
  alter (set_value v) h (alter (set_key k) h hs) = alter (λ _, MkHeader k v) h hs.
Proof.
  rewrite list_alter_alter_eq. by apply list_alter_ext.
Qed.

(** One iteration of the loop of [getHeaders] on a line followed by a CR:
    what happens next depends on the three bytes behind the CR. *)
Lemma getHeaders_loop_step n pre l post start hs h :
  bytes_ok (pre ++ l ++ 13 :: post) → no_cr l →
  getHeaders_loop (S n) (pre ++ l ++ 13 :: post) start (zlen pre) hs h =
    let mem1 := pre ++ lower_line l ++ 13 :: post in
    if hd 0 post =? 10 then
      let hs1 := alter (λ _, line_header (zlen pre) l) h hs in
      let r := zlen pre + zlen l + 2 in
      if hd 0 (tl post) =? 13 then
        if hd 0 (tl (tl post)) =? 10
        then Some (mem1, alter (set_key sv_null) (S h) hs1, u32 (r + 2 - start))
        else Some (mem1, hs1, 0)
      else getHeaders_loop n mem1 start r hs1 (S h)
    else Some (mem1, alter (set_key (SV (zlen pre) (zlen (key_of l)))) h hs, 0).
Proof.
  intros Hok Hcr.
  destruct (line_scan pre l post Hok Hcr) as (Hk & Hs & Hf & Hok1 & Hlen).
  cbn [getHeaders_loop]. rewrite Hk. cbn [mbind option_bind].
  rewrite Hs. cbn [mbind option_bind]. rewrite Hf. cbn [mbind option_bind].
  cbn zeta.
  assert (∀ i, 0 ≤ i →
    rd (pre ++ lower_line l ++ 13 :: post) (zlen pre + zlen l + 1 + i) = rd post i) as Hrd.
  { intros i Hi. rewrite (app_assoc pre), rd_app_r;
      rewrite zlen_app, zlen_lower_line; [|lia].
    rewrite rd_cons_S by lia. f_equal. lia. }
  assert (∀ p : list Z, rd p 0 = hd 0 p) as Hhd by (by intros []).
  assert (∀ p : list Z, rd p 1 = hd 0 (tl p)) as Hhd1.
  { intros [|? p]; [done|]. rewrite rd_cons_S by lia. apply Hhd. }
  assert (∀ p : list Z, rd p 2 = hd 0 (tl (tl p))) as Hhd2.
  { intros [|? p]; [done|]. rewrite rd_cons_S by lia. apply Hhd1. }
  assert (rd (pre ++ lower_line l ++ 13 :: post) (zlen pre + zlen l + 1) = hd 0 post) as R0.
  { rewrite <- Hhd, <- Hrd by lia. f_equal. lia. }
  assert (rd (pre ++ lower_line l ++ 13 :: post) (zlen pre + zlen l + 2) = hd 0 (tl post))
    as R1.
  { rewrite <- Hhd1, <- Hrd by lia. f_equal. lia. }
  assert (rd (pre ++ lower_line l ++ 13 :: post) (zlen pre + zlen l + 2 + 1)
          = hd 0 (tl (tl post))) as R2.
  { rewrite <- Hhd2, <- Hrd by lia. f_equal. lia. }
  rewrite R0, R1, R2, alter_twice. unfold line_header.
  replace (zlen pre + zlen (key_of l) - zlen pre) with (zlen (key_of l)) by lia.
  replace (zlen pre + zlen l - (zlen pre + zlen l - zlen (value_of l)))
    with (zlen (value_of l)) by lia.
  done.
Qed.

Lemma key_of_bytes' l : Forall (λ c, is_key_byte c = true) (key_of l).
Proof.
  induction l as [|c l IH]; [constructor|]. cbn. destruct (is_key_byte c) eqn:E.
  - by constructor.
  - constructor.
Qed.

(** ** Whole heads *)

Lemma head_bytes_cons l ls : head_bytes (l :: ls) = l ++ 13 :: 10 :: head_bytes ls.
Proof. unfold head_bytes. cbn [lines_bytes]. by rewrite <- app_assoc. Qed.

Lemma alter_at {A} (f : A → A) done t todo :
  alter f (length done) (done ++ t :: todo) = done ++ f t :: todo.
Proof.
  replace (length done) with (length done + 0)%nat by lia. by rewrite alter_app_r.
Qed.

Lemma bytes_ok_lower_mid pre l post :
  bytes_ok (pre ++ l ++ post) → bytes_ok (pre ++ lower_line l ++ post).
Proof.
  intros (? & [? ?]%bytes_ok_app)%bytes_ok_app.
  apply bytes_ok_app. split; [done|]. apply bytes_ok_app. split; [|done].
  by apply bytes_ok_lower_line.
Qed.

Lemma hd_nonempty_no_cr (l : list Z) rest : l ≠ [] → no_cr l → hd 0 (l ++ rest) ≠ 13.
Proof. destruct l; [done|]. intros _ Hl. by inversion Hl. Qed.

(** A complete head is decoded: the result is its length, the keys are
    lower-cased in the buffer, and the header array holds one slot per line
    and the empty key behind them. *)
Lemma getHeaders_loop_complete ls : ∀ l n pre post start done todo,
  bytes_ok (pre ++ head_bytes (l :: ls) ++ post) →
  Forall no_cr (l :: ls) → Forall (λ l, l ≠ []) ls →
  (length ls < n)%nat → (S (length ls) < length todo)%nat →
  getHeaders_loop n (pre ++ head_bytes (l :: ls) ++ post) start (zlen pre)
                  (done ++ todo) (length done)
  = Some (pre ++ head_bytes (map lower_line (l :: ls)) ++ post,
          done ++ fill (line_headers (zlen pre) (l :: ls)) todo,
          u32 (zlen pre + zlen (head_bytes (l :: ls)) - start)).
Proof.
  induction ls as [|l2 ls IH]; intros l n pre post start done todo Hok Hcr Hne Hn Htodo.
  - destruct n as [|n]; [cbn in Hn; lia|].
    destruct todo as [|t0 [|t1 todo]]; [cbn in Htodo; lia..|].
    rewrite !head_bytes_cons in *. unfold head_bytes in *. cbn [lines_bytes app map] in *.
    rewrite <- !app_assoc in *. cbn [app] in *.
    rewrite getHeaders_loop_step by (done || by inversion Hcr).
    cbv zeta. cbn [hd tl]. rewrite !Z.eqb_refl.
    rewrite alter_at.
    replace (S (length done)) with (length (done ++ [line_header (zlen pre) l]))
      by (rewrite length_app; cbn; lia).
    replace (done ++ line_header (zlen pre) l :: t1 :: todo)
      with ((done ++ [line_header (zlen pre) l]) ++ t1 :: todo)
      by (by rewrite <- app_assoc).
    rewrite alter_at, <- app_assoc.
    do 3 f_equal. rewrite zlen_app, !zlen_cons, zlen_nil. lia.
  - destruct n as [|n]; [cbn in Hn; lia|].
    destruct todo as [|t0 todo]; [cbn in Htodo; lia|].
    rewrite (head_bytes_cons l) in *. cbn [map]. rewrite (head_bytes_cons (lower_line l)).
    rewrite <- !app_assoc in *. cbn [app] in *.
    inversion Hcr as [|? ? Hl Hcr']; subst. inversion Hne as [|? ? Hl2 Hne']; subst.
    rewrite getHeaders_loop_step by done.
    cbv zeta. cbn [hd tl]. rewrite !Z.eqb_refl.
    assert (hd 0 (head_bytes (l2 :: ls) ++ post) ≠ 13) as Hhd.
    { rewrite head_bytes_cons, <- app_assoc. apply hd_nonempty_no_cr; [done|].
      by inversion Hcr'. }
    destruct (Z.eqb_spec (hd 0 (head_bytes (l2 :: ls) ++ post)) 13); [done|].
    rewrite alter_at.
    replace (S (length done)) with (length (done ++ [line_header (zlen pre) l]))
      by (rewrite length_app; cbn; lia).
    replace (zlen pre + zlen l + 2) with (zlen (pre ++ lower_line l ++ [13; 10]))
      by (rewrite !zlen_app, zlen_lower_line, !zlen_cons, zlen_nil; lia).
    replace (pre ++ lower_line l ++ 13 :: 10 :: head_bytes (l2 :: ls) ++ post)
      with ((pre ++ lower_line l ++ [13; 10]) ++ head_bytes (l2 :: ls) ++ post)
      by (rewrite <- !app_assoc; done).
    replace (done ++ line_header (zlen pre) l :: todo)
      with ((done ++ [line_header (zlen pre) l]) ++ todo)
      by (by rewrite <- app_assoc).
    rewrite IH.
    + assert (zlen (pre ++ lower_line l ++ [13; 10]) = zlen pre + zlen l + 2) as ->
        by (rewrite !zlen_app, zlen_lower_line, !zlen_cons, zlen_nil; lia).
      rewrite <- !app_assoc. cbn [app line_headers fill map].
      rewrite (zlen_app l), !zlen_cons.
      do 3 f_equal. lia.
    + rewrite <- !app_assoc. cbn [app]. by apply bytes_ok_lower_mid.
    + done.
    + done.
    + cbn in Hn. cbn. lia.
    + cbn in Htodo. cbn. lia.
Qed.

(** Complete lines, then a line whose CR is not followed by LF: the result
    is 0.  The CR may be the sentinel, so that this covers the heads that
    are cut short by the end of the window. *)
Lemma getHeaders_loop_malformed ls : ∀ l n pre x post start hs h,
  bytes_ok (pre ++ lines_bytes ls ++ l ++ 13 :: x :: post) →
  Forall no_cr ls → Forall (λ l, l ≠ []) (tail ls) → no_cr l → x ≠ 10 →
  ∃ mem' hs',
    getHeaders_loop n (pre ++ lines_bytes ls ++ l ++ 13 :: x :: post) start (zlen pre) hs h
    = Some (mem', hs', 0).
Proof.
  induction ls as [|l1 ls IH]; intros l n pre x post start hs h Hok Hcr Hne Hl Hx.
  - cbn [lines_bytes app] in *. destruct n as [|n]; [by eexists _, _|].
    rewrite getHeaders_loop_step by done. cbv zeta. cbn [hd].
    destruct (Z.eqb_spec x 10); [done|]. by eexists _, _.
  - cbn [lines_bytes] in *. rewrite <- !app_assoc in *. cbn [app] in *.
    destruct n as [|n]; [by eexists _, _|].
    inversion Hcr as [|? ? Hl1 Hcr']; subst.
    rewrite getHeaders_loop_step by done. cbv zeta. cbn [hd tl]. rewrite Z.eqb_refl.
    destruct (Z.eqb_spec (hd 0 (lines_bytes ls ++ l ++ 13 :: x :: post)) 13) as [E|E].
    + destruct ls as [|l2 ls].
      * cbn [lines_bytes app] in *. destruct l as [|c l].
        -- cbn [app tl hd]. destruct (Z.eqb_spec x 10); [done|]. by eexists _, _.
        -- cbn in E. inversion Hl. done.
      * exfalso. cbn [lines_bytes] in E. rewrite <- app_assoc in E. revert E.
        cbn [tail] in Hne. inversion Hne; subst. inversion Hcr'; subst.
        by apply hd_nonempty_no_cr.
    + replace (zlen pre + zlen l1 + 2) with (zlen (pre ++ lower_line l1 ++ [13; 10]))
        by (rewrite !zlen_app, zlen_lower_line, !zlen_cons, zlen_nil; lia).
      replace (pre ++ lower_line l1 ++ 13 :: 10 :: lines_bytes ls ++ l ++ 13 :: x :: post)
        with ((pre ++ lower_line l1 ++ [13; 10]) ++ lines_bytes ls ++ l ++ 13 :: x :: post)
        by (rewrite <- !app_assoc; done).
      apply IH; [|done| |done|done].
      * rewrite <- !app_assoc. cbn [app]. by apply bytes_ok_lower_mid.
      * cbn [tail] in Hne. destruct ls; [constructor|]. by inversion Hne.
Qed.

(** As many lines as the loop has iterations, and another one behind
    them: the result is 0. *)
Lemma getHeaders_loop_too_many ls : ∀ pre post start hs h,
  bytes_ok (pre ++ lines_bytes ls ++ post) →
  Forall no_cr ls → Forall (λ l, l ≠ []) (tail ls) → hd 0 post ≠ 13 →
  ∃ mem' hs',
    getHeaders_loop (length ls) (pre ++ lines_bytes ls ++ post) start (zlen pre) hs h
    = Some (mem', hs', 0).
Proof.
  induction ls as [|l1 ls IH]; intros pre post start hs h Hok Hcr Hne Hpost.
  - by eexists _, _.
  - cbn [lines_bytes length] in *. rewrite <- !app_assoc in *. cbn [app] in *.
    inversion Hcr as [|? ? Hl1 Hcr']; subst.
    rewrite getHeaders_loop_step by done. cbv zeta. cbn [hd tl]. rewrite Z.eqb_refl.
    assert (hd 0 (lines_bytes ls ++ post) ≠ 13) as Hhd.
    { destruct ls as [|l2 ls]; [done|]. cbn [lines_bytes]. rewrite <- app_assoc.
      cbn [tail] in Hne. inversion Hne; subst. inversion Hcr'; subst.
      by apply hd_nonempty_no_cr. }
    destruct (Z.eqb_spec (hd 0 (lines_bytes ls ++ post)) 13); [done|].
    replace (zlen pre + zlen l1 + 2) with (zlen (pre ++ lower_line l1 ++ [13; 10]))
      by (rewrite !zlen_app, zlen_lower_line, !zlen_cons, zlen_nil; lia).
    replace (pre ++ lower_line l1 ++ 13 :: 10 :: lines_bytes ls ++ post)
      with ((pre ++ lower_line l1 ++ [13; 10]) ++ lines_bytes ls ++ post)
      by (rewrite <- !app_assoc; done).
    apply IH; [|done| |done].
    + rewrite <- !app_assoc. cbn [app]. by apply bytes_ok_lower_mid.
    + cbn [tail] in Hne. destruct ls; [constructor|]. by inversion Hne.
Qed.

(** ** Any fenced buffer *)

Lemma split_first_cr (s : list Z) : ∀ i,
  0 ≤ i → rd s i = 13 → ∃ l post, s = l ++ 13 :: post ∧ no_cr l ∧ zlen l ≤ i.
Proof.
  induction s as [|c s IH]; intros i Hi Hrd.
  - by rewrite rd_nil in Hrd.
  - destruct (decide (c = 13)) as [->|Hc].
    + exists [], s. split; [done|]. split; [constructor|]. rewrite zlen_nil. lia.
    + assert (0 < i).
      { destruct (decide (i = 0)) as [->|]; [|lia]. by rewrite rd_cons_0 in Hrd. }
      rewrite rd_cons_S in Hrd by done.
      destruct (IH (i - 1) ltac:(lia) Hrd) as (l & post & -> & Hl & Hlen).
      exists (c :: l), post. split; [done|]. split; [by constructor|].
      rewrite zlen_cons. lia.
Qed.

Lemma split_at_cr mem p F :
  0 ≤ p ≤ F → rd mem F = 13 →
  ∃ pre l post, mem = pre ++ l ++ 13 :: post ∧ zlen pre = p ∧ no_cr l ∧ p + zlen l ≤ F.
Proof.
  intros Hp HF.
  assert (F < zlen mem).
  { destruct (Z.lt_ge_cases F (zlen mem)); [done|]. rewrite rd_outside in HF; lia. }
  assert (zlen (take (Z.to_nat p) mem) = p) as Hpre.
  { unfold zlen in *. rewrite length_take. lia. }
  destruct (split_first_cr (drop (Z.to_nat p) mem) (F - p) ltac:(lia))
    as (l & post & Hs & Hl & Hlen).
  { rewrite <- HF. rewrite <- (take_drop (Z.to_nat p) mem) at 2.
    rewrite rd_app_r by lia. by rewrite Hpre. }
  exists (take (Z.to_nat p) mem), l, post.
  rewrite <- Hs, take_drop. repeat split; [done|done|lia].
Qed.

Lemma rd_lower_line_frame pre l post i :
  zlen pre + zlen l ≤ i →
  rd (pre ++ lower_line l ++ post) i = rd (pre ++ l ++ post) i.
Proof.
  intros Hi. rewrite !(app_assoc pre), !rd_app_r
    by (rewrite zlen_app, ?zlen_lower_line; lia).
  by rewrite !zlen_app, zlen_lower_line.
Qed.

Lemma kind_lower c : 0 ≤ c < 256 → is_key_byte c = true → kind (Z.lor c 32) = kind c.
Proof.
  intros Hc Hk.
  pose proof (byte_cases (λ c, negb (is_key_byte c) || (kind (Z.lor c 32) =? kind c))
                ltac:(by vm_compute) c Hc) as Hcase.
  cbn beta in Hcase. rewrite Hk in Hcase. cbn in Hcase. lia.
Qed.

Lemma pattern_app l1 l2 : pattern (l1 ++ l2) = pattern l1 ++ pattern l2.
Proof. apply map_app. Qed.

Lemma pattern_lower_line l : bytes_ok l → pattern (lower_line l) = pattern l.
Proof.
  intros Hl. rewrite <- (key_split l) at 2. unfold lower_line. rewrite !pattern_app.
  f_equal. unfold pattern, lower. rewrite map_map. apply map_ext_Forall.
  rewrite <- (key_split l) in Hl. apply bytes_ok_app in Hl as [Hk _].
  pose proof (key_of_bytes' l) as Hkb.
  induction Hk as [|c k Hc Hk IH]; [constructor|].
  inversion Hkb; subst. constructor; [by apply kind_lower|by apply IH].
Qed.

Lemma pattern_lower_mid pre l post :
  bytes_ok (pre ++ l ++ post) → pattern (pre ++ lower_line l ++ post) = pattern (pre ++ l ++ post).
Proof.
  intros (? & [? ?]%bytes_ok_app)%bytes_ok_app.
  rewrite !pattern_app. by rewrite pattern_lower_line.
Qed.

Lemma pattern_length l1 l2 : pattern l1 = pattern l2 → length l1 = length l2.
Proof.
  intros Hp. apply (f_equal length) in Hp. unfold pattern in Hp.
  by rewrite !List.length_map in Hp.
Qed.

Lemma pattern_rd l1 l2 i : pattern l1 = pattern l2 → kind (rd l1 i) = kind (rd l2 i).
Proof.
  intros Hp. unfold rd.
  pose proof (map_nth kind l1 0 (Z.to_nat i)) as H1.
  pose proof (map_nth kind l2 0 (Z.to_nat i)) as H2.
  fold (pattern l1) in H1. fold (pattern l2) in H2. by rewrite <- H1, <- H2, Hp.
Qed.

Lemma hd_cons_eq (post : list Z) c : c ≠ 0 → hd 0 post = c → ∃ post', post = c :: post'.
Proof. destruct post as [|d post]; cbn; [congruence|]. intros _ ->. by eexists. Qed.

Lemma first_cr_unique (l l0 a b : list Z) :
  no_cr l → no_cr l0 → l ++ 13 :: a = l0 ++ 13 :: b → l = l0 ∧ a = b.
Proof.
  revert l0. induction l as [|c l IH]; intros [|c0 l0] Hl Hl0 Heq; cbn in Heq.
  - by inversion Heq.
  - inversion Heq; subst. by inversion Hl0.
  - inversion Heq; subst. by inversion Hl.
  - inversion Heq; subst. inversion Hl; inversion Hl0; subst.
    destruct (IH l0) as [-> ->]; done.
Qed.

(** The bytes behind the first line of a head. *)
Lemma head_tail_cases (ls : list (list Z)) (post : list Z) :
  Forall no_cr ls → Forall (λ l, l ≠ []) ls →
  (ls = [] ∧ head_bytes ls ++ post = 13 :: 10 :: post)
  ∨ (ls ≠ [] ∧ hd 0 (head_bytes ls ++ post) ≠ 13).
Proof.
  intros Hcr Hne. destruct ls as [|[|c l] ls]; [by left| |right].
  - by inversion Hne.
  - split; [done|]. rewrite head_bytes_cons. cbn.
    inversion Hcr as [|?? Hc]; subst. by inversion Hc.
Qed.

Lemma head_at_line (pre l post : list Z) lines post0 :
  no_cr l → lines ≠ [] → valid_lines lines →
  pre ++ l ++ 13 :: post = pre ++ head_bytes lines ++ post0 →
  ∃ ls, lines = l :: ls ∧ post = 10 :: head_bytes ls ++ post0
        ∧ Forall no_cr ls ∧ Forall (λ l, l ≠ []) ls.
Proof.
  intros Hl Hne [Hcr Hnonempty] Heq. destruct lines as [|l0 ls]; [done|].
  apply app_inv_head in Heq. rewrite head_bytes_cons, <- app_assoc in Heq.
  cbn [app] in Heq. inversion Hcr; subst.
  destruct (first_cr_unique l l0 _ _ Hl ltac:(done) Heq) as [-> ->].
  by exists ls.
Qed.

(** On a fenced buffer [getHeaders] is total and consumes at most the bytes
    before the fence; it changes no byte into or from a CR or an LF, and
    none behind the fence; and a result other than 0 is the length of a
    complete head at the start. *)
Lemma getHeaders_loop_fenced n : ∀ mem start p hs h F,
  bytes_ok mem → 0 ≤ p ≤ F → rd mem F = 13 → rd mem (F + 1) ≠ 10 →
  ∃ mem' hs' k,
    getHeaders_loop n mem start p hs h = Some (mem', hs', k)
    ∧ bytes_ok mem' ∧ pattern mem' = pattern mem
    ∧ (∀ i, F ≤ i → rd mem' i = rd mem i)
    ∧ ((k = 0
        ∧ ∀ lines post, lines ≠ [] → valid_lines lines → (length lines ≤ n)%nat →
            mem ≠ take (Z.to_nat p) mem ++ head_bytes lines ++ post)
       ∨ ∃ lines post,
           mem = take (Z.to_nat p) mem ++ head_bytes lines ++ post
           ∧ lines ≠ [] ∧ valid_lines lines ∧ (length lines ≤ n)%nat
           ∧ k = u32 (p + zlen (head_bytes lines) - start)
           ∧ p + zlen (head_bytes lines) ≤ F).
Proof.
  induction n as [|n IH]; intros mem start p hs h F Hok Hp HF HF1.
  - exists mem, hs, 0. cbn. repeat split; [done|]. left. split; [done|].
    intros [|? ?] ? ? ? Hlen; [done|cbn in Hlen; lia].
  - destruct (split_at_cr mem p F Hp HF) as (pre & l & post & -> & <- & Hl & Hc).
    rewrite getHeaders_loop_step by done. cbv zeta.
    set (mem1 := pre ++ lower_line l ++ 13 :: post).
    assert (bytes_ok mem1) as Hok1 by by apply bytes_ok_lower_mid.
    assert (pattern mem1 = pattern (pre ++ l ++ 13 :: post)) as Hpat1
      by by apply pattern_lower_mid.
    assert (∀ i, zlen pre + zlen l ≤ i → rd mem1 i = rd (pre ++ l ++ 13 :: post) i)
      as Hframe by (intros; by apply rd_lower_line_frame).
    assert (∀ i, 0 ≤ i →
      rd (pre ++ l ++ 13 :: post) (zlen pre + zlen l + 1 + i) = rd post i) as Hrd.
    { intros i Hi. rewrite (app_assoc pre), rd_app_r; rewrite zlen_app; [|lia].
      rewrite rd_cons_S by lia. f_equal. lia. }
    assert (∀ q : list Z, rd q 0 = hd 0 q) as Hhd by (by intros []).
    assert (∀ q : list Z, rd q 1 = hd 0 (tl q)) as Hhd1.
    { intros [|? q]; [done|]. rewrite rd_cons_S by lia. apply Hhd. }
    assert (∀ q : list Z, rd q 2 = hd 0 (tl (tl q))) as Hhd2.
    { intros [|? q]; [done|]. rewrite rd_cons_S by lia. apply Hhd1. }
    pose proof (zlen_nonneg l) as Hl0.
    assert (take (Z.to_nat (zlen pre)) (pre ++ l ++ 13 :: post) = pre) as Htake.
    { unfold zlen. rewrite Nat2Z.id. apply take_app_length. }
    destruct (Z.eqb_spec (hd 0 post) 10) as [E0|E0]; cycle 1.
    { exists mem1. eexists _, 0. repeat split; [done|done|intros; apply Hframe; lia|].
      left. split; [done|]. intros lines post0 Hne Hv _. rewrite Htake. intros Heq.
      apply head_at_line in Heq as (ls & _ & -> & _); done. }
    pose proof E0 as E0'. rewrite <- Hhd, <- Hrd in E0 by lia.
    assert (zlen pre + zlen l + 2 ≤ F) as HcF.
    { destruct (decide (zlen pre + zlen l = F)) as [Heq|];
        [rewrite Z.add_0_r, Heq in E0; done|].
      destruct (decide (zlen pre + zlen l + 1 = F)) as [Heq|]; [|lia].
      rewrite Z.add_0_r, Heq, HF in E0. done. }
    destruct (hd_cons_eq post 10 ltac:(done) E0') as (post1 & ->). cbn [tl hd].
    destruct (Z.eqb_spec (hd 0 post1) 13) as [E1|E1].
    + destruct (Z.eqb_spec (hd 0 (tl post1)) 10) as [E2|E2]; cycle 1.
      { exists mem1. eexists _, 0. repeat split; [done|done|intros; apply Hframe; lia|].
        left. split; [done|]. intros lines post0 Hne Hv _. rewrite Htake. intros Heq.
        apply head_at_line in Heq as (ls & _ & Hpost & Hcr & Hnonempty); [|done..].
        inversion Hpost; subst post1.
        destruct (head_tail_cases ls post0 Hcr Hnonempty) as [[_ Hls]|[_ Hls]];
          [rewrite Hls in E2|]; done. }
      destruct (hd_cons_eq post1 13 ltac:(done) E1) as (post2 & ->). cbn [tl] in E2.
      destruct (hd_cons_eq post2 10 ltac:(done) E2) as (post3 & ->).
      assert (zlen pre + zlen l + 4 ≤ F).
      { pose proof (Hrd 2 ltac:(lia)) as H2.
        change (rd (10 :: 13 :: 10 :: post3) 2) with 10 in H2.
        destruct (decide (zlen pre + zlen l + 2 = F)) as [Heq|].
        { replace (zlen pre + zlen l + 1 + 2) with (F + 1) in H2 by lia. done. }
        destruct (decide (zlen pre + zlen l + 3 = F)) as [Heq|]; [|lia].
        replace (zlen pre + zlen l + 1 + 2) with F in H2 by lia. rewrite HF in H2. done. }
      exists mem1. eexists _, _. repeat split; [done|done|intros; apply Hframe; lia|].
      right. exists [l], post3. rewrite Htake.
      split; [by rewrite head_bytes_cons, <- !app_assoc|].
      split; [done|]. split; [by split; repeat constructor|]. split; [cbn; lia|].
      rewrite head_bytes_cons, zlen_app, !zlen_cons. unfold head_bytes. cbn [lines_bytes app].
      rewrite !zlen_cons, zlen_nil. split; [f_equal; lia|lia].
    + destruct (IH mem1 start (zlen pre + zlen l + 2)
                  (alter (λ _, line_header (zlen pre) l) h hs) (S h) F Hok1 ltac:(lia))
        as (mem' & hs' & k & Hrun & Hok' & Hpat' & Hframe' & Hk).
      { rewrite Hframe by lia. done. }
      { rewrite Hframe by lia. done. }
      exists mem', hs', k. split; [done|]. split; [done|]. split; [congruence|].
      split.
      * intros i Hi. rewrite Hframe' by done. apply Hframe. lia.
      * assert (take (Z.to_nat (zlen pre + zlen l + 2)) mem1 = pre ++ lower_line l ++ [13; 10])
          as Htake1.
        { unfold mem1. replace (pre ++ lower_line l ++ 13 :: 10 :: post1)
            with ((pre ++ lower_line l ++ [13; 10]) ++ post1)
            by (by rewrite <- !app_assoc).
          apply take_app_length'. rewrite !length_app. cbn [length].
          pose proof (zlen_lower_line l) as Hz. unfold zlen in *. lia. }
        destruct Hk as [[-> Hnone]|(lines & post' & Hmem & Hne & [Hcr Hnonempty] & Hn & -> & He)].
        { left. split; [done|]. intros lines post0 Hne Hv Hlen. rewrite Htake. intros Heq.
          apply head_at_line in Heq as (ls & -> & Hpost & Hcr & Hnonempty); [|done..].
          inversion Hpost; subst post1.
          destruct (head_tail_cases ls post0 Hcr Hnonempty) as [[_ Hls]|[Hls _]];
            [rewrite Hls in E1; done|].
          apply (Hnone ls post0); [done| |cbn in Hlen; lia|].
          - split; [done|]. destruct Hnonempty; [constructor|done].
          - rewrite Htake1. unfold mem1. by rewrite <- !app_assoc. }
        right.
        rewrite Htake1 in Hmem. unfold mem1 in Hmem.
        replace (pre ++ lower_line l ++ 13 :: 10 :: post1)
          with ((pre ++ lower_line l ++ [13; 10]) ++ post1) in Hmem
          by (by rewrite <- !app_assoc).
        apply app_inv_head in Hmem. subst post1.
        exists (l :: lines), post'. rewrite Htake.
        split; [by rewrite head_bytes_cons, <- !app_assoc|].
        split; [done|]. split.
        { split; [by constructor|]. cbn [tail].
          destruct lines as [|l' ls']; [done|]. constructor; [|done].
          intros ->. rewrite head_bytes_cons in E1. cbn in E1. done. }
        split; [cbn; lia|].
        rewrite (head_bytes_cons l), zlen_app, !zlen_cons.
        split; [f_equal; lia|lia].
Qed.

(** ** Heads and the pattern of CR and LF *)

Lemma kind_cr c : kind c = 1 → c = 13.
Proof. unfold kind. repeat case_match; lia. Qed.

Lemma kind_lf c : kind c = 2 → c = 10.
Proof. unfold kind. repeat case_match; lia. Qed.

Lemma pattern_no_cr l l0 : pattern l0 = pattern l → no_cr l → no_cr l0.
Proof.
  revert l0. induction l as [|c l IH]; intros [|c0 l0] Hp Hl; try done; try by constructor.
  inversion Hp as [[Hk Hp']]. inversion Hl as [|?? Hc Hl']; subst.
  constructor; [|by apply IH].
  intros ->. apply Hc, kind_cr. by rewrite <- Hk.
Qed.

Lemma pattern_crlf w rest :
  pattern w = pattern (13 :: 10 :: rest) → ∃ w', w = 13 :: 10 :: w' ∧ pattern w' = pattern rest.
Proof.
  destruct w as [|c1 [|c2 w']]; try done. intros Hp. inversion Hp as [[H1 H2 Hp']].
  apply kind_cr in H1 as ->. apply kind_lf in H2 as ->. by exists w'.
Qed.

(** Whether a window begins with a complete head is a matter of its
    pattern alone. *)
Lemma head_pattern lines : ∀ rest w,
  pattern w = pattern (head_bytes lines ++ rest) → Forall no_cr lines →
  ∃ lines0 rest0,
    w = head_bytes lines0 ++ rest0 ∧ Forall no_cr lines0
    ∧ Forall2 (λ l0 l, length l0 = length l) lines0 lines.
Proof.
  induction lines as [|l ls IH]; intros rest w Hp Hcr.
  - apply pattern_crlf in Hp as (w' & -> & _). exists [], w'. by repeat split.
  - rewrite head_bytes_cons, <- app_assoc in Hp. cbn [app] in Hp.
    rewrite pattern_app in Hp. unfold pattern at 1 in Hp.
    apply List.map_eq_app in Hp as (l0 & w1 & -> & Hl0 & Hw1).
    apply pattern_crlf in Hw1 as (w2 & -> & Hw2).
    inversion Hcr; subst.
    destruct (IH rest w2 Hw2 ltac:(done)) as (lines0 & rest0 & -> & Hcr0 & Hlen).
    exists (l0 :: lines0), rest0. rewrite head_bytes_cons, <- app_assoc. cbn [app].
    split; [done|]. split.
    + constructor; [|done]. by apply (pattern_no_cr l).
    + constructor; [|done]. by apply pattern_length.
Qed.

Lemma nonempty_same_length (la lb : list (list Z)) :
  Forall2 (λ l0 l, length l0 = length l) la lb →
  Forall (λ l, l ≠ []) lb → Forall (λ l, l ≠ []) la.
Proof.
  induction 1 as [|a b la lb Hab H2 IH]; intros Hb; [constructor|].
  inversion Hb; subst. constructor; [|by apply IH].
  intros ->. by destruct b.
Qed.

Lemma NoHead_pattern w w' : pattern w' = pattern w → NoHead w → NoHead w'.
Proof.
  intros Hp Hno lines rest Hne [Hcr Hnonempty] Hlen ->.
  destruct (head_pattern lines rest w (eq_sym Hp) Hcr) as (lines0 & rest0 & -> & Hcr0 & H2).
  pose proof (Forall2_length _ _ _ H2) as Hlen2.
  apply (Hno lines0 rest0); [| |unfold zlen in *; lia|done].
  - intros ->. inversion H2; subst. done.
  - split; [done|]. destruct H2 as [|l0 l ls0 ls Hl H2]; [constructor|]. cbn [tail] in *.
    by apply (nonempty_same_length ls0 ls).
Qed.

(** A window without a CR holds no head. *)
Lemma NoHead_no_cr w : no_cr w → NoHead w.
Proof.
  intros Hw lines rest _ _ _ ->. unfold head_bytes in Hw.
  rewrite <- app_assoc in Hw. apply Forall_app in Hw as [_ Hw]. cbn in Hw.
  by inversion Hw.
Qed.

Lemma pattern_slice mem mem' p n :
  pattern mem' = pattern mem → pattern (slice mem' p n) = pattern (slice mem p n).
Proof.
  intros Hp. unfold slice, pattern in *.
  by rewrite <- !List.firstn_map, <- !List.skipn_map, Hp.
Qed.

(** ** The result of [getHeaders] *)

Lemma cut_head_decompose lines : ∀ (m : nat) x pad,
  (m < length (head_bytes lines))%nat → x ≠ 10 → Forall no_cr lines →
  ∃ (k : nat) l y post,
    take m (head_bytes lines) ++ 13 :: x :: pad
    = lines_bytes (take k lines) ++ l ++ 13 :: y :: post
    ∧ no_cr l ∧ y ≠ 10.
Proof.
  induction lines as [|l0 rest IH]; intros m x pad Hm Hx Hcr.
  - cbn in Hm. destruct m as [|[|m]]; [| |lia].
    + exists 0%nat, [], x, pad. repeat split; [constructor|done].
    + exists 0%nat, [], 13, (x :: pad). repeat split; [constructor|done].
  - rewrite head_bytes_cons in *. inversion Hcr as [|? ? Hl0 Hcr']; subst.
    destruct (Nat.le_gt_cases m (length l0)) as [Hle|Hgt].
    + exists 0%nat, (take m l0), x, pad. rewrite take_app_le by done.
      repeat split; [by apply Forall_take|done].
    + rewrite take_app_ge by lia.
      destruct (m - length l0)%nat as [|[|m']] eqn:Em; [lia| |].
      * exists 0%nat, l0, 13, (x :: pad). cbn. rewrite <- app_assoc. done.
      * destruct (IH m' x pad) as (k & l & y & post & Heq & Hl & Hy); [|done|done|].
        { rewrite length_app in Hm. cbn in Hm. lia. }
        exists (S k), l, y, post. cbn [take lines_bytes].
        rewrite <- !app_assoc. cbn [app]. rewrite Heq. done.
Qed.

Lemma tail_take {A} (k : nat) (l : list A) : tail (take k l) = take (pred k) (tail l).
Proof. destruct k, l; try done. cbn. by rewrite take_nil. Qed.

(** C5. [getHeaders] returns the number of bytes from the start of the
    head through its terminating CR LF CR LF when the buffer begins with a
    complete head of at most 49 lines (the request line and 48 header
    lines, which is what the 50 slots allow), and 0 when the head is cut
    short by the end of the window, when a CR of the head is not followed
    by LF, and when the head has more lines than that. *)
Theorem getHeaders_result (pre : list Z) (hs : list Header) :
  length hs = Z.to_nat MAX_HEADERS →
  (∀ lines post,
     lines ≠ [] → valid_lines lines → zlen lines ≤ MAX_HEADERS - 1 →
     bytes_ok (pre ++ head_bytes lines ++ post) → zlen (head_bytes lines) < 2 ^ 32 →
     ∃ mem' hs',
       getHeaders (pre ++ head_bytes lines ++ post) (zlen pre) hs
       = Some (mem', hs', zlen (head_bytes lines)))
  ∧ (∀ lines (m : nat) x pad,
       valid_lines lines → (m < length (head_bytes lines))%nat → x ≠ 10 →
       bytes_ok (pre ++ take m (head_bytes lines) ++ 13 :: x :: pad) →
       ∃ mem' hs',
         getHeaders (pre ++ take m (head_bytes lines) ++ 13 :: x :: pad) (zlen pre) hs
         = Some (mem', hs', 0))
  ∧ (∀ lines l x post,
       valid_lines lines → no_cr l → x ≠ 10 →
       bytes_ok (pre ++ lines_bytes lines ++ l ++ 13 :: x :: post) →
       ∃ mem' hs',
         getHeaders (pre ++ lines_bytes lines ++ l ++ 13 :: x :: post) (zlen pre) hs
         = Some (mem', hs', 0))
  ∧ (∀ lines post,
       valid_lines lines → zlen lines = MAX_HEADERS - 1 → hd 0 post ≠ 13 →
       bytes_ok (pre ++ lines_bytes lines ++ post) →
       ∃ mem' hs',
         getHeaders (pre ++ lines_bytes lines ++ post) (zlen pre) hs = Some (mem', hs', 0)).
Proof.
  intros Hhs. unfold getHeaders, MAX_HEADERS in *. repeat split.
  - intros lines post Hne [Hcr Hnonempty] Hn Hok Hlen.
    destruct lines as [|l ls]; [done|]. unfold zlen in Hn. cbn [length tail] in *.
    eexists _, _.
    pose proof (getHeaders_loop_complete ls l (Z.to_nat (50 - 1)) pre post (zlen pre) [] hs)
      as Hrun.
    cbn [app length] in Hrun. rewrite Hrun by (done || lia).
    do 2 f_equal. unfold u32. rewrite Z.mod_small; [lia|].
    pose proof (zlen_nonneg (head_bytes (l :: ls))). lia.
  - intros lines m x pad [Hcr Hnonempty] Hm Hx Hok.
    destruct (cut_head_decompose lines m x pad Hm Hx Hcr) as (k & l & y & post & Heq & Hl & Hy).
    rewrite Heq in *.
    apply getHeaders_loop_malformed; [done| | |done|done].
    + by apply Forall_take.
    + rewrite tail_take. by apply Forall_take.
  - intros lines l x post [Hcr Hnonempty] Hl Hx Hok.
    by apply getHeaders_loop_malformed.
  - intros lines post [Hcr Hnonempty] Hn Hpost Hok.
    replace (Z.to_nat (50 - 1)) with (length lines) by (unfold zlen in Hn; lia).
    by apply getHeaders_loop_too_many.
Qed.

(** C5, observed on a head of two lines, on one cut short, on one with a
    CR that no LF follows, and on one of 50 lines. *)
Lemma getHeaders_result_witness :
  (∃ mem' hs',
     getHeaders ([] ++ head_bytes [bytes "GET / HTTP/1.1"; bytes "Host: x"] ++ [13; 97])
                (zlen (@nil Z)) (replicate 50 (MkHeader sv_null sv_null))
     = Some (mem', hs', 27))
  ∧ (∃ mem' hs',
       getHeaders ([] ++ take 20 (head_bytes [bytes "GET / HTTP/1.1"; bytes "Host: x"])
                      ++ 13 :: 97 :: [])
                  (zlen (@nil Z)) (replicate 50 (MkHeader sv_null sv_null))
       = Some (mem', hs', 0))
  ∧ (∃ mem' hs',
       getHeaders ([] ++ lines_bytes [bytes "GET / HTTP/1.1"] ++ bytes "Bad"
                      ++ 13 :: 76 :: bytes "ine")
                  (zlen (@nil Z)) (replicate 50 (MkHeader sv_null sv_null))
       = Some (mem', hs', 0))
  ∧ (∃ mem' hs',
       getHeaders ([] ++ lines_bytes (replicate 49 (bytes "a: b")) ++ bytes "c: d")
                  (zlen (@nil Z)) (replicate 50 (MkHeader sv_null sv_null))
       = Some (mem', hs', 0)).
Proof.
  pose proof (getHeaders_result [] (replicate 50 (MkHeader sv_null sv_null)) eq_refl)
    as (H1 & H2 & H3 & H4).
  assert (∀ l : list Z, forallb (λ c, bool_decide (0 ≤ c < 256)) l = true → bytes_ok l)
    as Hbytes.
  { intros l Hl. apply Forall_forall. intros c Hc. rewrite forallb_forall in Hl.
    apply list_elem_of_In, Hl, bool_decide_eq_true in Hc. done. }
  assert (∀ l : list Z, forallb (λ c, negb (c =? 13)) l = true → no_cr l) as Hnocr.
  { intros l Hl. apply Forall_forall. intros c Hc. rewrite forallb_forall in Hl.
    apply list_elem_of_In, Hl in Hc. lia. }
  assert (∀ ls : list (list Z),
            forallb (λ l, forallb (λ c, negb (c =? 13)) l) ls = true
            → forallb (λ l : list Z, negb (bool_decide (l = []))) (tail ls) = true
            → valid_lines ls) as Hvalid.
  { intros ls H5 H6. split; apply Forall_forall; intros l Hl.
    - apply Hnocr. rewrite forallb_forall in H5. by apply H5, list_elem_of_In.
    - rewrite forallb_forall in H6. apply list_elem_of_In, H6 in Hl.
      apply negb_true_iff, bool_decide_eq_false in Hl. done. }
  split; [|split; [|split]].
  - apply H1; [done|by apply Hvalid|by vm_compute|by apply Hbytes|by vm_compute].
  - apply H2; [by apply Hvalid|vm_compute; lia|done|by apply Hbytes].
  - apply H3; [by apply Hvalid|by apply Hnocr|done|by apply Hbytes].
  - apply H4; [by apply Hvalid|done|done|by apply Hbytes].
Defined.

(** ** The request view of a decoded head *)

Lemma line_header_key_bytes pre l post :
  sv_bytes (pre ++ lower_line l ++ post) (key (line_header (zlen pre) l)) = lower (key_of l).
Proof.
  unfold sv_bytes, line_header, lower_line. cbn [key sv_data sv_len].
  rewrite <- (zlen_lower (key_of l)), <- app_assoc. apply slice_at.
Qed.

Lemma line_header_value_bytes pre l post :
  sv_bytes (pre ++ lower_line l ++ post) (value (line_header (zlen pre) l)) = value_of l.
Proof.
  unfold sv_bytes, line_header, lower_line, value_of. cbn [value sv_data sv_len].
  destruct (after_separator_suffix (after_key l)) as (s & Hs & _).
  pose proof (zlen_key_split l) as Hks. rewrite Hs, zlen_app in Hks.
  rewrite Hs at 1. rewrite <- !app_assoc, !(app_assoc pre), (app_assoc (pre ++ _)).
  replace (zlen pre + zlen l - zlen (after_separator (after_key l)))
    with (zlen ((pre ++ lower (key_of l)) ++ s))
    by (rewrite !zlen_app, zlen_lower; lia).
  apply slice_at.
Qed.

Lemma key_of_bytes l : Forall (λ c, is_key_byte c = true) (key_of l).
Proof. apply key_of_bytes'. Qed.

Lemma lower_key_nonzero l : Forall (λ c, c ≠ 0) (lower (key_of l)).
Proof.
  apply Forall_map. eapply Forall_impl; [apply key_of_bytes|].
  intros c Hc. cbn. unfold is_key_byte in Hc. rewrite Z.lor_eq_0_iff. lia.
Qed.

Lemma fill_app vs : ∀ todo,
  (length vs < length todo)%nat → ∃ t tl, fill vs todo = vs ++ set_key sv_null t :: tl.
Proof.
  induction vs as [|v vs IH]; intros [|t todo] Hlen; cbn in Hlen; try lia.
  - by exists t, todo.
  - cbn [fill]. destruct (IH todo ltac:(lia)) as (t' & tl' & ->). by exists t', tl'.
Qed.

Lemma length_line_headers o ls : length (line_headers o ls) = length ls.
Proof. revert o. induction ls as [|l ls IH]; intros o; cbn; [done|]. by rewrite IH. Qed.

Section View.

Context `{BloomFilterOps} `{!BloomFilterSound}.

Lemma strncmp_eq_spec k : ∀ rest name,
  length k = length name → Forall (λ c, c ≠ 0) k →
  strncmp_eq (k ++ rest) name (length name) = bool_decide (k = name).
Proof.
  induction k as [|c k IH]; intros rest [|d name] Hlen Hnz; cbn in Hlen; try lia.
  - done.
  - inversion Hnz; subst. cbn [strncmp_eq app hd tl length].
    destruct (Z.eqb_spec c d) as [->|Hne].
    + destruct (Z.eqb_spec d 0); [done|]. rewrite IH by (done || lia).
      apply bool_decide_ext. split; [congruence|]. intros [=]. done.
    + symmetry. apply bool_decide_eq_false. congruence.
Qed.

(** The loop of [getHeader] over the slots of header lines that lie in the
    buffer one after the other. *)
Lemma getHeader_loop_lines hdrs : ∀ mem pre post t tl name,
  mem = pre ++ lines_bytes (map lower_line hdrs) ++ post →
  let found :=
    getHeader_loop mem (line_headers (zlen pre) hdrs ++ set_key sv_null t :: tl) name in
  sv_bytes mem found = lookup_header name hdrs ∧ sv_len found = zlen (lookup_header name hdrs).
Proof.
  induction hdrs as [|l ls IH]; intros mem pre post t tl name ->.
  - cbn. unfold sv_bytes, slice. done.
  - cbn [line_headers app getHeader_loop lookup_header map lines_bytes].
    cbn [line_header key value sv_len sv_data].
    assert ((zlen (key_of l) =? 0) = bool_decide (key_of l = [])) as ->.
    { destruct (key_of l); [done|]. rewrite zlen_cons.
      pose proof (zlen_nonneg l0). symmetry. rewrite bool_decide_eq_false_2 by done. lia. }
    destruct (bool_decide (key_of l = [])); [done|].
    cbv zeta.
    assert (drop (Z.to_nat (zlen pre))
              (pre ++ (lower_line l ++ 13 :: 10 :: lines_bytes (map lower_line ls)) ++ post)
            = lower (key_of l) ++ after_key l
              ++ (13 :: 10 :: lines_bytes (map lower_line ls)) ++ post) as ->.
    { unfold zlen. rewrite Nat2Z.id, drop_app_length. unfold lower_line.
      by rewrite <- !app_assoc. }
    assert ((zlen (key_of l) =? zlen name)
            && strncmp_eq (lower (key_of l) ++ after_key l
                             ++ (13 :: 10 :: lines_bytes (map lower_line ls)) ++ post)
                          name (length name)
            = bool_decide (lower (key_of l) = name)) as ->.
    { destruct (Z.eqb_spec (zlen (key_of l)) (zlen name)) as [Hl|Hl].
      - unfold zlen in Hl. rewrite strncmp_eq_spec; [done| |apply lower_key_nonzero].
        unfold lower. rewrite length_map. lia.
      - symmetry. apply bool_decide_eq_false. intros <-. by rewrite zlen_lower in Hl. }
    destruct (bool_decide (lower (key_of l) = name)).
    + rewrite <- !app_assoc. cbn [app]. split; [|done].
      apply (line_header_value_bytes pre l).
    + replace (zlen pre + zlen l + 2) with (zlen (pre ++ lower_line l ++ [13; 10]))
        by (rewrite !zlen_app, zlen_lower_line, !zlen_cons, zlen_nil; lia).
      apply (IH _ _ post). rewrite <- !app_assoc. done.
Qed.

Lemma addKeys_mono mem slots : ∀ b name,
  bf_mightHave b name = true → bf_mightHave (addKeys mem slots b) name = true.
Proof.
  induction slots as [|h slots IH]; intros b name Hb; cbn; [done|].
  destruct (sv_len (key h) =? 0); [done|]. apply IH. by apply bf_add_mono.
Qed.

Lemma addKeys_lines hdrs : ∀ mem pre post t tl b name,
  mem = pre ++ lines_bytes (map lower_line hdrs) ++ post →
  has_header name hdrs = true →
  bf_mightHave (addKeys mem (line_headers (zlen pre) hdrs ++ set_key sv_null t :: tl) b) name
  = true.
Proof.
  induction hdrs as [|l ls IH]; intros mem pre post t tl b name -> Hhas; [done|].
  cbn [line_headers app addKeys has_header map lines_bytes] in *.
  cbn [line_header key sv_len] in *.
  assert ((zlen (key_of l) =? 0) = bool_decide (key_of l = [])) as ->.
  { destruct (key_of l); [done|]. rewrite zlen_cons.
    pose proof (zlen_nonneg l0). symmetry. rewrite bool_decide_eq_false_2 by done. lia. }
  destruct (bool_decide (key_of l = [])); [done|].
  fold (line_header (zlen pre) l).
  rewrite <- !app_assoc. rewrite line_header_key_bytes.
  destruct (bool_decide (lower (key_of l) = name)) eqn:E.
  - apply bool_decide_eq_true in E as <-. apply addKeys_mono, bf_add_mightHave.
  - replace (zlen pre + zlen l + 2) with (zlen (pre ++ lower_line l ++ [13; 10]))
      by (rewrite !zlen_app, zlen_lower_line, !zlen_cons, zlen_nil; lia).
    apply (IH _ _ post); [|done]. rewrite <- !app_assoc. done.
Qed.

Lemma lookup_header_absent name hdrs : has_header name hdrs = false → lookup_header name hdrs = [].
Proof.
  induction hdrs as [|l ls IH]; [done|]. cbn.
  destruct (bool_decide (key_of l = [])); [done|].
  by destruct (bool_decide (lower (key_of l) = name)).
Qed.

End View.

(** ** One iteration of the loop on a complete head *)

Section Step.

Context `{BloomFilterOps} `{ChunkedEncoding}.
Variable char_is_signed : bool.
Context {A : Type} (handlers : Handlers A).

Lemma zlen_head_bytes_pos lines : 2 ≤ zlen (head_bytes lines).
Proof.
  unfold head_bytes. rewrite zlen_app, !zlen_cons, zlen_nil.
  pose proof (zlen_nonneg (lines_bytes lines)). lia.
Qed.

Lemma u32_small x : 0 ≤ x < 2 ^ 32 → u32 x = x.
Proof. intros. by apply Z.mod_small. Qed.

Lemma finishRequest_slots mem hs hs0 an qs (r : HttpRequest) :
  finishRequest mem hs (MkRequest hs0 an qs (didYield r) (bf r) (currentParameters r))
  = finishRequest mem hs r.
Proof. done. Qed.

Lemma step_head CONSUME_MINIMALLY user c pre lines post :
  HeadAt c pre lines post →
  fenceAndConsume_step char_is_signed handlers CONSUME_MINIMALLY user c =
    let '(w, returnedUser) :=
      callRequest handlers (c_world c) user (head_mem' pre lines post)
                  (head_request c pre lines post) in
    let c1 := head_cursor c pre lines post w in
    if negb (returnedUser =? user) then Some (Leave c1 returnedUser)
    else if CONSUME_MINIMALLY
         then Some (Leave (frameBody char_is_signed handlers CONSUME_MINIMALLY user c1) user)
         else Some (Again (frameBody char_is_signed handlers CONSUME_MINIMALLY user c1)).
Proof.
  intros [Hmem Hdata (Hne & [Hcr Hnonempty] & Hn) Hok Hslots Hlen].
  pose proof (zlen_head_bytes_pos lines) as Hpos.
  unfold fenceAndConsume_step.
  destruct (Z.eqb_spec (c_length c) 0); [lia|].
  destruct lines as [|l ls]; [done|].
  unfold getHeaders. rewrite Hmem, Hdata.
  pose proof (getHeaders_loop_complete ls l (Z.to_nat (MAX_HEADERS - 1)) pre post (zlen pre)
                [] (headers (c_req c))) as Hrun.
  cbn [app length] in Hrun. rewrite Hrun; clear Hrun.
  - cbn [mbind option_bind].
    replace (zlen pre + zlen (head_bytes (l :: ls)) - zlen pre)
      with (zlen (head_bytes (l :: ls))) by lia.
    rewrite (u32_small (zlen _)) by lia.
    destruct (Z.eqb_spec (zlen (head_bytes (l :: ls))) 0); [lia|].
    unfold head_cursor, head_request, head_mem'. rewrite finishRequest_slots.
    rewrite (u32_small (c_length c - _)) by lia.
    rewrite Hdata. done.
  - by rewrite <- Hmem.
  - done.
  - done.
  - unfold zlen, MAX_HEADERS in *. cbn [length] in Hn. lia.
  - unfold zlen, MAX_HEADERS in *. cbn [length] in Hn. lia.
Qed.

End Step.

(** ** Slices of slices *)

Lemma slice_take mem p n m :
  0 ≤ m ≤ n → slice mem p m = take (Z.to_nat m) (slice mem p n).
Proof.
  intros Hm. unfold slice. rewrite take_take. f_equal. lia.
Qed.

Lemma slice_drop mem p n k :
  0 ≤ p → 0 ≤ k ≤ n → slice mem (p + k) (n - k) = drop (Z.to_nat k) (slice mem p n).
Proof.
  intros Hp Hk. unfold slice. rewrite !take_drop_commute, drop_drop.
  f_equal; [lia|]. f_equal. lia.
Qed.

Lemma rd_slice mem p n i :
  0 ≤ p → 0 ≤ i < zlen (slice mem p n) → rd mem (p + i) = rd (slice mem p n) i.
Proof.
  intros Hp Hi. unfold rd, slice in *. rewrite !nth_lookup.
  rewrite lookup_take_lt, lookup_drop.
  - do 2 f_equal. lia.
  - unfold zlen in Hi. rewrite length_take in Hi. lia.
Qed.

Lemma rd_last (l : list Z) : l ≠ [] → last l = Some (rd l (zlen l - 1)).
Proof.
  intros Hl. unfold rd, zlen. rewrite last_lookup, nth_lookup.
  replace (Z.to_nat (Z.of_nat (length l) - 1)) with (pred (length l)) by lia.
  destruct (l !! pred (length l)) eqn:E; [done|].
  apply lookup_ge_None in E. destruct l; [done|]. cbn in E. lia.
Qed.

Lemma memchr_spec s c :
  match memchr s c with
  | Some i => 0 ≤ i < zlen s ∧ (c ∉ take (Z.to_nat i) s)
              ∧ s = take (Z.to_nat i) s ++ c :: drop (Z.to_nat (i + 1)) s
  | None => c ∉ s
  end.
Proof.
  induction s as [|x s IH]; cbn [memchr]; [by apply not_elem_of_nil|].
  destruct (Z.eqb_spec x c) as [->|Hne].
  - rewrite zlen_cons. pose proof (zlen_nonneg s). cbn.
    split; [lia|]. split; [apply not_elem_of_nil|done].
  - destruct (memchr s c) as [i|]; cbn [fmap option_fmap option_map].
    + destruct IH as (Hi & Hnot & Hs). rewrite zlen_cons.
      replace (Z.to_nat (Z.succ i)) with (S (Z.to_nat i)) by lia.
      replace (Z.to_nat (Z.succ i + 1)) with (S (Z.to_nat (i + 1))) by lia.
      cbn [take drop app]. split; [lia|]. split.
      * rewrite not_elem_of_cons. split; [congruence|done].
      * by rewrite <- Hs.
    + rewrite not_elem_of_cons. split; [congruence|done].
Qed.

Lemma s32_small x : 0 ≤ x < 2 ^ 31 → s32 x = x.
Proof. intros. unfold s32. rewrite Z.mod_small; lia. Qed.

(** ** What a client wrote and what the decoder reads *)

Lemma key_of_token name rest :
  Forall (λ c, is_key_byte c = true) name → is_key_byte (hd 0 rest) = false →
  key_of (name ++ rest) = name ∧ after_key (name ++ rest) = rest.
Proof.
  intros Hname Hrest. induction Hname as [|c name Hc _ [IH1 IH2]]; cbn.
  - destruct rest as [|d rest]; [done|]. cbn in *. by rewrite Hrest.
  - by rewrite Hc, IH1, IH2.
Qed.

Lemma request_line_parts method target version :
  Forall (λ c, is_key_byte c = true) method → target_start target →
  key_of (request_line method target version) = method
  ∧ value_of (request_line method target version) = target ++ 32 :: version.
Proof.
  intros Hm (Hne & Htrim & _). unfold request_line, value_of.
  destruct (key_of_token method (32 :: target ++ 32 :: version) Hm eq_refl) as [-> ->].
  split; [done|]. unfold after_separator. cbn [hd tl]. cbn [Z.eqb andb trim].
  change (is_trim_byte 32) with true. cbv iota.
  destruct target as [|c target]; [done|]. cbn in *. by rewrite Htrim.
Qed.

Lemma header_line_parts field :
  Forall (λ c, is_key_byte c = true) field.1 →
  key_of (header_line field) = field.1 ∧ value_of (header_line field) = field.2.
Proof.
  intros Hn. unfold header_line, value_of.
  by destruct (key_of_token field.1 (58 :: 32 :: field.2) Hn eq_refl) as [-> ->].
Qed.

Lemma target_of_request_line target version :
  length version = 8%nat → target_of (target ++ 32 :: version) = target.
Proof.
  intros Hv. unfold target_of. rewrite length_app. cbn [length]. rewrite Hv.
  replace (length target + 9 - 9)%nat with (length target) by lia.
  apply take_app_length.
Qed.

Lemma lookup_header_fields name fields :
  Forall (λ f, token f.1) fields →
  lookup_header name (map header_line fields) = lookup_field name fields.
Proof.
  induction 1 as [|f fs [Hne Hf] _ IH]; [done|]. cbn.
  destruct (header_line_parts f Hf) as [-> ->].
  rewrite bool_decide_eq_false_2 by done. by rewrite IH.
Qed.

Lemma lower_ascii_lower name :
  Forall (λ c, 48 ≤ c ≤ 57 ∨ 65 ≤ c ≤ 90 ∨ 97 ≤ c ≤ 122 ∨ c = 45) name →
  lower name = map ascii_lower name.
Proof.
  intros Hname. unfold lower. apply map_ext_Forall. eapply Forall_impl; [exact Hname|].
  intros c Hc. cbn in *.
  assert (0 ≤ c < 256) as Hb by lia.
  pose proof (byte_cases
    (λ c, negb (((48 <=? c) && (c <=? 57)) || ((65 <=? c) && (c <=? 90))
                || ((97 <=? c) && (c <=? 122)) || (c =? 45))
          || (Z.lor c 32 =? ascii_lower c))
    ltac:(by vm_compute) c Hb) as Hcase.
  cbn beta in Hcase. lia.
Qed.

(** ** The view of a complete head *)

Section RequestView.

Context `{BloomFilterOps} `{ChunkedEncoding}.
Variable char_is_signed : bool.
Context {A : Type} (handlers : Handlers A).

Lemma head_request_slots (c : Cursor A) pre l0 hdrs post :
  HeadAt c pre (l0 :: hdrs) post →
  ∃ t tl,
    headers (head_request c pre (l0 :: hdrs) post)
    = MkHeader (SV (zlen pre) (zlen (key_of l0)))
               (SV (zlen pre + zlen l0 - zlen (value_of l0))
                   (Z.max 0 (s32 (zlen (value_of l0)) - 9)))
      :: line_headers (zlen pre + zlen l0 + 2) hdrs ++ set_key sv_null t :: tl.
Proof.
  intros [_ _ (_ & _ & Hn) _ Hslots _].
  unfold head_request, finishRequest. cbn [headers].
  destruct (headers (c_req c)) as [|t0 slots]; [done|].
  cbn [line_headers fill nth]. cbn [alter list_alter]. cbn [line_header value key set_value sv_data sv_len].
  destruct (fill_app (line_headers (zlen pre + zlen l0 + 2) hdrs) slots) as (t & tl & ->).
  { rewrite length_line_headers. unfold zlen, MAX_HEADERS in *. cbn [length] in *. lia. }
  by exists t, tl.
Qed.

Lemma head_mem'_cons pre l0 hdrs post :
  head_mem' pre (l0 :: hdrs) post
  = pre ++ lower_line l0 ++ 13 :: 10 :: head_bytes (map lower_line hdrs) ++ post.
Proof. unfold head_mem'. cbn [map]. by rewrite head_bytes_cons, <- app_assoc. Qed.

Lemma head_mem'_headers pre l0 hdrs post :
  head_mem' pre (l0 :: hdrs) post
  = (pre ++ lower_line l0 ++ [13; 10]) ++ lines_bytes (map lower_line hdrs)
    ++ [13; 10] ++ post.
Proof.
  rewrite head_mem'_cons. unfold head_bytes. by rewrite <- !app_assoc.
Qed.

(** The method is the key of the request line, lower-cased. *)
Lemma head_request_method (c : Cursor A) pre l0 hdrs post :
  HeadAt c pre (l0 :: hdrs) post →
  sv_bytes (head_mem' pre (l0 :: hdrs) post) (getMethod (head_request c pre (l0 :: hdrs) post))
  = lower (key_of l0).
Proof.
  intros Hhead. destruct (head_request_slots c pre l0 hdrs post Hhead) as (t & tl & Hs).
  unfold getMethod, headers0. rewrite Hs. cbn [nth key sv_data sv_len].
  rewrite head_mem'_cons. apply (line_header_key_bytes pre l0).
Qed.

(** The stored value of the request line is the target. *)
Lemma head_request_target (c : Cursor A) pre l0 hdrs post :
  HeadAt c pre (l0 :: hdrs) post → zlen l0 < 2 ^ 31 →
  let v := value (headers0 (head_request c pre (l0 :: hdrs) post)) in
  sv_bytes (head_mem' pre (l0 :: hdrs) post) v = target_of (value_of l0)
  ∧ sv_len v = zlen (target_of (value_of l0))
  ∧ sv_data v = zlen pre + zlen l0 - zlen (value_of l0).
Proof.
  intros Hhead Hl0. destruct (head_request_slots c pre l0 hdrs post Hhead) as (t & tl & Hs).
  unfold headers0. rewrite Hs. cbn [nth value sv_data sv_len]. cbv zeta.
  pose proof (zlen_value_of_le l0). pose proof (zlen_key_split l0).
  pose proof (zlen_nonneg (key_of l0)). pose proof (zlen_nonneg (value_of l0)).
  rewrite s32_small by lia.
  assert (Z.max 0 (zlen (value_of l0) - 9) = zlen (target_of (value_of l0))) as Hlen.
  { unfold target_of, zlen. rewrite length_take. lia. }
  split; [|done].
  unfold sv_bytes. cbn [sv_data sv_len].
  rewrite (slice_take _ _ (zlen (value_of l0))) by lia.
  pose proof (line_header_value_bytes pre l0
                (13 :: 10 :: head_bytes (map lower_line hdrs) ++ post)) as Hv.
  unfold sv_bytes in Hv. cbn [line_header value sv_data sv_len] in Hv.
  rewrite head_mem'_cons, Hv. unfold target_of. f_equal. unfold zlen. lia.
Qed.

Lemma head_request_ancient (c : Cursor A) pre l0 hdrs post :
  HeadAt c pre (l0 :: hdrs) post →
  isAncient (head_request c pre (l0 :: hdrs) post)
  = bool_decide (last (value_of l0) = Some 48).
Proof.
  intros Hhead. unfold isAncient, head_request, finishRequest. cbn [ancientHttp].
  destruct Hhead as [_ _ _ _ Hslots _].
  destruct (headers (c_req c)) as [|t0 slots]; [done|].
  cbn [line_headers fill nth line_header value sv_data sv_len].
  pose proof (zlen_value_of_le l0). pose proof (zlen_key_split l0).
  pose proof (zlen_nonneg (key_of l0)). pose proof (zlen_nonneg (value_of l0)).
  pose proof (zlen_nonneg pre).
  destruct (Z.eqb_spec (zlen (value_of l0)) 0) as [Hz|Hz].
  - destruct (value_of l0); [done|]. rewrite zlen_cons in Hz. pose proof (zlen_nonneg l). lia.
  - assert (value_of l0 ≠ []) as Hne by (intros E; by rewrite E in Hz).
    rewrite (rd_last _ Hne). cbn [negb andb].
    pose proof (line_header_value_bytes pre l0
                  (13 :: 10 :: head_bytes (map lower_line hdrs) ++ post)) as Hv.
    unfold sv_bytes in Hv. cbn [line_header value sv_data sv_len] in Hv.
    rewrite <- head_mem'_cons in Hv.
    replace (zlen pre + zlen l0 - zlen (value_of l0) + zlen (value_of l0) - 1)
      with (zlen pre + zlen l0 - zlen (value_of l0) + (zlen (value_of l0) - 1)) by lia.
    rewrite (rd_slice _ _ (zlen (value_of l0))) by (rewrite ?Hv; lia).
    rewrite Hv.
    destruct (Z.eqb_spec (rd (value_of l0) (zlen (value_of l0) - 1)) 48) as [->|Hne'].
    + by rewrite bool_decide_eq_true_2.
    + rewrite bool_decide_eq_false_2; [done|]. congruence.
Qed.

Lemma head_request_separator (c : Cursor A) pre l0 hdrs post :
  HeadAt c pre (l0 :: hdrs) post → zlen l0 < 2 ^ 31 →
  querySeparator (head_request c pre (l0 :: hdrs) post)
  = match memchr (target_of (value_of l0)) 63 with
    | Some off => off
    | None => zlen (target_of (value_of l0))
    end.
Proof.
  intros Hhead Hl0.
  destruct (head_request_target c pre l0 hdrs post Hhead Hl0) as (Hbytes & Hlen & _).
  pose proof (zlen_value_of_le l0). pose proof (zlen_key_split l0).
  pose proof (zlen_nonneg (key_of l0)).
  assert (zlen (target_of (value_of l0)) ≤ zlen (value_of l0)).
  { unfold target_of, zlen. rewrite length_take. lia. }
  pose proof (zlen_nonneg (target_of (value_of l0))).
  revert Hbytes Hlen. unfold head_request, finishRequest, headers0.
  cbn [headers querySeparator].
  destruct Hhead as [_ _ _ _ Hslots _].
  destruct (headers (c_req c)) as [|t0 slots]; [done|].
  cbn [line_headers fill nth alter list_alter set_value value].
  intros Hbytes Hlen. unfold sv_bytes in *. cbn [sv_data sv_len] in *.
  fold (head_mem' pre (l0 :: hdrs) post). rewrite Hbytes, Hlen.
  pose proof (memchr_spec (target_of (value_of l0)) 63) as Hm.
  destruct (memchr (target_of (value_of l0)) 63) as [off|].
  - apply u32_small. lia.
  - apply u32_small. lia.
Qed.

(** The URL, and the query behind a question mark, make up the target. *)
Lemma head_request_url_query (c : Cursor A) pre l0 hdrs post :
  HeadAt c pre (l0 :: hdrs) post → zlen l0 < 2 ^ 31 →
  let mem' := head_mem' pre (l0 :: hdrs) post in
  let req := head_request c pre (l0 :: hdrs) post in
  let target := target_of (value_of l0) in
  sv_bytes mem' (getUrl req)
  ++ (if bool_decide (63 ∈ target) then 63 :: sv_bytes mem' (getQuery req) else [])
  = target.
Proof.
  intros Hhead Hl0 mem' req target.
  destruct (head_request_target c pre l0 hdrs post Hhead Hl0) as (Hbytes & Hlen & Hdata).
  pose proof (head_request_separator c pre l0 hdrs post Hhead Hl0) as Hqs.
  fold req in Hbytes, Hlen, Hdata, Hqs. fold mem' in Hbytes. fold target in Hbytes, Hlen, Hqs.
  pose proof (zlen_value_of_le l0). pose proof (zlen_key_split l0).
  pose proof (zlen_nonneg (key_of l0)). pose proof (zlen_nonneg pre).
  pose proof (zlen_nonneg target).
  pose proof (memchr_spec target 63) as Hm.
  unfold getUrl, getQuery, sv_bytes in *. cbn [sv_data sv_len] in *.
  rewrite Hlen, Hqs. rewrite Hlen in Hbytes.
  destruct (memchr target 63) as [off|].
  - destruct Hm as (Hoff & Hnot & Hsplit).
    destruct (Z.ltb_spec off (zlen target)) as [_|?]; [|lia]. cbn [sv_data sv_len].
    rewrite bool_decide_eq_true_2
      by (rewrite Hsplit, elem_of_app; right; apply list_elem_of_here).
    rewrite (slice_take _ _ (zlen target)) by lia.
    replace (zlen target - off - 1) with (zlen target - (off + 1)) by lia.
    rewrite <- Z.add_assoc, (slice_drop _ _ (zlen target)) by lia.
    rewrite Hbytes. by rewrite <- Hsplit.
  - rewrite bool_decide_eq_false_2 by done.
    rewrite Hbytes, app_nil_r. done.
Qed.

Context `{!BloomFilterSound}.

(** [getHeader] finds the first header line with the given stored key. *)
Lemma head_request_header (c : Cursor A) pre l0 hdrs post name :
  HeadAt c pre (l0 :: hdrs) post →
  let mem' := head_mem' pre (l0 :: hdrs) post in
  let found := getHeader mem' (head_request c pre (l0 :: hdrs) post) name in
  sv_bytes mem' found = lookup_header name hdrs
  ∧ sv_len found = zlen (lookup_header name hdrs).
Proof.
  intros Hhead mem' found. unfold found, getHeader.
  destruct (head_request_slots c pre l0 hdrs post Hhead) as (t & tl & Hs).
  assert (bf (head_request c pre (l0 :: hdrs) post)
          = addKeys mem' (drop 1 (headers (head_request c pre (l0 :: hdrs) post)))
                    (bf_reset (bf (c_req c)))) as Hbf by done.
  rewrite Hbf, Hs. rewrite skipn_cons, drop_0.
  assert (mem' = (pre ++ lower_line l0 ++ [13; 10]) ++ lines_bytes (map lower_line hdrs)
                 ++ [13; 10] ++ post) as Hmem by apply head_mem'_headers.
  assert (zlen pre + zlen l0 + 2 = zlen (pre ++ lower_line l0 ++ [13; 10])) as ->
    by (rewrite !zlen_app, zlen_lower_line, !zlen_cons, zlen_nil; lia).
  destruct (bf_mightHave _ name) eqn:Hmight.
  - by apply (getHeader_loop_lines hdrs mem' _ ([13; 10] ++ post)).
  - rewrite lookup_header_absent; [done|].
    destruct (has_header name hdrs) eqn:Hhas; [|done].
    pose proof (addKeys_lines hdrs mem' (pre ++ lower_line l0 ++ [13; 10])
                  ([13; 10] ++ post) t tl (bf_reset (bf (c_req c))) name Hmem Hhas).
    congruence.
Qed.

End RequestView.

(** ** The callbacks of one head *)

Section Heads.

Context `{BloomFilterOps} `{ChunkedEncoding}.
Variable char_is_signed : bool.
Context {A : Type} (handlers : Handlers A).

Lemma callData_log (w : World A) user chunk fin :
  (callData handlers w user chunk fin).1.2
  = w.2 ++ [DataEvent user chunk fin (callData handlers w user chunk fin).2].
Proof. unfold callData. by destruct (dataHandler handlers w.1 user chunk fin). Qed.

Lemma callRequest_log (w : World A) user mem req :
  (callRequest handlers w user mem req).1.2
  = w.2 ++ [RequestEvent user mem req (callRequest handlers w user mem req).2].
Proof. unfold callRequest. by destruct (requestHandler handlers w.1 user mem req). Qed.

Lemma callRequest_returned (w : World A) user mem req :
  (callRequest handlers w user mem req).2 = (requestHandler handlers w.1 user mem req).2.
Proof. unfold callRequest. by destruct (requestHandler handlers w.1 user mem req). Qed.

Lemma emitChunks_log chunks : ∀ (w : World A) user,
  ∃ more, (emitChunks handlers w user chunks).2 = w.2 ++ more.
Proof.
  unfold emitChunks. induction chunks as [|ch chunks IH]; intros w user; cbn [fold_left].
  - exists []. by rewrite app_nil_r.
  - destruct (IH (callData handlers w user ch (zlen ch =? 0)).1 user) as (more & ->).
    rewrite callData_log, <- app_assoc. by eexists.
Qed.

Lemma frameBody_log CONSUME_MINIMALLY user (c : Cursor A) :
  ∃ more, log (frameBody char_is_signed handlers CONSUME_MINIMALLY user c) = log c ++ more.
Proof.
  unfold frameBody, log.
  repeat match goal with
  | |- context [if ?b then _ else _] => destruct b
  | |- context [let '(_, _) := ?x in _] => destruct x as [[? ?] ?]
  end; cbn [c_world];
    rewrite ?callData_log; try (by eexists); try (exists []; by rewrite app_nil_r).
  apply emitChunks_log.
Qed.

(** On a complete head the request handler is called with the view
    [head_request]; what may follow in this iteration comes behind it in
    the log. *)
Lemma step_head_log CONSUME_MINIMALLY user (c : Cursor A) pre lines post :
  HeadAt c pre lines post →
  ∃ s more,
    fenceAndConsume_step char_is_signed handlers CONSUME_MINIMALLY user c = Some s
    ∧ log (step_cursor s)
      = log c ++ RequestEvent user (head_mem' pre lines post) (head_request c pre lines post)
                   (requestHandler handlers (c_world c).1 user (head_mem' pre lines post)
                                   (head_request c pre lines post)).2
               :: more.
Proof.
  intros Hhead.
  rewrite (step_head char_is_signed handlers CONSUME_MINIMALLY user c pre lines post Hhead).
  pose proof (callRequest_log (c_world c) user (head_mem' pre lines post)
                (head_request c pre lines post)) as Hlog.
  rewrite callRequest_returned in Hlog.
  destruct (callRequest handlers (c_world c) user _ _) as [w returnedUser].
  cbn [fst snd] in Hlog. cbv zeta.
  destruct (negb (returnedUser =? user)).
  - eexists _, []. split; [done|]. by cbn.
  - destruct (frameBody_log CONSUME_MINIMALLY user (head_cursor c pre lines post w))
      as (more & Hmore).
    unfold log in *. cbn [head_cursor c_world] in Hmore. rewrite Hlog in Hmore.
    rewrite <- app_assoc in Hmore.
    destruct CONSUME_MINIMALLY; eexists _, more; (split; [done|]); exact Hmore.
Qed.

(** C8 (as amended).  For every parsed head the ancient flag of the view
    given to the request handler is true if and only if what follows the
    method on the request line is not empty and ends with the byte '0';
    for a request line [method SP target SP version] that is: the version
    ends with '0'. *)
Theorem ancient_iff_last_zero CONSUME_MINIMALLY user (c : Cursor A) pre l0 hdrs post :
  HeadAt c pre (l0 :: hdrs) post →
  ∃ s returned more,
    fenceAndConsume_step char_is_signed handlers CONSUME_MINIMALLY user c = Some s
    ∧ log (step_cursor s)
      = log c ++ RequestEvent user (head_mem' pre (l0 :: hdrs) post)
                   (head_request c pre (l0 :: hdrs) post) returned :: more
    ∧ (isAncient (head_request c pre (l0 :: hdrs) post) = true
       ↔ last (value_of l0) = Some 48)
    ∧ (∀ method target version,
         l0 = request_line method target version →
         Forall (λ c, is_key_byte c = true) method → target_start target →
         version ≠ [] →
         (isAncient (head_request c pre (l0 :: hdrs) post) = true
          ↔ last version = Some 48)).
Proof.
  intros Hhead.
  destruct (step_head_log CONSUME_MINIMALLY user c pre (l0 :: hdrs) post Hhead)
    as (s & more & Hstep & Hlog).
  eexists s, _, more. split; [done|]. split; [exact Hlog|].
  rewrite (head_request_ancient c pre l0 hdrs post Hhead), bool_decide_eq_true.
  split; [done|].
  intros method target version -> Hm Ht Hv.
  destruct (request_line_parts method target version Hm Ht) as [_ ->].
  rewrite bool_decide_eq_true, last_app, last_cons.
  destruct (last version) eqn:E; [tauto|].
  apply last_None in E. done.
Qed.

(** C3 (as amended).  For every parsed head whose request line is
    [method SP target SP version] with a version of eight bytes, the URL
    followed, when the target holds a question mark, by "?" and the query,
    is the target. *)
Theorem url_query_is_target CONSUME_MINIMALLY user (c : Cursor A) pre method target version
    hdrs post :
  let l0 := request_line method target version in
  HeadAt c pre (l0 :: hdrs) post →
  Forall (λ c, is_key_byte c = true) method → target_start target →
  length version = 8%nat → zlen l0 < 2 ^ 31 →
  let mem' := head_mem' pre (l0 :: hdrs) post in
  let req := head_request c pre (l0 :: hdrs) post in
  ∃ s returned more,
    fenceAndConsume_step char_is_signed handlers CONSUME_MINIMALLY user c = Some s
    ∧ log (step_cursor s) = log c ++ RequestEvent user mem' req returned :: more
    ∧ sv_bytes mem' (getUrl req)
      ++ (if bool_decide (63 ∈ target) then 63 :: sv_bytes mem' (getQuery req) else [])
      = target.
Proof.
  intros l0 Hhead Hm Ht Hv Hl0 mem' req.
  destruct (step_head_log CONSUME_MINIMALLY user c pre (l0 :: hdrs) post Hhead)
    as (s & more & Hstep & Hlog).
  eexists s, _, more. split; [done|]. split; [exact Hlog|].
  pose proof (head_request_url_query c pre l0 hdrs post Hhead Hl0) as Hurl.
  cbv zeta in Hurl.
  destruct (request_line_parts method target version Hm Ht) as [_ Hval].
  fold l0 in Hval. rewrite Hval, target_of_request_line in Hurl by done. exact Hurl.
Qed.

(** *** Header lookup *)

Lemma lookup_field_first name fs1 n v fs2 :
  lower n = name → Forall (λ f, lower f.1 ≠ name) fs1 →
  lookup_field name (fs1 ++ (n, v) :: fs2) = v.
Proof.
  intros Hn Hfs1. induction Hfs1 as [|f fs1 Hf _ IH]; cbn.
  - by rewrite bool_decide_eq_true_2.
  - by rewrite bool_decide_eq_false_2.
Qed.

Lemma lookup_field_none name fields :
  Forall (λ f, lower f.1 ≠ name) fields → lookup_field name fields = [].
Proof.
  induction 1 as [|f fs Hf _ IH]; cbn; [done|]. by rewrite bool_decide_eq_false_2.
Qed.

(** C2 (as amended).  For every parsed head, [getHeader] applied to a name
    returns the value of the first header line whose key, as the decoder
    stored it (0x20 or-ed into every byte), is that name, and the empty
    slice when there is none; header lines behind a line with an empty key
    are not seen.  For the fields [name: value] of a request this means:
    a field whose name consists of letters, digits and hyphens is found
    under its lower-cased name unless an earlier field has the same stored
    name, and a name that is the stored name of no field yields the empty
    slice. *)
Theorem getHeader_first_match `{!BloomFilterSound} CONSUME_MINIMALLY user (c : Cursor A)
    pre l0 hdrs post :
  HeadAt c pre (l0 :: hdrs) post →
  let mem' := head_mem' pre (l0 :: hdrs) post in
  let req := head_request c pre (l0 :: hdrs) post in
  ∃ s returned more,
    fenceAndConsume_step char_is_signed handlers CONSUME_MINIMALLY user c = Some s
    ∧ log (step_cursor s) = log c ++ RequestEvent user mem' req returned :: more
    ∧ (∀ name, sv_bytes mem' (getHeader mem' req name) = lookup_header name hdrs)
    ∧ (∀ fs1 n v fs2,
         hdrs = map header_line (fs1 ++ (n, v) :: fs2) →
         Forall (λ f, token f.1) (fs1 ++ (n, v) :: fs2) →
         Forall (λ c, 48 ≤ c ≤ 57 ∨ 65 ≤ c ≤ 90 ∨ 97 ≤ c ≤ 122 ∨ c = 45) n →
         Forall (λ f, lower f.1 ≠ lower n) fs1 →
         sv_bytes mem' (getHeader mem' req (map ascii_lower n)) = v)
    ∧ (∀ fields name,
         hdrs = map header_line fields → Forall (λ f, token f.1) fields →
         Forall (λ f, lower f.1 ≠ name) fields →
         sv_bytes mem' (getHeader mem' req name) = []).
Proof.
  intros Hhead mem' req.
  destruct (step_head_log CONSUME_MINIMALLY user c pre (l0 :: hdrs) post Hhead)
    as (s & more & Hstep & Hlog).
  eexists s, _, more. split; [done|]. split; [exact Hlog|].
  assert (∀ name, sv_bytes mem' (getHeader mem' req name) = lookup_header name hdrs) as Hget.
  { intros name. by destruct (head_request_header c pre l0 hdrs post name Hhead). }
  split; [done|]. split.
  - intros fs1 n v fs2 -> Htok Hn Hfs1.
    rewrite Hget, lookup_header_fields by done.
    apply lookup_field_first; [|by rewrite <- lower_ascii_lower].
    by apply lower_ascii_lower.
  - intros fields name -> Htok Hnone.
    rewrite Hget, lookup_header_fields by done. by apply lookup_field_none.
Qed.

(** *** Body framing *)

Lemma frameBody_get CONSUME_MINIMALLY user (c : Cursor A) :
  sv_bytes (c_mem c) (getMethod (c_req c)) = bytes "get" →
  frameBody char_is_signed handlers CONSUME_MINIMALLY user c
  = MkCursor (c_mem c) (c_data c) (c_length c) (c_consumedTotal c) (c_req c)
             (c_remaining c) (callData handlers (c_world c) user [] true).1.
Proof.
  intros Hget. unfold frameBody. by rewrite bool_decide_eq_true_2.
Qed.


Lemma toUnsignedInteger_from acc str :
  fold_left (λ unsignedIntegerValue c,
               u32 (u32 (unsignedIntegerValue * 10) + u32 (char_to_uint char_is_signed c - 48)))
            str (u32 acc)
  = u32 (fold_left (λ acc c, acc * 10 + (char_value char_is_signed c - 48)) str acc).
Proof.
  revert acc. induction str as [|c str IH]; intros acc; cbn [fold_left]; [done|].
  rewrite <- IH. f_equal.
  assert (char_to_uint char_is_signed c mod 2 ^ 32 = char_value char_is_signed c mod 2 ^ 32)
    as Hc.
  { unfold char_to_uint, char_value, u32.
    destruct (char_is_signed && (128 <=? c)); [|done]. by rewrite Z.mod_mod. }
  unfold u32. change (2 ^ 32) with 4294967296 in *.
  Z.div_mod_to_equations. lia.
Qed.

(** [toUnsignedInteger] is the unchecked decimal value modulo 2^32. *)
Lemma toUnsignedInteger_spec str :
  toUnsignedInteger char_is_signed str
  = decimal_value (char_value char_is_signed) str mod 2 ^ 32.
Proof. apply (toUnsignedInteger_from 0). Qed.

(** C10 (as amended).  For every non-empty Content-Length value on a
    request whose method is not "get", the streamed body length is the
    value accumulated from [byte - '0'] in base 10 over all bytes of the
    value, modulo 2^32: no byte is rejected and nothing keeps the result
    below 2^30.  With [CONSUME_MINIMALLY] it is stored as it is; otherwise
    [min(length, bytes left in the window)] bytes are handed to the data
    handler at once and the rest is stored. *)
Theorem content_length_unchecked `{!BloomFilterSound} CONSUME_MINIMALLY user
    (c : Cursor A) pre l0 hdrs post :
  HeadAt c pre (l0 :: hdrs) post →
  lower (key_of l0) ≠ bytes "get" →
  let v := lookup_header (bytes "content-length") hdrs in
  v ≠ [] →
  let mem' := head_mem' pre (l0 :: hdrs) post in
  let req := head_request c pre (l0 :: hdrs) post in
  (requestHandler handlers (c_world c).1 user mem' req).2 = user →
  let total := decimal_value (char_value char_is_signed) v mod 2 ^ 32 in
  let n := zlen (head_bytes (l0 :: hdrs)) in
  let emittable := Z.min total (c_length c - n) in
  ∃ s,
    fenceAndConsume_step char_is_signed handlers CONSUME_MINIMALLY user c = Some s
    ∧ if CONSUME_MINIMALLY
      then s = Leave (step_cursor s) user
           ∧ c_remaining (step_cursor s) = total
           ∧ log (step_cursor s) = log c ++ [RequestEvent user mem' req user]
      else ∃ returned',
             s = Again (step_cursor s)
             ∧ c_remaining (step_cursor s) = total - emittable
             ∧ log (step_cursor s)
               = log c ++ [RequestEvent user mem' req user;
                           DataEvent user (slice mem' (c_data c + n) emittable)
                                     (emittable =? total) returned'].
Proof.
  intros Hhead Hmethod v Hv mem' req Hreturned total n emittable.
  rewrite (step_head char_is_signed handlers CONSUME_MINIMALLY user c pre (l0 :: hdrs) post
             Hhead).
  pose proof (callRequest_log (c_world c) user mem' req) as Hlog.
  pose proof (callRequest_returned (c_world c) user mem' req) as Hret.
  fold mem' req. destruct (callRequest handlers (c_world c) user mem' req) as [w returnedUser].
  cbn [fst snd] in Hlog, Hret. rewrite Hreturned in Hret. subst returnedUser. cbv zeta.
  rewrite Z.eqb_refl. cbn [negb].
  destruct (head_request_header c pre l0 hdrs post (bytes "content-length") Hhead)
    as [Hbytes Hlen].
  fold mem' req v in Hbytes, Hlen.
  assert (0 < zlen v) as Hvpos.
  { assert (length v ≠ 0%nat) by (by intros E%length_zero_iff_nil).
    unfold zlen. lia. }
  assert (0 ≤ total < 2 ^ 32) as Htotal by (apply Z.mod_pos_bound; lia).
  assert (sv_bytes mem' (getMethod req) ≠ bytes "get") as Hm
    by (unfold mem', req; by rewrite head_request_method).
  destruct Hhead as [_ _ _ _ _ Hlength]. fold n in Hlength.
  unfold frameBody. cbn [head_cursor c_mem c_req c_world c_data c_length c_consumedTotal].
  fold mem' req n.
  rewrite bool_decide_eq_false_2 by done.
  cbn [negb]. rewrite Hbytes. destruct (Z.eqb_spec (sv_len (getHeader mem' req (bytes "content-length"))) 0) as [E|_]; [lia|].
  cbn [negb]. rewrite toUnsignedInteger_spec. fold total.
  destruct CONSUME_MINIMALLY; cbn [negb].
  - eexists. split; [done|]. cbn [step_cursor c_remaining]. unfold log. cbn [c_world].
    by rewrite Hlog.
  - pose proof (callData_log w user (slice mem' (c_data c + n) (Z.min total (c_length c - n)))
                  (Z.min total (c_length c - n) =? total)) as Hdata.
    eexists. split; [done|]. eexists. cbn [step_cursor c_remaining]. unfold log. cbn [c_world].
    split; [done|]. split.
    + apply u32_small. unfold emittable. lia.
    + rewrite Hdata, Hlog, <- app_assoc. done.
Qed.

End Heads.

(** ** Route parameters *)

Section Parameters.

Context `{BloomFilterOps}.

(** C9 (as amended).  The first component of the assigned pair is the
    index of the last parameter (the count minus one, and -1 when there is
    none): [getParameter(index)] returns [array[index]] when [index] is at
    most that index and the empty slice when it is greater. *)
Theorem getParameter_last_index (req : HttpRequest) (last_index : Z)
    (array : list string_view) (index : Z) :
  0 ≤ index < 2 ^ 16 →
  (index ≤ last_index →
   getParameter (setParameters req (last_index, array)) index = array !! Z.to_nat index)
  ∧ (last_index < index →
     getParameter (setParameters req (last_index, array)) index = Some sv_null).
Proof.
  intros Hindex. unfold getParameter, setParameters, getParameter_of.
  cbn [currentParameters fst snd]. rewrite s32_small by lia.
  split; intros Hcmp.
  - destruct (Z.ltb_spec last_index index); [lia|done].
  - destruct (Z.ltb_spec last_index index); [done|lia].
Qed.

End Parameters.

(** ** Buffers under the fence *)

Lemma rd_wr_eq mem p c : 0 ≤ p < zlen mem → rd (wr mem p c) p = c.
Proof.
  intros Hp. unfold rd, wr, zlen in *. rewrite nth_lookup, list_lookup_insert_eq; [done|lia].
Qed.

Lemma rd_wr_ne mem p q c : 0 ≤ p → 0 ≤ q → p ≠ q → rd (wr mem p c) q = rd mem q.
Proof.
  intros Hp Hq Hne. unfold rd, wr. rewrite !nth_lookup, list_lookup_insert_ne; [done|lia].
Qed.

Lemma bytes_ok_wr mem p c : bytes_ok mem → 0 ≤ c < 256 → bytes_ok (wr mem p c).
Proof.
  intros Hok Hc. unfold wr, bytes_ok.
  by apply Forall_insert.
Qed.

Lemma slice_wr mem p n q c : 0 ≤ p → 0 ≤ n → p + n ≤ q → slice (wr mem q c) p n = slice mem p n.
Proof.
  intros Hp Hn Hq. unfold slice, wr.
  rewrite drop_insert_ge by lia. apply take_insert_ge. lia.
Qed.

Lemma zlen_slice mem p n : 0 ≤ p → 0 ≤ n → p + n ≤ zlen mem → zlen (slice mem p n) = n.
Proof. intros. unfold slice, zlen in *. rewrite length_take, length_drop. lia. Qed.

Lemma zlen_slice_le mem p n : 0 ≤ n → zlen (slice mem p n) ≤ n.
Proof. intros. unfold slice, zlen in *. rewrite length_take. lia. Qed.

Lemma bytes_ok_slice mem p n : bytes_ok mem → bytes_ok (slice mem p n).
Proof. intros. unfold slice. by apply Forall_take, Forall_drop. Qed.

Lemma mem_split (mem : list Z) p n :
  0 ≤ p → 0 ≤ n →
  mem = take (Z.to_nat p) mem ++ slice mem p n ++ drop (Z.to_nat (p + n)) mem.
Proof.
  intros Hp Hn. unfold slice. rewrite Z2Nat.inj_add, <- drop_drop by lia.
  by rewrite !take_drop.
Qed.

Lemma slice_head (mem : list Z) p n (l post : list Z) :
  0 ≤ p ≤ zlen mem → zlen l ≤ n →
  mem = take (Z.to_nat p) mem ++ l ++ post →
  slice mem p n = l ++ take (Z.to_nat (n - zlen l)) post.
Proof.
  intros Hp Hn Hmem. unfold slice. rewrite Hmem at 1.
  rewrite drop_app_length'; [|rewrite length_take; unfold zlen in *; lia].
  rewrite take_app. rewrite take_ge by (unfold zlen in *; lia).
  do 2 f_equal. unfold zlen in *. lia.
Qed.

Lemma fence_inside mem F : rd mem F = 13 → 0 ≤ F → F < zlen mem.
Proof.
  intros HF HF0. destruct (decide (F < zlen mem)); [done|].
  rewrite rd_outside in HF by lia. done.
Qed.

Ltac fields :=
  cbn [c_mem c_data c_length c_consumedTotal c_req c_remaining c_world] in *.

Section Driver.

Context `{BloomFilterOps} `{ChunkedEncoding} `{!ChunkedEncodingLaws}.
Variable char_is_signed : bool.
Context {A : Type} (handlers : Handlers A).

Lemma toUnsignedInteger_range str : 0 ≤ toUnsignedInteger char_is_signed str < 2 ^ 32.
Proof. rewrite toUnsignedInteger_spec. apply Z.mod_pos_bound. lia. Qed.

(** With the minimal policy the framing moves nothing. *)
Lemma frameBody_true user (c : Cursor A) :
  let c' := frameBody char_is_signed handlers true user c in
  c_mem c' = c_mem c ∧ c_data c' = c_data c ∧ c_length c' = c_length c
  ∧ c_consumedTotal c' = c_consumedTotal c
  ∧ (0 ≤ c_remaining c → 0 ≤ c_remaining c').
Proof.
  cbv zeta. unfold frameBody.
  pose proof (toUnsignedInteger_range
    (sv_bytes (c_mem c) (getHeader (c_mem c) (c_req c) (bytes "content-length")))).
  pose proof chunked_state.
  repeat case_match; repeat split; fields; try done; lia.
Qed.

(** With the maximal policy the framing takes body bytes from the front of
    the window, and leaves either no body in progress or no window. *)
Lemma frameBody_false user (c : Cursor A) F :
  Fenced c F →
  let c' := frameBody char_is_signed handlers false user c in
  Fenced c' F ∧ c_mem c' = c_mem c ∧ c_length c' ≤ c_length c
  ∧ c_data c' - c_consumedTotal c' = c_data c - c_consumedTotal c
  ∧ (c_remaining c = 0 → c_remaining c' = 0 ∨ c_length c' = 0)
  ∧ (0 ≤ c_remaining c → 0 ≤ c_remaining c').
Proof.
  intros [Hok Hd Hl He Hcr Hlf Ht Hu]. cbv zeta. unfold frameBody.
  destruct (negb (bool_decide _)); cycle 1.
  { repeat split; fields; try done; try lia; intros; by left. }
  destruct (negb (sv_len _ =? 0)).
  - cbn [negb]. cbv iota zeta.
    set (remaining := toUnsignedInteger _ _).
    pose proof (toUnsignedInteger_range
      (sv_bytes (c_mem c) (getHeader (c_mem c) (c_req c) (bytes "content-length")))) as Hr.
    fold remaining in Hr.
    assert (0 ≤ Z.min remaining (c_length c) ≤ c_length c) as Hm by lia.
    rewrite (u32_small (c_length c - _)), (u32_small (c_consumedTotal c + _)) by lia.
    assert (0 ≤ u32 (remaining - Z.min remaining (c_length c))) as Hu32
      by (apply Z.mod_pos_bound; lia).
    assert (u32 (remaining - Z.min remaining (c_length c)) = 0
            ∨ c_length c - Z.min remaining (c_length c) = 0) as Hone.
    { destruct (Z.min_spec remaining (c_length c)) as [[_ ->]|[_ ->]].
      - left. by rewrite Z.sub_diag.
      - right. lia. }
    repeat split; fields; try done; lia.
  - cbn [negb]. cbv iota.
    pose proof (chunk_window (slice (c_mem c) (c_data c) (c_length c)) STATE_IS_CHUNKED) as Hw.
    pose proof (chunk_drains (slice (c_mem c) (c_data c) (c_length c)) STATE_IS_CHUNKED
                  chunked_is_parsing) as Hdr.
    pose proof (chunk_state (slice (c_mem c) (c_data c) (c_length c)) STATE_IS_CHUNKED
                  chunked_state) as Hst.
    pose proof (zlen_slice_le (c_mem c) (c_data c) (c_length c) Hl) as Hs.
    destruct (ChunkIterator _ _) as [[chunks rest] st]. cbn [fst snd] in *.
    rewrite (u32_small rest) by lia.
    rewrite (u32_small (c_length c - rest)), (u32_small (c_consumedTotal c + _)) by lia.
    repeat split; fields; try done; lia.
Qed.

(** One iteration on a fenced cursor. *)
Lemma step_fenced cm user (c : Cursor A) F :
  Fenced c F →
  ∃ s, fenceAndConsume_step char_is_signed handlers cm user c = Some s
       ∧ StepOk char_is_signed handlers cm user c F s.
Proof.
  intros [Hok Hd Hl He Hcr Hlf Ht Hu]. unfold fenceAndConsume_step.
  destruct (Z.eqb_spec (c_length c) 0) as [E|E].
  { exists (Leave c user). split; [done|]. by left. }
  unfold getHeaders.
  destruct (getHeaders_loop_fenced (Z.to_nat (MAX_HEADERS - 1)) (c_mem c) (c_data c)
              (c_data c) (headers (c_req c)) 0 F Hok ltac:(lia) Hcr Hlf)
    as (mem' & hs' & k & -> & Hok' & Hpat & Hframe & Hk).
  cbn [mbind option_bind]. cbv zeta.
  assert (F < zlen (c_mem c)) as HF by (apply fence_inside; [done|lia]).
  destruct Hk as [[-> Hnone]|(lines & post & Hmem & Hne & Hv & Hn & -> & Hend)].
  - cbn [Z.eqb]. eexists. split; [done|]. right. left. split; [done|].
    split; cbn; try done.
    unfold window. cbn. apply (NoHead_pattern (slice (c_mem c) (c_data c) (c_length c)));
      [by apply pattern_slice|].
    intros lines rest Hne Hv Hlen Hw.
    apply (Hnone lines (rest ++ drop (Z.to_nat (c_data c + c_length c)) (c_mem c)));
      [done|done|unfold zlen, MAX_HEADERS in *; lia|].
    rewrite (app_assoc (head_bytes lines)), <- Hw. by apply mem_split.
  - pose proof (zlen_head_bytes_pos lines) as Hpos.
    replace (c_data c + zlen (head_bytes lines) - c_data c) with (zlen (head_bytes lines))
      by lia.
    rewrite (u32_small (zlen _)) by lia.
    destruct (Z.eqb_spec (zlen (head_bytes lines)) 0) as [?|_]; [lia|].
    destruct (callRequest _ _ _ _ _) as [w r].
    rewrite (u32_small (c_length c - _)), (u32_small (c_consumedTotal c + _)) by lia.
    set (c1 := MkCursor _ _ _ _ _ _ w).
    assert (Parsed c c1 F (zlen (head_bytes lines))) as HP.
    { split; unfold c1; fields; try done; try lia.
      - exists lines, (take (Z.to_nat (c_length c - zlen (head_bytes lines))) post).
        repeat split; try done; [|by destruct Hv|by destruct Hv|
                                   unfold zlen, MAX_HEADERS in *; lia].
        unfold window. apply slice_head; [lia|lia|done].
      - split; fields; try done; try lia; rewrite Hframe; (done || lia). }
    destruct (Z.eqb_spec r user) as [->|Hr]; cbn [negb].
    + destruct cm.
      * eexists. split; [done|]. right. right. exists c1, (zlen (head_bytes lines)). split; [done|]. by right.
      * eexists. split; [done|]. split; [done|]. exists c1, (zlen (head_bytes lines)). by split.
    + eexists. split; [done|]. right. right. exists c1, (zlen (head_bytes lines)). split; [done|]. by left.
Qed.

(** A failed iteration leaves the fence where it stands. *)
Lemma Failed_fenced (c c' : Cursor A) F : Fenced c F → Failed c c' → Fenced c' F.
Proof.
  intros [Hok Hd Hl He Hcr Hlf Ht Hu] [E Hd' Hl' Ht' Hr' Hw' Hok' Hpat Hno].
  pose proof (pattern_rd _ _ F Hpat) as HF. pose proof (pattern_rd _ _ (F + 1) Hpat) as HF1.
  split; try done; try lia.
  - apply kind_cr. by rewrite HF, Hcr.
  - intros E10. apply Hlf, kind_lf. by rewrite <- HF1, E10.
Qed.

(** The loop with the maximal policy ends, and when it ends with the token
    it was given, either the window is used up or no body is in progress
    and what is left of the window is not a complete head. *)
Lemma loop_fenced user fuel : ∀ (c : Cursor A) F,
  Fenced c F → (Z.to_nat (c_length c) < fuel)%nat →
  0 ≤ c_remaining c → c_remaining c = 0 ∨ c_length c = 0 →
  ∃ c' r,
    fenceAndConsume_loop char_is_signed handlers fuel false user c = Some (c', r)
    ∧ (r = user →
       Fenced c' F
       ∧ c_data c' - c_consumedTotal c' = c_data c - c_consumedTotal c
       ∧ 0 ≤ c_remaining c'
       ∧ (c_length c' = 0 ∨ (c_remaining c' = 0 ∧ NoHead (window c')))).
Proof.
  induction fuel as [|fuel IH]; intros c F HF Hfuel Hrem Hone; [lia|].
  cbn [fenceAndConsume_loop].
  destruct (step_fenced false user c F HF) as (s & -> & Hs).
  destruct s as [c' r|c']; cbn [StepOk] in Hs.
  - exists c', r. split; [done|]. intros ->.
    destruct Hs as [(_ & E & ->)|[(_ & Hfail)|(c1 & n & HP & [(Hr & _)|(_ & ? & _)])]];
      [by split_and!; try left| |done..].
    pose proof (Failed_fenced c c' F HF Hfail) as HF'.
    destruct Hfail as [E Hd' Hl' Ht' Hr' Hw' Hok' Hpat Hno].
    split_and!; [done|lia|lia|]. right. split; [|done]. lia.
  - destruct Hs as (_ & c1 & n & HP & ->).
    destruct HP as [Hn Hhead Hd1 Hl1 Ht1 Hr1 Hpat1 HF1].
    destruct (frameBody_false user c1 F HF1) as (HF2 & Hmem2 & Hl2 & Hcons & Hone2 & Hrem2).
    pose proof (fenced_length _ _ HF2) as Hl2'.
    destruct (IH _ F HF2) as (c' & r & Hrun & Hpost); [lia|lia|apply Hone2; lia|].
    exists c', r. split; [done|]. intros Hr. destruct (Hpost Hr) as (? & ? & ? & ?).
    split_and!; [done|lia|done|done].
Qed.

(** The cursor that [fenceAndConsumePostPadded] starts from. *)
Lemma fence_cursor mem data length req remaining (w : World A) :
  bytes_ok mem → 0 ≤ data → 0 ≤ length < 2 ^ 32 → data + length + 2 ≤ zlen mem →
  let mem' := wr (wr mem (data + length) 13) (data + length + 1) 97 in
  Fenced (MkCursor mem' data length 0 req remaining w) (data + length)
  ∧ slice mem' data length = slice mem data length.
Proof.
  intros Hok Hd Hl Hpad. cbv zeta. split; [split; fields; try done; try lia|].
  - apply bytes_ok_wr; [apply bytes_ok_wr|]; done.
  - rewrite rd_wr_ne, rd_wr_eq; [done|lia..].
  - rewrite rd_wr_eq; [done|]. unfold zlen in *. rewrite length_wr. lia.
  - rewrite !slice_wr; [done|lia..].
Qed.

Lemma Inv_empty remaining : 0 ≤ remaining → Inv (MkParser [] remaining).
Proof.
  intros. split; cbn; try done; [by left|constructor|].
  intros lines rest _ _ _ Heq. pose proof (zlen_head_bytes_pos lines) as Hpos.
  apply (f_equal zlen) in Heq. rewrite zlen_app, zlen_nil in Heq.
  pose proof (zlen_nonneg rest). lia.
Qed.

(** The end of [consumePostPadded] on an empty fallback buffer. *)
Lemma consumeFresh_inv remaining mem data length user req (w : World A) :
  bytes_ok mem → 0 ≤ data → 0 ≤ length < 2 ^ 32 → data + length + 2 ≤ zlen mem →
  0 ≤ remaining → remaining = 0 ∨ length = 0 →
  ∃ o, consumeFresh char_is_signed handlers [] remaining mem data length user req w = Some o
       ∧ zlen (fallback (o_parser o)) ≤ MAX_FALLBACK_SIZE
       ∧ (o_returned o = user → Inv (o_parser o)).
Proof.
  intros Hok Hd Hl Hpad Hrem Hone. unfold consumeFresh, fenceAndConsumePostPadded.
  destruct (fence_cursor mem data length req remaining w Hok Hd Hl Hpad) as [HF _].
  destruct (loop_fenced user (S (Z.to_nat length)) _ _ HF) as (c & r & -> & Hpost);
    [fields; lia|done|done|].
  cbn [mbind option_bind]. fields.
  destruct (Z.eqb_spec r user) as [->|Hr]; cbn [negb]; cycle 1.
  { eexists. split; [done|]. cbn. split; [by vm_compute|done]. }
  destruct (Hpost eq_refl) as (HFc & Hcons & Hremc & Hend). fields.
  pose proof HFc as [Hokc Hdc Hlc Hec Hcrc Hlfc Htc Huc].
  replace (length - c_consumedTotal c) with (c_length c) by lia.
  replace (data + c_consumedTotal c) with (c_data c) by lia.
  rewrite (u32_small (c_length c)) by lia.
  destruct (Z.eqb_spec (c_length c) 0) as [E|E]; cbn [negb].
  { eexists. split; [done|]. cbn. split; [by vm_compute|].
    intros _. by apply Inv_empty. }
  destruct (Z.ltb_spec (c_length c) MAX_FALLBACK_SIZE) as [Hlt|Hge].
  - eexists. split; [done|]. cbn [o_parser o_returned fallback app].
    pose proof (zlen_slice_le (c_mem c) (c_data c) (c_length c) Hlc).
    split; [lia|]. intros _. destruct Hend as [?|[Hr0 Hno]]; [done|].
    split; cbn [fallback remainingStreamingBytes]; [done|by right|lia| |done].
    by apply bytes_ok_slice.
  - destruct (callError _ _ _) as [w' r']. eexists. split; [done|]. cbn.
    split; [by vm_compute|]. intros _. by apply Inv_empty.
Qed.

(** The streaming of a length-delimited body either returns, or goes on
    behind the body with no body in progress. *)
Lemma resumeLength_cases remaining mem data length user (w : World A) :
  0 ≤ remaining →
  match resumeLength handlers remaining mem data length user w with
  | Returned remaining' _ _ => 0 ≤ remaining'
  | Continue remaining' data' length' _ =>
      remaining' = 0 ∧ data' = data + remaining ∧ length' = u32 (length - remaining)
      ∧ remaining < length
  end.
Proof.
  intros Hrem. unfold resumeLength. destruct (Z.leb_spec length remaining).
  - destruct (callData _ _ _ _ _) as [w' r].
    pose proof (Z.mod_pos_bound (remaining - length) (2 ^ 32)). unfold u32. lia.
  - destruct (callData _ _ _ _ _) as [w' r]. by destruct (negb (r =? user)).
Qed.

(** A head that begins in a fallback buffer without a complete head ends
    behind it. *)
Lemma head_beyond (fb d : list Z) n : NoHead fb → HeadPrefix n (fb ++ d) → zlen fb < n.
Proof.
  intros Hno (lines & rest & Heq & Hn & Hne & Hv & Hlen).
  destruct (decide (zlen fb < n)) as [|Hge]; [done|]. exfalso.
  apply (Hno lines (take (Z.to_nat (zlen fb - n)) rest)); try done.
  apply (f_equal (take (length fb))) in Heq.
  rewrite take_app_length, take_app, take_ge in Heq by (unfold zlen in *; lia).
  etrans; [exact Heq|]. do 2 f_equal. unfold zlen in *. lia.
Qed.

(** Every call on a parser in a state [Inv] returns; the fallback buffer
    stays within its bound; and when the call hands back the token it was
    given, the state is again one of [Inv]. *)
Lemma consume_inv (p : HttpParser) (k : Call) (w : World A) :
  Inv p → call_ok k →
  ∃ o, consume char_is_signed handlers p k w = Some o
       ∧ zlen (fallback (o_parser o)) ≤ MAX_FALLBACK_SIZE
       ∧ (o_returned o = call_user k → Inv (o_parser o)).
Proof.
  destruct p as [fb rsb], k as [mem data length user req].
  intros [Hrem Hone Hbound Hbytes Hno] [Hok Hd Hl Hpad].
  cbn [fallback remainingStreamingBytes call_mem call_data call_length call_user] in *.
  unfold MINIMUM_HTTP_POST_PADDING in Hpad.
  unfold consume, consumePostPadded.
  cbn [fallback remainingStreamingBytes call_mem call_data call_length call_user call_req].
  cbv zeta.
  destruct (Z.eqb_spec rsb 0) as [->|Hrsb]; cbn [negb].
  2: { destruct Hone as [->|?]; [|done].
       destruct (isParsingChunkedEncoding rsb) eqn:Hchunk.
       - pose proof (chunk_window (slice mem data length) rsb) as Hw.
         pose proof (chunk_state (slice mem data length) rsb Hrem) as Hst.
         pose proof (chunk_drains (slice mem data length) rsb Hchunk) as Hdr.
         pose proof (zlen_slice_le mem data length ltac:(lia)) as Hs.
         destruct (ChunkIterator _ _) as [[chunks rest] st]. cbn [fst snd] in *.
         rewrite (u32_small rest) by lia.
         apply consumeFresh_inv; try done; try lia;
           destruct Hdr; ((by right) || (by left)).
       - pose proof (resumeLength_cases rsb mem data length user w Hrem) as Hcase.
         destruct (resumeLength _ _ _ _ _ _ _) as [rsb' w' r|rsb' data' length' w'].
         + eexists. split; [done|]. cbn. split; [by vm_compute|]. intros _.
           by apply Inv_empty.
         + destruct Hcase as (-> & -> & -> & Hlt). rewrite u32_small by lia.
           apply consumeFresh_inv; try done; try lia; by left. }
  destruct (Z.eqb_spec (zlen fb) 0) as [E|E]; cbn [negb].
  { assert (fb = []) as -> by (destruct fb; [done|rewrite zlen_cons in E;
                                 pose proof (zlen_nonneg fb); lia]).
    apply consumeFresh_inv; try done; try lia; by left. }
  pose proof (zlen_nonneg fb) as Hfb0. unfold MAX_FALLBACK_SIZE in Hbound.
  unfold u64. rewrite (Z.mod_small (MAX_FALLBACK_SIZE - zlen fb))
    by (unfold MAX_FALLBACK_SIZE; lia).
  set (m := Z.min (MAX_FALLBACK_SIZE - zlen fb) length).
  assert (0 ≤ m ≤ length ∧ zlen fb + m ≤ 4096) as Hm by (unfold m, MAX_FALLBACK_SIZE; lia).
  set (fbn := fb ++ slice mem data m).
  assert (zlen fbn = zlen fb + m) as Hfbn.
  { unfold fbn. rewrite zlen_app, zlen_slice; lia. }
  assert (bytes_ok fbn) as Hokn.
  { apply Forall_app. split; [done|by apply bytes_ok_slice]. }
  rewrite (u32_small (zlen fb)), (u32_small (zlen fbn)) by lia.
  set (fbmem := fbn ++ replicate (Z.to_nat MINIMUM_HTTP_POST_PADDING) 0).
  assert (bytes_ok fbmem) as Hokm.
  { apply Forall_app. split; [done|]. apply Forall_replicate. lia. }
  assert (zlen fbmem = zlen fbn + 32) as Hlenm.
  { unfold fbmem. rewrite zlen_app. unfold zlen at 2. by rewrite length_replicate. }
  unfold fenceAndConsumePostPadded.
  destruct (fence_cursor fbmem 0 (zlen fbn) req 0 w Hokm ltac:(lia) ltac:(lia) ltac:(lia))
    as [HF Hslice].
  assert (slice fbmem 0 (zlen fbn) = fbn) as Hwin.
  { unfold slice, fbmem. cbn [Z.to_nat drop]. unfold zlen. rewrite Nat2Z.id.
    apply take_app_length. }
  rewrite Hwin in Hslice.
  cbn [fenceAndConsume_loop].
  destruct (step_fenced true user _ _ HF) as (s & -> & Hs).
  destruct s as [c r|c]; [|by destruct Hs]. cbn [StepOk] in Hs. cbn [mbind option_bind].
  assert (∀ mem' : list Z,
    zlen (take (Z.to_nat (zlen fbn)) mem') ≤ MAX_FALLBACK_SIZE) as Htake.
  { intros mem'. unfold zlen, MAX_FALLBACK_SIZE in *. rewrite length_take. lia. }
  destruct Hs as [(_ & E0 & _)|[(-> & Hfail)|(c1 & n & HP & Hs)]]; [fields; lia| |].
  - destruct Hfail as [_ Hd' Hl' Ht' Hr' Hw' Hok' Hpat Hnoh]. fields.
    rewrite Z.eqb_refl, Ht'. cbn [negb Z.eqb].
    assert (Inv (MkParser (take (Z.to_nat (zlen fbn)) (c_mem c)) (c_remaining c))) as HI.
    { split; cbn [fallback remainingStreamingBytes]; [lia|right; lia|apply Htake| |].
      - by apply Forall_take.
      - unfold window, slice in Hnoh. rewrite Hd', Hl' in Hnoh. exact Hnoh. }
    destruct (zlen (take _ _) =? MAX_FALLBACK_SIZE).
    + destruct (callError _ _ _) as [w' r']. eexists. split; [done|]. cbn. by split.
    + eexists. split; [done|]. cbn. by split.
  - destruct HP as [Hn Hhead Hd1 Hl1 Ht1 Hr1 Hpat1 HF1]. fields.
    unfold window in Hhead. fields. rewrite Hslice in Hhead.
    pose proof (head_beyond fb _ n Hno Hhead) as Hbeyond.
    destruct Hs as [(Hr & ->)|(-> & _ & ->)].
    + destruct (Z.eqb_spec r user) as [|_]; [done|]. cbn [negb].
      eexists. split; [done|]. cbn. split; [apply Htake|done].
    + rewrite Z.eqb_refl. cbn [negb].
      destruct (frameBody_true user c1) as (Hm2 & Hd2 & Hl2 & Ht2 & Hr2).
      set (c2 := frameBody _ _ _ _ _) in *.
      rewrite Ht2, Ht1. replace (0 + n) with n by lia.
      destruct (Z.eqb_spec n 0) as [|_]; [lia|]. cbn [negb].
      rewrite (u32_small (n - zlen fb)) by lia.
      rewrite (u32_small (length - _)) by lia.
      destruct (Z.eqb_spec (c_remaining c2) 0) as [E2|E2]; cbn [negb].
      * rewrite E2. apply consumeFresh_inv; try done; try lia; by left.
      * pose proof (resumeLength_cases (c_remaining c2) mem (data + (n - zlen fb))
                      (length - (n - zlen fb)) user (c_world c2) ltac:(lia)) as Hcase.
        destruct (resumeLength _ _ _ _ _ _ _) as [rsb' w' r|rsb' data' length' w'].
        -- eexists. split; [done|]. cbn. split; [by vm_compute|]. intros _.
           by apply Inv_empty.
        -- destruct Hcase as (-> & -> & -> & Hlt). rewrite u32_small by lia.
           apply consumeFresh_inv; try done; try lia; by left.
Qed.

End Driver.

(** ** The parser between the calls on a connection *)

Section Connection.

Context `{BloomFilterOps} `{ChunkedEncoding} `{!ChunkedEncodingLaws}.
Variable char_is_signed : bool.
Context {A : Type} (handlers : Handlers A).

(** All calls on a connection return, and each leaves the fallback buffer
    within its bound and, if it hands back the token it was given, the
    parser in a state [Inv]. *)
Lemma consume_calls_inv (calls : list Call) : ∀ (p : HttpParser) (w : World A),
  Inv p → Forall call_ok calls →
  ∃ outs,
    consume_calls char_is_signed handlers p w calls = Some outs
    ∧ Forall (λ ko, zlen (fallback (o_parser ko.2)) ≤ MAX_FALLBACK_SIZE
                    ∧ (o_returned ko.2 = call_user ko.1 → Inv (o_parser ko.2))) outs.
Proof.
  induction calls as [|k calls IH]; intros p w Hp Hcalls.
  - exists []. by split.
  - inversion Hcalls as [|?? Hk Hcalls']; subst. cbn [consume_calls].
    destruct (consume_inv char_is_signed handlers p k w Hp Hk) as (o & -> & Hb & Hinv).
    destruct (Z.eqb_spec (o_returned o) (call_user k)) as [E|E].
    + destruct (IH (o_parser o) (o_world o) (Hinv E) Hcalls') as (outs & -> & Houts).
      eexists. split; [done|]. by constructor.
    + eexists. split; [done|]. by repeat constructor.
Qed.

(** The calls made are the given ones, up to and including the first that
    returns another token. *)
Lemma consume_calls_made (calls : list Call) : ∀ (p : HttpParser) (w : World A) outs,
  consume_calls char_is_signed handlers p w calls = Some outs →
  map fst outs = take (length outs) calls
  ∧ (Forall (λ ko, o_returned ko.2 = call_user ko.1) outs → length outs = length calls).
Proof.
  induction calls as [|k calls IH]; intros p w outs Hrun; cbn [consume_calls] in Hrun.
  - by inversion Hrun.
  - destruct (consume _ _ _ _ _) as [o|]; [|done].
    destruct (Z.eqb_spec (o_returned o) (call_user k)) as [E|E].
    + destruct (consume_calls _ _ _ _ _) as [os|] eqn:Hos; [|done]. inversion Hrun; subst.
      destruct (IH _ _ _ Hos) as [Hfst Hall]. cbn. split; [by f_equal|].
      intros Hf. inversion Hf; subst. f_equal. by apply Hall.
    + inversion Hrun; subst. cbn. split; [done|]. intros Hf. by inversion Hf.
Qed.

(** A window of 4096 bytes or more without a complete head, on a parser
    that carries nothing over: the error handler is called and nothing is
    kept. *)
Lemma consume_residual_no_head (p : HttpParser) (k : Call) (w : World A) :
  call_ok k → fallback p = [] → remainingStreamingBytes p = 0 →
  NoHead (slice (call_mem k) (call_data k) (call_length k)) →
  MAX_FALLBACK_SIZE ≤ call_length k →
  consume char_is_signed handlers p k w
  = Some (MkOutcome p (callError handlers w (call_user k)).1
                    (callError handlers w (call_user k)).2).
Proof.
  destruct p as [fb rsb], k as [mem data length user req].
  intros [Hok Hd Hl Hpad] Hfb Hrsb Hno Hlen.
  cbn [fallback remainingStreamingBytes call_mem call_data call_length call_user] in *.
  subst fb rsb. unfold MINIMUM_HTTP_POST_PADDING, MAX_FALLBACK_SIZE in *.
  unfold consume, consumePostPadded.
  cbn [fallback remainingStreamingBytes call_mem call_data call_length call_user call_req].
  cbn [Z.eqb negb]. rewrite zlen_nil. cbn [Z.eqb negb].
  unfold consumeFresh, fenceAndConsumePostPadded.
  destruct (fence_cursor mem data length req 0 w Hok Hd Hl ltac:(lia)) as [HF Hslice].
  cbn [fenceAndConsume_loop].
  destruct (step_fenced char_is_signed handlers false user _ _ HF) as (s & -> & Hs).
  destruct s as [c r|c]; cbn [StepOk] in Hs.
  - destruct Hs as [(_ & E0 & _)|[(-> & Hfail)|(c1 & n & HP & _)]]; [fields; lia| |].
    + destruct Hfail as [_ Hd' Hl' Ht' Hr' Hw' Hok' Hpat Hnoh]. fields.
      cbn [mbind option_bind]. rewrite Z.eqb_refl, Ht', Hr', Hw', Z.sub_0_r. cbn [negb].
      rewrite u32_small by lia.
      destruct (Z.eqb_spec length 0) as [|_]; [lia|]. cbn [negb].
      destruct (Z.ltb_spec length MAX_FALLBACK_SIZE) as [Hlt|_];
        [unfold MAX_FALLBACK_SIZE in Hlt; lia|].
      by destruct (callError _ _ _).
    + destruct HP as [_ (lines & rest & Hw & _ & Hne & Hv & Hlines) _ _ _ _ _ _].
      unfold window in Hw. fields. rewrite Hslice in Hw. by destruct (Hno lines rest).
  - destruct Hs as (_ & c1 & n & HP & _).
    destruct HP as [_ (lines & rest & Hw & _ & Hne & Hv & Hlines) _ _ _ _ _ _].
    unfold window in Hw. fields. rewrite Hslice in Hw. by destruct (Hno lines rest).
Qed.


(** On a parser that carries head bytes over, when these and what fits of
    the window fill the fallback buffer without making a complete head,
    the error handler is called and its result is returned; the buffer
    stays full, and holds bytes. *)
Lemma consume_fallback_full_bytes (p : HttpParser) (k : Call) (w : World A) :
  Inv p → call_ok k → remainingStreamingBytes p = 0 → fallback p ≠ [] →
  let fb := fallback p
            ++ slice (call_mem k) (call_data k)
                     (Z.min (MAX_FALLBACK_SIZE - zlen (fallback p)) (call_length k)) in
  zlen fb = MAX_FALLBACK_SIZE → NoHead fb →
  ∃ fb',
    consume char_is_signed handlers p k w
    = Some (MkOutcome (MkParser fb' 0) (callError handlers w (call_user k)).1
                      (callError handlers w (call_user k)).2)
    ∧ pattern fb' = pattern fb ∧ bytes_ok fb'.
Proof.
  destruct p as [fb rsb], k as [mem data length user req].
  intros [Hrem Hone Hbound Hbytes Hno] [Hok Hd Hl Hpad] Hrsb Hne.
  cbn [fallback remainingStreamingBytes call_mem call_data call_length call_user] in *.
  subst rsb. unfold MINIMUM_HTTP_POST_PADDING in Hpad.
  pose proof (zlen_nonneg fb) as Hfb0.
  set (m := Z.min (MAX_FALLBACK_SIZE - zlen fb) length).
  assert (0 ≤ m ≤ length) as Hm by (unfold m, MAX_FALLBACK_SIZE in *; lia).
  cbv zeta. set (fbn := fb ++ slice mem data m). intros Hfull Hnon.
  unfold consume, consumePostPadded.
  cbn [fallback remainingStreamingBytes call_mem call_data call_length call_user call_req].
  cbv zeta. cbn [Z.eqb negb].
  destruct (Z.eqb_spec (zlen fb) 0) as [E|_];
    [destruct fb; [done|rewrite zlen_cons in E; pose proof (zlen_nonneg fb); lia]|].
  cbn [negb]. unfold u64. rewrite (Z.mod_small (MAX_FALLBACK_SIZE - zlen fb))
    by (unfold MAX_FALLBACK_SIZE in *; lia).
  fold m. fold fbn. unfold MAX_FALLBACK_SIZE in Hfull, Hbound.
  assert (bytes_ok fbn) as Hokn.
  { apply Forall_app. split; [done|by apply bytes_ok_slice]. }
  rewrite (u32_small (zlen fbn)) by lia.
  set (fbmem := fbn ++ replicate (Z.to_nat MINIMUM_HTTP_POST_PADDING) 0).
  assert (bytes_ok fbmem) as Hokm.
  { apply Forall_app. split; [done|]. apply Forall_replicate. lia. }
  assert (zlen fbmem = zlen fbn + 32) as Hlenm.
  { unfold fbmem. rewrite zlen_app. unfold zlen at 2. by rewrite length_replicate. }
  unfold fenceAndConsumePostPadded.
  destruct (fence_cursor fbmem 0 (zlen fbn) req 0 w Hokm ltac:(lia) ltac:(lia) ltac:(lia))
    as [HF Hslice].
  assert (slice fbmem 0 (zlen fbn) = fbn) as Hwin.
  { unfold slice, fbmem. cbn [Z.to_nat drop]. unfold zlen. rewrite Nat2Z.id.
    apply take_app_length. }
  rewrite Hwin in Hslice.
  cbn [fenceAndConsume_loop].
  destruct (step_fenced char_is_signed handlers true user _ _ HF) as (s & -> & Hs).
  destruct s as [c r|c]; [|by destruct Hs]. cbn [StepOk] in Hs. cbn [mbind option_bind].
  destruct Hs as [(_ & E0 & _)|[(-> & Hfail)|(c1 & n & HP & _)]]; [fields; lia| |].
  - destruct Hfail as [_ Hd' Hl' Ht' Hr' Hw' Hok' Hpat Hnoh]. fields.
    rewrite Z.eqb_refl, Ht', Hr', Hw'. cbn [negb Z.eqb].
    pose proof (pattern_slice _ _ 0 (zlen fbn) Hpat) as Hpats.
    rewrite Hslice in Hpats. unfold slice in Hpats at 1.
    change (Z.to_nat 0) with 0%nat in Hpats. rewrite drop_0 in Hpats.
    pose proof (pattern_length _ _ Hpats) as Hlen'.
    destruct (Z.eqb_spec (zlen (take (Z.to_nat (zlen fbn)) (c_mem c))) MAX_FALLBACK_SIZE)
      as [_|Hwrong]; [|unfold zlen, MAX_FALLBACK_SIZE in *; lia].
    eexists. split; [by destruct (callError _ _ _)|]. split; [done|by apply Forall_take].
  - destruct HP as [_ (lines & rest & Hw & _ & Hnel & Hv & Hlines) _ _ _ _ _ _].
    unfold window in Hw. fields. rewrite Hslice in Hw. by destruct (Hnon lines rest).
Qed.


(** C6.  After every call on a connection that hands back the token it
    was given, the fallback buffer is empty or [remainingStreamingBytes]
    is 0: head bytes are carried over only while no body is in progress.
    The calls are those of a connection from its start: each on a window
    of a padded buffer, the next made only if the one before returned the
    token it was given; every one of them returns.  The chunked decoder is
    any that satisfies [ChunkedEncodingLaws]. *)
Theorem fallback_or_body (calls : list Call) (w : World A) :
  Forall call_ok calls →
  ∃ outs,
    consume_calls char_is_signed handlers (MkParser [] 0) w calls = Some outs
    ∧ Forall (λ ko, o_returned ko.2 = call_user ko.1 →
                    fallback (o_parser ko.2) = []
                    ∨ remainingStreamingBytes (o_parser ko.2) = 0) outs.
Proof.
  intros Hcalls.
  destruct (consume_calls_inv calls (MkParser [] 0) w (Inv_empty 0 ltac:(lia)) Hcalls)
    as (outs & Hrun & Houts).
  exists outs. split; [done|].
  eapply Forall_impl; [exact Houts|]. intros [k o] [_ Hinv] Hr. by destruct (Hinv Hr).
Qed.


End Connection.

(** ** The modelled decoder satisfies the laws the parser relies on *)

Lemma land_lor_top a y : Z.land a 0xC0000000 ≠ 0 → Z.land (Z.lor a y) 0xC0000000 ≠ 0.
Proof. rewrite Z.land_lor_distr_l, Z.lor_eq_0_iff. tauto. Qed.

Lemma land_land_top st : Z.land st 0xC0000000 ≠ 0 → Z.land (Z.land st 0xC0000000) 0xC0000000 ≠ 0.
Proof. by rewrite <- Z.land_assoc, Z.land_diag. Qed.

Lemma spec_decode_laws d : ∀ st acc,
  0 ≤ (spec_decode d st acc).1.2 ≤ zlen d
  ∧ (0 ≤ st → 0 ≤ (spec_decode d st acc).2)
  ∧ (Z.land st 0xC0000000 ≠ 0 ∨ st = 0 →
     (spec_decode d st acc).1.2 = 0 ∨ (spec_decode d st acc).2 = 0).
Proof.
  induction d as [|c d IH]; intros st acc; cbn [spec_decode].
  { cbn. split_and!; [done|done|done|by left]. }
  cbv zeta. rewrite zlen_cons. pose proof (zlen_nonneg d) as Hd.
  assert (∀ st' acc' (x : list (list Z) → list (list Z)),
    (0 ≤ st → 0 ≤ st') → Z.land st' 0xC0000000 ≠ 0 ∨ st' = 0 →
    let r := (let '(chunks, rest, st2) := spec_decode d st' acc' in
              (x chunks, rest, st2)) in
    0 ≤ r.1.2 ≤ 1 + zlen d ∧ (0 ≤ st → 0 ≤ r.2)
    ∧ (Z.land st 0xC0000000 ≠ 0 ∨ st = 0 → r.1.2 = 0 ∨ r.2 = 0)) as Hrec.
  { intros st' acc' x Hpos Hgood. cbv zeta. destruct (IH st' acc') as (Hw & Hs & Hdr).
    destruct (spec_decode d st' acc') as [[chunks rest] st2]. cbn [fst snd] in *.
    split_and!; [lia|lia|auto|auto]. }
  assert (∀ st' acc',
    (0 ≤ st → 0 ≤ st') → Z.land st' 0xC0000000 ≠ 0 ∨ st' = 0 →
    0 ≤ (spec_decode d st' acc').1.2 ≤ 1 + zlen d
    ∧ (0 ≤ st → 0 ≤ (spec_decode d st' acc').2)
    ∧ (Z.land st 0xC0000000 ≠ 0 ∨ st = 0 →
       (spec_decode d st' acc').1.2 = 0 ∨ (spec_decode d st' acc').2 = 0)) as Hrec'.
  { intros st' acc' Hpos Hgood. pose proof (Hrec st' acc' (λ x, x) Hpos Hgood) as Hr.
    cbv zeta in Hr. by destruct (spec_decode d st' acc') as [[chunks rest] st2]. }
  assert (0 ≤ Z.land st STATE_SIZE_MASK) as Hn
    by (apply Z.land_nonneg; right; by vm_compute).
  destruct (Z.eqb_spec (Z.land st 0xC0000000) 0) as [Etop|Etop].
  { cbn [fst snd]. split_and!; [lia|lia|done|]. intros [? | ->]; [done|by right]. }
  destruct (Z.eqb_spec (Z.land st STATE_HAS_SIZE) 0) as [Esize|Esize].
  - destruct (hex_digit c) as [v|].
    + apply Hrec'; [|left; by apply land_lor_top].
      intros _. apply Z.lor_nonneg. split; [done|]. apply Z.land_nonneg. right. by vm_compute.
    + destruct (c =? LF); [|apply Hrec'; [done|by left]].
      destruct (Z.land st STATE_SIZE_MASK =? 0).
      * apply (Hrec _ _ (λ chunks, [] :: chunks)); [done|left; by vm_compute].
      * apply Hrec'; [|left; by apply land_lor_top].
        intros _. apply Z.lor_nonneg. split; [done|]. apply Z.land_nonneg. right.
        by vm_compute.
  - assert (2 ≤ Z.land st STATE_SIZE_MASK →
            (0 ≤ st → 0 ≤ Z.lor (Z.land st 0xC0000000) (Z.land st STATE_SIZE_MASK - 1))
            ∧ (Z.land (Z.lor (Z.land st 0xC0000000) (Z.land st STATE_SIZE_MASK - 1))
                      0xC0000000 ≠ 0
               ∨ Z.lor (Z.land st 0xC0000000) (Z.land st STATE_SIZE_MASK - 1) = 0))
      as Hpack.
    { intros Hn2. split.
      - intros _. apply Z.lor_nonneg. split; [|lia]. apply Z.land_nonneg. right.
        by vm_compute.
      - left. by apply land_lor_top, land_land_top. }
    destruct (Z.ltb_spec 3 (Z.land st STATE_SIZE_MASK)) as [E3|E3].
    { destruct Hpack as [? ?]; [lia|]. by apply Hrec'. }
    destruct (Z.eqb_spec (Z.land st STATE_SIZE_MASK) 3) as [E3'|E3'].
    { destruct Hpack as [? ?]; [lia|].
      by apply (Hrec _ _ (λ chunks, rev (c :: acc) :: chunks)). }
    destruct (Z.eqb_spec (Z.land st STATE_SIZE_MASK) 2) as [E2|E2].
    { destruct Hpack as [? ?]; [lia|]. by apply Hrec'. }
    destruct (Z.land st 0x40000000 =? 0).
    + apply Hrec'; [done|left; by vm_compute].
    + apply Hrec'; [done|by right].
Qed.

#[export] Instance spec_chunked_laws : ChunkedEncodingLaws.
Proof.
  split.
  - intros d st. apply (spec_decode_laws d st []).
  - intros d st. apply (spec_decode_laws d st []).
  - intros d st Hst. apply (spec_decode_laws d st []). left.
    cbn in Hst. by destruct (Z.eqb_spec (Z.land st 3221225472) 0).
  - by vm_compute.
  - by vm_compute.
Qed.

(** ** The collaborators modelled from the specification, and test inputs *)

#[export] Instance spec_bloom_sound : BloomFilterSound.
Proof.
  assert (∀ k, 0 ≤ bloom_hash k) as Hh.
  { intros k. unfold bloom_hash. apply Z.mod_pos_bound. lia. }
  split; cbn; intros.
  - rewrite Z.lor_spec, Z.shiftl_spec, Z.sub_diag by apply Hh. apply orb_true_r.
  - rewrite Z.lor_spec. by apply orb_true_intro; left.
Qed.

Lemma bytes_ok_check (l : list Z) : forallb (λ c, (0 <=? c) && (c <? 256)) l = true → bytes_ok l.
Proof.
  intros Hl. apply Forall_forall. intros c Hc. rewrite forallb_forall in Hl.
  apply list_elem_of_In, Hl in Hc. lia.
Qed.

Lemma no_cr_check (l : list Z) : forallb (λ c, negb (c =? 13)) l = true → no_cr l.
Proof.
  intros Hl. apply Forall_forall. intros c Hc. rewrite forallb_forall in Hl.
  apply list_elem_of_In, Hl in Hc. lia.
Qed.

Lemma key_bytes_check (l : list Z) :
  forallb is_key_byte l = true → Forall (λ c, is_key_byte c = true) l.
Proof.
  intros Hl. apply Forall_forall. intros c Hc. rewrite forallb_forall in Hl.
  by apply list_elem_of_In, Hl in Hc.
Qed.

Lemma valid_lines_check (ls : list (list Z)) :
  forallb (λ l, forallb (λ c, negb (c =? 13)) l) ls = true →
  forallb (λ l : list Z, negb (bool_decide (l = []))) (tail ls) = true →
  valid_lines ls.
Proof.
  intros H1 H2. split; apply Forall_forall; intros l Hl.
  - apply no_cr_check. rewrite forallb_forall in H1. by apply H1, list_elem_of_In.
  - rewrite forallb_forall in H2. apply list_elem_of_In, H2 in Hl.
    by apply negb_true_iff, bool_decide_eq_false in Hl.
Qed.

Section Examples.

Context {A : Type}.

Lemma HeadAt_check (c : Cursor A) lines post :
  c_mem c = head_bytes lines ++ post → c_data c = 0 →
  lines ≠ [] →
  forallb (λ l, forallb (λ c, negb (c =? 13)) l) lines = true →
  forallb (λ l : list Z, negb (bool_decide (l = []))) (tail lines) = true →
  zlen lines ≤ MAX_HEADERS - 1 →
  forallb (λ c, (0 <=? c) && (c <? 256)) (c_mem c) = true →
  length (headers (c_req c)) = Z.to_nat MAX_HEADERS →
  zlen (head_bytes lines) ≤ c_length c < 2 ^ 32 →
  HeadAt c [] lines post.
Proof.
  intros. split; try done.
  - split; [done|]. split; [by apply valid_lines_check|done].
  - by apply bytes_ok_check.
Qed.

End Examples.

(** *** Inputs on which the properties are observed *)

Lemma getHeaders_fixture :
  summary (run keep fresh_parser
             (bytes "GET /a?b=1 HTTP/1.1" ++ CRLF ++ bytes "Host: x" ++ CRLF ++ CRLF) 7)
  = Some (fresh_parser,
          [SeenRequest (bytes "get") (bytes "/a") (bytes "b=1") false 7;
           SeenData [] true 7], 7).
Proof. by vm_compute. Qed.

Ltac head_at :=
  apply HeadAt_check;
  [reflexivity | reflexivity | discriminate | by vm_compute | by vm_compute
  | by vm_compute | by vm_compute | reflexivity | by vm_compute].

Lemma sample_head : HeadAt sample_cursor [] (sample_request_line :: sample_headers) sample_post.
Proof. head_at. Qed.

Lemma sample_post_head :
  HeadAt sample_post_cursor [] (sample_post_line :: sample_post_headers)
         (bytes "ABCDE" ++ sample_post).
Proof. head_at. Qed.

(** *** C8 *)

(** C8, observed on GET /a?b=1 HTTP/1.0 with one header line. *)
Lemma ancient_iff_last_zero_witness :
  ∃ s returned more,
    fenceAndConsume_step true keep false 7 sample_cursor = Some s
    ∧ log (step_cursor s)
      = log sample_cursor
        ++ RequestEvent 7 (head_mem' [] (sample_request_line :: sample_headers) sample_post)
             (head_request sample_cursor [] (sample_request_line :: sample_headers)
                           sample_post) returned :: more
    ∧ (isAncient (head_request sample_cursor [] (sample_request_line :: sample_headers)
                               sample_post) = true
       ↔ last (value_of sample_request_line) = Some 48)
    ∧ (∀ method target version,
         sample_request_line = request_line method target version →
         Forall (λ c, is_key_byte c = true) method → target_start target →
         version ≠ [] →
         (isAncient (head_request sample_cursor [] (sample_request_line :: sample_headers)
                                  sample_post) = true
          ↔ last version = Some 48)).
Proof.
  exact (ancient_iff_last_zero true keep false 7 sample_cursor [] sample_request_line
           sample_headers sample_post sample_head).
Defined.

(** C8, against the claim as stated.  The flag is set for a request line
    that does not end with "HTTP/1.0". *)
Lemma ancient_for_http_2_0 :
  summary (run keep fresh_parser (bytes "GET / HTTP/2.0" ++ CRLF ++ CRLF) 7)
  = Some (fresh_parser,
          [SeenRequest (bytes "get") (bytes "/") [] true 7; SeenData [] true 7], 7)
  ∧ drop 6 (bytes "GET / HTTP/2.0") ≠ bytes "HTTP/1.0".
Proof. split; by vm_compute. Qed.

(** *** C3 *)

(** C3, observed on the same request: the target /a?b=1. *)
Lemma url_query_is_target_witness :
  ∃ s returned more,
    fenceAndConsume_step true keep false 7 sample_cursor = Some s
    ∧ log (step_cursor s)
      = log sample_cursor
        ++ RequestEvent 7 (head_mem' [] (sample_request_line :: sample_headers) sample_post)
             (head_request sample_cursor [] (sample_request_line :: sample_headers)
                           sample_post) returned :: more
    ∧ sv_bytes (head_mem' [] (sample_request_line :: sample_headers) sample_post)
               (getUrl (head_request sample_cursor [] (sample_request_line :: sample_headers)
                                     sample_post))
      ++ (if bool_decide (63 ∈ bytes "/a?b=1")
          then 63 :: sv_bytes (head_mem' [] (sample_request_line :: sample_headers)
                                         sample_post)
                              (getQuery (head_request sample_cursor []
                                           (sample_request_line :: sample_headers)
                                           sample_post))
          else [])
      = bytes "/a?b=1".
Proof.
  apply (url_query_is_target true keep false 7 sample_cursor [] (bytes "GET")
           (bytes "/a?b=1") (bytes "HTTP/1.0") sample_headers sample_post sample_head).
  - by apply key_bytes_check.
  - by vm_compute.
  - reflexivity.
  - by vm_compute.
Defined.

(** C3, against the claim as stated.  A target that ends with a question
    mark: the query is empty and the concatenation is not the target. *)
Lemma url_query_loses_question_mark :
  summary (run keep fresh_parser (bytes "GET /a? HTTP/1.1" ++ CRLF ++ CRLF) 7)
  = Some (fresh_parser,
          [SeenRequest (bytes "get") (bytes "/a") [] false 7; SeenData [] true 7], 7)
  ∧ url_with_query (bytes "/a") [] ≠ bytes "/a?".
Proof. split; by vm_compute. Qed.

(** *** C2 *)

(** C2, observed on the same request: the header Host. *)
Lemma getHeader_first_match_witness :
  let lines := sample_request_line :: sample_headers in
  let mem' := head_mem' [] lines sample_post in
  let req := head_request sample_cursor [] lines sample_post in
  ∃ s returned more,
    fenceAndConsume_step true keep false 7 sample_cursor = Some s
    ∧ log (step_cursor s) = log sample_cursor ++ RequestEvent 7 mem' req returned :: more
    ∧ (∀ name, sv_bytes mem' (getHeader mem' req name) = lookup_header name sample_headers)
    ∧ (∀ fs1 n v fs2,
         sample_headers = map header_line (fs1 ++ (n, v) :: fs2) →
         Forall (λ f, token f.1) (fs1 ++ (n, v) :: fs2) →
         Forall (λ c, 48 ≤ c ≤ 57 ∨ 65 ≤ c ≤ 90 ∨ 97 ≤ c ≤ 122 ∨ c = 45) n →
         Forall (λ f, lower f.1 ≠ lower n) fs1 →
         sv_bytes mem' (getHeader mem' req (map ascii_lower n)) = v)
    ∧ (∀ fields name,
         sample_headers = map header_line fields → Forall (λ f, token f.1) fields →
         Forall (λ f, lower f.1 ≠ name) fields →
         sv_bytes mem' (getHeader mem' req name) = []).
Proof.
  exact (getHeader_first_match true keep false 7 sample_cursor [] sample_request_line
           sample_headers sample_post sample_head).
Defined.

(** C2, against the claim as stated.  A header whose name holds an
    underscore is not found under its lower-cased name, and of two headers
    with one name the second value is not found. *)
Lemma getHeader_misses_underscore :
  (from_option (λ o, omap (seen_header (map ascii_lower (bytes "X_Y"))) (o_world o).2) []
     (run keep fresh_parser
          (bytes "GET / HTTP/1.1" ++ CRLF ++ bytes "X_Y: 1" ++ CRLF ++ CRLF) 7)
   = [[]])
  ∧ map ascii_lower (bytes "X_Y") = bytes "x_y"
  ∧ (from_option (λ o, omap (seen_header (map ascii_lower (bytes "Tag"))) (o_world o).2) []
       (run keep fresh_parser
            (bytes "GET / HTTP/1.1" ++ CRLF ++ bytes "Tag: 1" ++ CRLF ++ bytes "Tag: 2"
             ++ CRLF ++ CRLF) 7)
     = [bytes "1"]).
Proof. repeat split; by vm_compute. Qed.

(** *** C4 *)



(** *** C10 *)

(** C10, observed on a POST with Content-Length: 5 and its five bytes. *)
Lemma content_length_unchecked_witness :
  let lines := sample_post_line :: sample_post_headers in
  let post := bytes "ABCDE" ++ sample_post in
  let mem' := head_mem' [] lines post in
  let req := head_request sample_post_cursor [] lines post in
  let total := decimal_value (char_value true) (bytes "5") mod 2 ^ 32 in
  let n := zlen (head_bytes lines) in
  let emittable := Z.min total (c_length sample_post_cursor - n) in
  ∃ s,
    fenceAndConsume_step true keep false 7 sample_post_cursor = Some s
    ∧ ∃ returned',
        s = Again (step_cursor s)
        ∧ c_remaining (step_cursor s) = total - emittable
        ∧ log (step_cursor s)
          = log sample_post_cursor
            ++ [RequestEvent 7 mem' req 7;
                DataEvent 7 (slice mem' (c_data sample_post_cursor + n) emittable)
                          (emittable =? total) returned'].
Proof.
  apply (content_length_unchecked true keep false 7 sample_post_cursor []
           sample_post_line sample_post_headers (bytes "ABCDE" ++ sample_post)
           sample_post_head).
  - by vm_compute.
  - by vm_compute.
  - reflexivity.
Defined.

(** C10, against the claim as stated.  A Content-Length header with an
    empty value: the body is taken to be chunked, where the accumulation
    over no byte at all is 0; and values that are no numerals or do not fit
    30 bits are stored as they come. *)
Lemma content_length_empty_is_chunked :
  summary (run keep fresh_parser
             (bytes "POST / HTTP/1.1" ++ CRLF ++ bytes "Content-Length:" ++ CRLF ++ CRLF) 7)
  = Some (MkParser [] (@STATE_IS_CHUNKED spec_chunked),
          [SeenRequest (bytes "post") (bytes "/") [] false 7], 7)
  ∧ decimal_value (char_value true) [] mod 2 ^ 32 = 0
  ∧ @STATE_IS_CHUNKED spec_chunked ≠ 0.
Proof. repeat split; by vm_compute. Qed.

(** *** C9 *)

(** C9, observed on a pair with last index 1 and two parameters. *)
Lemma getParameter_last_index_witness :
  getParameter (setParameters fresh_request (1, [SV 0 1; SV 2 3])) 1 = Some (SV 2 3)
  ∧ getParameter (setParameters fresh_request (1, [SV 0 1; SV 2 3])) 2 = Some sv_null.
Proof.
  split.
  - destruct (getParameter_last_index fresh_request 1 [SV 0 1; SV 2 3] 1) as [Hin _];
      [by vm_compute|]. apply Hin. lia.
  - destruct (getParameter_last_index fresh_request 1 [SV 0 1; SV 2 3] 2) as [_ Hout];
      [by vm_compute|]. apply Hout. lia.
Defined.

(** C9, against the claim as stated.  With the count as first component,
    the index equal to the count is read from the array: from the slot
    behind the parameters, or from outside the array. *)
Lemma getParameter_at_count :
  getParameter (setParameters fresh_request (1, [SV 0 1; SV 2 3])) 1 = Some (SV 2 3)
  ∧ getParameter (setParameters fresh_request (1, [SV 0 1])) 1 = None
  ∧ Some (SV 2 3) ≠ Some sv_null.
Proof. repeat split; by vm_compute. Qed.

(** *** C1 *)

(** C1, the divergence.  Two requests in one call, and a data handler that
    returns another token at its first invocation: the loop goes on, both
    callbacks are invoked again, and the call returns the token it was
    given. *)
Lemma data_token_dropped :
  summary (run (close_on_data 8) fresh_parser
             (bytes "GET /1 HTTP/1.1" ++ CRLF ++ CRLF ++ bytes "GET /2 HTTP/1.1" ++ CRLF
              ++ CRLF) 7)
  = Some (fresh_parser,
          [SeenRequest (bytes "get") (bytes "/1") [] false 7; SeenData [] true 8;
           SeenRequest (bytes "get") (bytes "/2") [] false 7; SeenData [] true 8], 7).
Proof. by vm_compute. Qed.

(** *** Calls on which the invariants are observed *)

Lemma call_ok_check (k : Call) :
  forallb (λ c, (0 <=? c) && (c <? 256)) (call_mem k) = true →
  (0 <=? call_data k) && (0 <=? call_length k) && (call_length k <? 2 ^ 32)
  && (call_data k + call_length k + MINIMUM_HTTP_POST_PADDING <=? zlen (call_mem k)) = true →
  call_ok k.
Proof. intros Hb Hc. split; [by apply bytes_ok_check|lia..]. Qed.

Lemma split_calls_ok : Forall call_ok split_calls.
Proof.
  unfold split_calls.
  repeat (apply Forall_cons_2; [apply call_ok_check; by vm_compute|]). constructor.
Qed.

(** Observed on a request in two fragments, the first of which ends inside
    the head: the first call invokes no callback and keeps the fragment,
    lower-cased where the decoder has been; the second completes the
    request and empties the fallback buffer. *)
Theorem split_calls_run :
  (λ outs, map (λ ko, summary (Some ko.2)) outs)
    <$> consume_calls true keep fresh_parser (tt, []) split_calls
  = Some [Some (MkParser (bytes "get / HTTP/1.1" ++ CRLF ++ bytes "ho") 0, [], 7);
          Some (fresh_parser,
                [SeenRequest (bytes "get") (bytes "/") [] false 7; SeenData [] true 7], 7)].
Proof. by vm_compute. Qed.

(** C6, observed on the request in two fragments. *)
Lemma fallback_or_body_witness :
  Forall call_ok split_calls
  ∧ ∃ outs,
      consume_calls true keep (MkParser [] 0) (tt, []) split_calls = Some outs
      ∧ Forall (λ ko, o_returned ko.2 = call_user ko.1 →
                      fallback (o_parser ko.2) = []
                      ∨ remainingStreamingBytes (o_parser ko.2) = 0) outs.
Proof.
  split; [exact split_calls_ok|].
  exact (fallback_or_body true keep split_calls (tt, []) split_calls_ok).
Defined.



(** ** Further properties of the scanner, the decoder and the driver *)

(** X1.  On a buffer of bytes [find_cr] returns a position exactly when
    it is that of the first carriage return at or after the starting
    point: the eight-byte words it skips hold none, and the byte loop stops
    at the first. *)
Theorem find_cr_returns_first_cr mem p c :
  bytes_ok mem → 0 ≤ p →
  find_cr mem p = Some c
  ↔ p ≤ c ∧ rd mem c = 13 ∧ ∀ i, p ≤ i < c → rd mem i ≠ 13.
Proof.
  intros Hok Hp. split.
  - by apply find_cr_words_sound.
  - intros (Hc & Hcr & Hfirst). by apply find_cr_first.
Qed.

(** X1, observed on a line of nine bytes before the CR. *)
Lemma find_cr_returns_first_cr_witness :
  find_cr (bytes "Host: abc" ++ [13; 10; 13; 10]) 0 = Some 9
  ↔ 0 ≤ 9 ∧ rd (bytes "Host: abc" ++ [13; 10; 13; 10]) 9 = 13
    ∧ ∀ i, 0 ≤ i < 9 → rd (bytes "Host: abc" ++ [13; 10; 13; 10]) i ≠ 13.
Proof.
  apply (find_cr_returns_first_cr _ 0 9); [apply bytes_ok_check; by vm_compute|lia].
Defined.

(** X2.  On a buffer of bytes whose window is followed by the fence,
    [getHeaders] returns; it changes no byte into or from a CR or an LF and
    none at or behind the fence; and its result is 0 when the window does
    not begin with a complete head of at most 49 lines, and otherwise the
    length of that head, which ends before the fence. *)
Theorem getHeaders_fenced mem p F hs :
  bytes_ok mem → 0 ≤ p ≤ F → F - p < 2 ^ 32 → rd mem F = 13 → rd mem (F + 1) ≠ 10 →
  ∃ mem' hs' k,
    getHeaders mem p hs = Some (mem', hs', k)
    ∧ bytes_ok mem' ∧ pattern mem' = pattern mem
    ∧ (∀ i, F ≤ i → rd mem' i = rd mem i)
    ∧ ((k = 0 ∧ NoHead (slice mem p (F - p)))
       ∨ (0 < k ≤ F - p ∧ ∃ lines rest,
            slice mem p (F - p) = head_bytes lines ++ rest
            ∧ lines ≠ [] ∧ valid_lines lines ∧ zlen lines ≤ MAX_HEADERS - 1
            ∧ zlen (head_bytes lines) = k)).
Proof.
  intros Hok Hp Hlen HF HF1. unfold getHeaders.
  destruct (getHeaders_loop_fenced (Z.to_nat (MAX_HEADERS - 1)) mem p p hs 0 F
              Hok Hp HF HF1) as (mem' & hs' & k & Hrun & Hok' & Hpat & Hframe & Hk).
  exists mem', hs', k. split_and!; [done..|].
  assert (F < zlen mem) as Hin by (apply fence_inside; [done|lia]).
  destruct Hk as [[-> Hnone]|(lines & post & Hmem & Hne & Hv & Hn & -> & Hend)].
  - left. split; [done|]. intros lines rest Hne Hv Hlines Hw.
    apply (Hnone lines (rest ++ drop (Z.to_nat (p + (F - p))) mem));
      [done|done|unfold zlen, MAX_HEADERS in *; lia|].
    rewrite (app_assoc (head_bytes lines)), <- Hw. apply mem_split; lia.
  - right. pose proof (zlen_head_bytes_pos lines) as Hpos.
    replace (p + zlen (head_bytes lines) - p) with (zlen (head_bytes lines)) by lia.
    rewrite u32_small by lia. split; [lia|].
    exists lines, (take (Z.to_nat (F - p - zlen (head_bytes lines))) post).
    split_and!; [|done|done|unfold zlen, MAX_HEADERS in *; lia|done].
    apply slice_head; [lia|lia|done].
Qed.

(** X2, observed on a head of one line before the fence. *)
Lemma getHeaders_fenced_witness :
  ∃ mem' hs' k,
    getHeaders (head_bytes [bytes "GET / HTTP/1.1"] ++ [13; 97]) 0 empty_slots
    = Some (mem', hs', k)
    ∧ bytes_ok mem'
    ∧ pattern mem' = pattern (head_bytes [bytes "GET / HTTP/1.1"] ++ [13; 97])
    ∧ (∀ i, 18 ≤ i → rd mem' i = rd (head_bytes [bytes "GET / HTTP/1.1"] ++ [13; 97]) i)
    ∧ ((k = 0 ∧ NoHead (slice (head_bytes [bytes "GET / HTTP/1.1"] ++ [13; 97]) 0 (18 - 0)))
       ∨ (0 < k ≤ 18 - 0 ∧ ∃ lines rest,
            slice (head_bytes [bytes "GET / HTTP/1.1"] ++ [13; 97]) 0 (18 - 0)
            = head_bytes lines ++ rest
            ∧ lines ≠ [] ∧ valid_lines lines ∧ zlen lines ≤ MAX_HEADERS - 1
            ∧ zlen (head_bytes lines) = k)).
Proof.
  apply (getHeaders_fenced _ 0 18);
    [apply bytes_ok_check; by vm_compute|lia|by vm_compute|done|by vm_compute].
Defined.

Section Residual.

Context `{BloomFilterOps} `{ChunkedEncoding} `{!ChunkedEncodingLaws}.
Variable char_is_signed : bool.
Context {A : Type} (handlers : Handlers A).

(** X3.  A window of 4096 bytes or more that does not begin with a
    complete head, on a parser that carries nothing over: no byte is kept,
    the error handler is the only callback and its result is returned. *)
Theorem long_residual_is_an_error (p : HttpParser) (k : Call) (w : World A) :
  call_ok k → fallback p = [] → remainingStreamingBytes p = 0 →
  NoHead (slice (call_mem k) (call_data k) (call_length k)) →
  MAX_FALLBACK_SIZE ≤ call_length k →
  consume char_is_signed handlers p k w
  = Some (MkOutcome p (callError handlers w (call_user k)).1
                    (callError handlers w (call_user k)).2).
Proof. apply consume_residual_no_head. Qed.

End Residual.

(** X3, observed on 4200 bytes without a line end. *)
Lemma long_residual_is_an_error_witness :
  consume true keep fresh_parser long_call (tt, [])
  = Some (MkOutcome fresh_parser (tt, [ErrorEvent 7 7]) 7).
Proof.
  apply (long_residual_is_an_error true keep fresh_parser long_call (tt, []));
    [apply call_ok_check; by vm_compute|done|done| |by vm_compute].
  apply NoHead_no_cr, no_cr_check. by vm_compute.
Defined.

(** Observed on a body of five bytes announced by Content-Length, all in
    the window of its head: the data handler is given the five bytes with
    the fin flag, and no body is in progress afterwards. *)
Theorem content_length_body_in_one_call :
  summary (run keep fresh_parser
             (bytes "POST /u HTTP/1.1" ++ CRLF ++ bytes "Content-Length: 5" ++ CRLF ++ CRLF
              ++ bytes "hello") 7)
  = Some (fresh_parser,
          [SeenRequest (bytes "post") (bytes "/u") [] false 7;
           SeenData (bytes "hello") true 7], 7).
Proof. by vm_compute. Qed.

(** Observed on the same body with its last two bytes in a second call:
    the first call leaves two bytes to stream, the second streams them
    with the fin flag. *)
Theorem content_length_body_in_two_calls :
  (λ outs, map (λ ko, summary (Some ko.2)) outs)
    <$> consume_calls true keep fresh_parser (tt, [])
          [call_on (bytes "POST /u HTTP/1.1" ++ CRLF ++ bytes "Content-Length: 5" ++ CRLF
                    ++ CRLF ++ bytes "hel") 7;
           call_on (bytes "lo") 7]
  = Some [Some (MkParser [] 2,
                [SeenRequest (bytes "post") (bytes "/u") [] false 7;
                 SeenData (bytes "hel") false 7], 7);
          Some (fresh_parser,
                [SeenRequest (bytes "post") (bytes "/u") [] false 7;
                 SeenData (bytes "hel") false 7; SeenData (bytes "lo") true 7], 7)].
Proof. by vm_compute. Qed.

(** ** Iterating over a decoded head, and its raw query *)

Section Iteration.

Context `{BloomFilterOps} {A : Type}.

Lemma slot_middle (req : HttpRequest) done h tl :
  headers req = done ++ h :: tl → slot req (ItAt (zlen done)) = Some h.
Proof.
  intros Hhs. unfold slot.
  destruct (Z.ltb_spec (zlen done) 0) as [Hneg|_]; [pose proof (zlen_nonneg done); lia|].
  unfold zlen. rewrite Nat2Z.id, Hhs. by apply list_lookup_middle.
Qed.

(** The loop over the slots of header lines that lie in the buffer one
    after the other, from the slot behind [done] on. *)
Lemma it_loop_lines ls : ∀ fuel (req : HttpRequest) mem pre post done t tl,
  headers req = done ++ line_headers (zlen pre) ls ++ set_key sv_null t :: tl →
  mem = pre ++ lines_bytes (map lower_line ls) ++ post →
  (length ls < fuel)%nat →
  ∃ kvs,
    it_loop fuel req (ItAt (zlen done)) = Some kvs
    ∧ map (λ kv, (sv_bytes mem kv.1, sv_bytes mem kv.2)) kvs
      = map (λ l, (lower (key_of l), value_of l)) (listed ls).
Proof.
  induction ls as [|l ls IH]; intros fuel req mem pre post done t tl Hhs -> Hfuel;
    (destruct fuel as [|fuel]; [cbn in Hfuel; lia|]); cbn [it_loop];
    unfold it_ne, it_get, end'; cbn [ptr_eqb negb];
    cbn [line_headers app] in Hhs; rewrite (slot_middle req _ _ _ Hhs);
    cbn [mbind option_bind].
  - cbn. by exists [].
  - cbn [line_header key value sv_len listed].
    assert ((zlen (key_of l) =? 0) = bool_decide (key_of l = [])) as ->.
    { destruct (key_of l) as [|c k]; [done|]. rewrite zlen_cons.
      pose proof (zlen_nonneg k). symmetry. rewrite bool_decide_eq_false_2 by done. lia. }
    destruct (bool_decide (key_of l = [])); cbn [negb]; [by exists []|].
    cbn [it_next mbind option_bind].
    destruct (IH fuel req
                (pre ++ lines_bytes (map lower_line (l :: ls)) ++ post)
                (pre ++ lower_line l ++ [13; 10]) post
                (done ++ [line_header (zlen pre) l]) t tl) as (kvs & Hrun & Hkvs).
    { replace (zlen (pre ++ lower_line l ++ [13; 10])) with (zlen pre + zlen l + 2)
        by (rewrite !zlen_app, zlen_lower_line, !zlen_cons, zlen_nil; lia).
      by rewrite Hhs, <- app_assoc. }
    { cbn [map lines_bytes]. by rewrite <- !app_assoc. }
    { cbn in Hfuel. lia. }
    replace (zlen done + 1) with (zlen (done ++ [line_header (zlen pre) l]))
      by (rewrite zlen_app, zlen_cons, zlen_nil; lia).
    rewrite Hrun. eexists. split; [done|].
    set (mem := pre ++ lines_bytes (map lower_line (l :: ls)) ++ post) in *.
    rewrite !map_cons, Hkvs. cbn [fst snd]. f_equal.
    unfold mem. cbn [map lines_bytes]. rewrite <- !app_assoc.
    fold (line_header (zlen pre) l).
    by rewrite (line_header_key_bytes pre l), (line_header_value_bytes pre l).
Qed.

(** X4.  Iterating over the request view of a decoded head ends inside the
    header array and yields, in order, the key (with 0x20 or-ed into every
    byte) and the value of every header line before the first line with
    an empty key; the request line is not among them. *)
Theorem iterate_header_lines (c : Cursor A) pre l0 hdrs post :
  HeadAt c pre (l0 :: hdrs) post →
  let mem' := head_mem' pre (l0 :: hdrs) post in
  ∃ kvs,
    iterate (head_request c pre (l0 :: hdrs) post) = Some kvs
    ∧ map (λ kv, (sv_bytes mem' kv.1, sv_bytes mem' kv.2)) kvs
      = map (λ l, (lower (key_of l), value_of l)) (listed hdrs).
Proof.
  intros Hhead mem'.
  destruct (head_request_slots c pre l0 hdrs post Hhead) as (t & tl & Hs).
  unfold iterate, begin.
  apply (it_loop_lines hdrs _ _ mem' (pre ++ lower_line l0 ++ [13; 10]) ([13; 10] ++ post)
           [MkHeader (SV (zlen pre) (zlen (key_of l0)))
                     (SV (zlen pre + zlen l0 - zlen (value_of l0))
                         (Z.max 0 (s32 (zlen (value_of l0)) - 9)))] t tl).
  - replace (zlen (pre ++ lower_line l0 ++ [13; 10])) with (zlen pre + zlen l0 + 2)
      by (rewrite !zlen_app, zlen_lower_line, !zlen_cons, zlen_nil; lia).
    by rewrite Hs.
  - apply head_mem'_headers.
  - rewrite Hs. cbn [length]. rewrite length_app, length_line_headers. cbn [length]. lia.
Qed.

(** X5.  For the request view of a decoded head, the URL followed by the
    raw query string that [getQuery(key)] hands to the query decoder is
    the request target: the URL holds no question mark, and the raw query
    string is empty or begins with the first question mark of the
    target. *)
Theorem url_and_raw_query (c : Cursor A) pre l0 hdrs post :
  HeadAt c pre (l0 :: hdrs) post → zlen l0 < 2 ^ 31 →
  let mem' := head_mem' pre (l0 :: hdrs) post in
  let req := head_request c pre (l0 :: hdrs) post in
  let url := sv_bytes mem' (getUrl req) in
  let raw := sv_bytes mem' (queryString req) in
  url ++ raw = target_of (value_of l0)
  ∧ (63 ∉ url)
  ∧ (raw = [] ∨ hd 0 raw = 63).
Proof.
  intros Hhead Hl0 mem' req url raw.
  destruct (head_request_target c pre l0 hdrs post Hhead Hl0) as (Hbytes & Hlen & Hdata).
  pose proof (head_request_separator c pre l0 hdrs post Hhead Hl0) as Hqs.
  fold req in Hbytes, Hlen, Hdata, Hqs. fold mem' in Hbytes.
  set (target := target_of (value_of l0)) in *.
  pose proof (zlen_value_of_le l0). pose proof (zlen_key_split l0).
  pose proof (zlen_nonneg (key_of l0)). pose proof (zlen_nonneg pre).
  pose proof (zlen_nonneg target).
  assert (zlen target ≤ zlen (value_of l0)) as Htv.
  { unfold target, target_of, zlen. rewrite length_take. lia. }
  pose proof (memchr_spec target 63) as Hm.
  unfold url, raw, getUrl, queryString, sv_bytes in *. cbn [sv_data sv_len] in *.
  rewrite Hlen, Hqs. rewrite Hlen in Hbytes.
  destruct (memchr target 63) as [off|].
  - destruct Hm as (Hoff & Hnot & Hsplit).
    unfold u64. rewrite Z.mod_small by lia.
    rewrite (slice_take _ _ (zlen target)) by lia.
    rewrite (slice_drop _ _ (zlen target)) by lia.
    rewrite Hbytes.
    assert (take (Z.to_nat off) target ++ drop (Z.to_nat off) target = target) as Htd
      by apply take_drop.
    split; [done|]. split.
    + done.
    + right. rewrite Hsplit. rewrite drop_app_length'; [done|].
      rewrite length_take. unfold zlen in *. lia.
  - unfold u64. rewrite Z.sub_diag. change (0 `mod` 2 ^ 64) with 0.
    assert (∀ p, slice mem' p 0 = []) as Hempty by done.
    rewrite Hbytes, Hempty, app_nil_r. split; [done|]. split; [done|by left].
Qed.

End Iteration.

(** ** Whole calls: requests in a window *)

Lemma url_query_of_memchr target :
  match memchr target 63 with
  | Some off => url_of target = take (Z.to_nat off) target
                ∧ query_of target = drop (Z.to_nat (off + 1)) target
  | None => url_of target = target ∧ query_of target = []
  end.
Proof.
  induction target as [|c t IH]; cbn [memchr url_of query_of]; [done|].
  destruct (Z.eqb_spec c 63) as [->|Hc]; [done|].
  pose proof (memchr_spec t 63) as Hm.
  destruct (memchr t 63) as [off|]; cbn [fmap option_fmap option_map].
  - destruct IH as [-> ->]. destruct Hm as (Hoff & _).
    replace (Z.to_nat (Z.succ off)) with (S (Z.to_nat off)) by lia.
    replace (Z.to_nat (Z.succ off + 1)) with (S (Z.to_nat (off + 1))) by lia.
    done.
  - by destruct IH as [-> ->].
Qed.

Lemma wr_app_r (pre post : list Z) p c :
  zlen pre ≤ p → wr (pre ++ post) p c = pre ++ wr post (p - zlen pre) c.
Proof.
  intros Hp. unfold wr, zlen in *. rewrite insert_app_r_alt by lia. do 2 f_equal. lia.
Qed.

Lemma fenced_app (pre post : list Z) F :
  zlen pre ≤ F → fenced (pre ++ post) F = pre ++ fenced post (F - zlen pre).
Proof.
  intros HF. unfold fenced. rewrite wr_app_r by done.
  rewrite wr_app_r by lia. do 2 f_equal. lia.
Qed.

Lemma bytes_ok_fenced mem F : bytes_ok mem → bytes_ok (fenced mem F).
Proof. intros. unfold fenced. apply bytes_ok_wr; [apply bytes_ok_wr|]; done. Qed.

Lemma length_fill vs : ∀ todo, length (fill vs todo) = length todo.
Proof.
  induction vs as [|v vs IH]; intros [|t todo]; cbn; try done. by rewrite IH.
Qed.

Lemma zlen_head_lower lines :
  zlen (head_bytes (map lower_line lines)) = zlen (head_bytes lines).
Proof.
  induction lines as [|l ls IH]; [done|]. cbn [map].
  rewrite !head_bytes_cons, !zlen_app, !zlen_cons, zlen_lower_line, IH. done.
Qed.

Lemma bytes_ok_head_lower lines :
  bytes_ok (head_bytes lines) → bytes_ok (head_bytes (map lower_line lines)).
Proof.
  induction lines as [|l ls IH]; [done|]. cbn [map]. rewrite !head_bytes_cons.
  intros [Hl Hrest]%bytes_ok_app. apply bytes_ok_app. split; [by apply bytes_ok_lower_line|].
  inversion Hrest as [|?? H13 Hrest']; subst. inversion Hrest' as [|?? H10 Hls]; subst.
  repeat constructor; [lia..|]. by apply IH.
Qed.

Section Calls.

Context `{BloomFilterOps} `{!BloomFilterSound} `{ChunkedEncoding}.
Variable char_is_signed : bool.
Context {A : Type} (handlers : Handlers A).

(** The URL and the query of a decoded head. *)
Lemma head_request_url_parts (c : Cursor A) pre l0 hdrs post :
  HeadAt c pre (l0 :: hdrs) post → zlen l0 < 2 ^ 31 →
  let mem' := head_mem' pre (l0 :: hdrs) post in
  let req := head_request c pre (l0 :: hdrs) post in
  sv_bytes mem' (getUrl req) = url_of (target_of (value_of l0))
  ∧ sv_bytes mem' (getQuery req) = query_of (target_of (value_of l0)).
Proof.
  intros Hhead Hl0 mem' req.
  destruct (head_request_target c pre l0 hdrs post Hhead Hl0) as (Hbytes & Hlen & Hdata).
  pose proof (head_request_separator c pre l0 hdrs post Hhead Hl0) as Hqs.
  fold req in Hbytes, Hlen, Hdata, Hqs. fold mem' in Hbytes.
  set (target := target_of (value_of l0)) in *.
  pose proof (zlen_value_of_le l0). pose proof (zlen_key_split l0).
  pose proof (zlen_nonneg (key_of l0)). pose proof (zlen_nonneg pre).
  pose proof (zlen_nonneg target).
  pose proof (memchr_spec target 63) as Hm.
  pose proof (url_query_of_memchr target) as Huq.
  unfold getUrl, getQuery, sv_bytes in *. cbn [sv_data sv_len] in *.
  rewrite Hlen, Hqs. rewrite Hlen in Hbytes.
  destruct (memchr target 63) as [off|].
  - destruct Hm as (Hoff & Hnot & Hsplit). destruct Huq as [-> ->].
    destruct (Z.ltb_spec off (zlen target)) as [_|?]; [|lia]. cbn [sv_data sv_len].
    rewrite (slice_take _ _ (zlen target)) by lia.
    replace (zlen target - off - 1) with (zlen target - (off + 1)) by lia.
    rewrite <- Z.add_assoc, (slice_drop _ _ (zlen target)) by lia.
    by rewrite Hbytes.
  - destruct Huq as [-> ->].
    destruct (Z.ltb_spec (zlen target) (zlen target)) as [?|_]; [lia|].
    by rewrite Hbytes.
Qed.

(** What the request event of a decoded head shows. *)
Lemma observe_head_request (c : Cursor A) pre l0 hdrs post user returned :
  HeadAt c pre (l0 :: hdrs) post → zlen l0 < 2 ^ 31 →
  observe (RequestEvent user (head_mem' pre (l0 :: hdrs) post)
                        (head_request c pre (l0 :: hdrs) post) returned)
  = SeenRequest (lower (key_of l0)) (url_of (target_of (value_of l0)))
                (query_of (target_of (value_of l0)))
                (bool_decide (last (value_of l0) = Some 48)) returned.
Proof.
  intros Hhead Hl0. cbn [observe].
  destruct (head_request_url_parts c pre l0 hdrs post Hhead Hl0) as [-> ->].
  by rewrite head_request_method, head_request_ancient.
Qed.

Lemma callData_returned (w : World A) user chunk fin :
  (callData handlers w user chunk fin).2 = (dataHandler handlers w.1 user chunk fin).2.
Proof. unfold callData. by destruct (dataHandler handlers w.1 user chunk fin). Qed.

Lemma head_request_length (c : Cursor A) pre lines post :
  length (headers (head_request c pre lines post)) = length (headers (c_req c)).
Proof.
  unfold head_request, finishRequest. cbn [headers].
  by rewrite length_alter, length_fill.
Qed.

(** One iteration of the loop on a request with its whole body. *)
Lemma step_message user (c : Cursor A) pre m rest :
  keeps_token handlers → framed char_is_signed m →
  c_mem c = pre ++ message_bytes m ++ rest → c_data c = zlen pre →
  bytes_ok pre → bytes_ok rest →
  length (headers (c_req c)) = Z.to_nat MAX_HEADERS →
  zlen (message_bytes m) ≤ c_length c →
  0 ≤ c_consumedTotal c → c_consumedTotal c + c_length c < 2 ^ 32 →
  ∃ c2,
    fenceAndConsume_step char_is_signed handlers false user c = Some (Again c2)
    ∧ c_mem c2 = (pre ++ head_bytes (map lower_line m.1) ++ m.2) ++ rest
    ∧ c_data c2 = c_data c + zlen (message_bytes m)
    ∧ c_length c2 = c_length c - zlen (message_bytes m)
    ∧ c_consumedTotal c2 = c_consumedTotal c + zlen (message_bytes m)
    ∧ (c_remaining c = 0 → c_remaining c2 = 0)
    ∧ length (headers (c_req c2)) = Z.to_nat MAX_HEADERS
    ∧ map observe (log c2) = map observe (log c) ++ seen_message user m.
Proof.
  destruct m as [lines body]. unfold message_bytes. cbn [fst snd].
  intros [Hkeep_r Hkeep_d] (Hne & Hv & Hn & Hl0 & Hokm & Hframe) Hmem Hdata Hokpre Hokrest
    Hslots Hlen Htotal Hu32.
  cbn [fst snd] in *. destruct lines as [|l0 hdrs]; [done|]. cbn [hd tl] in *.
  unfold message_bytes in Hokm. cbn [fst snd] in Hokm.
  apply bytes_ok_app in Hokm as [Hokhead Hokbody].
  rewrite zlen_app in Hlen. pose proof (zlen_nonneg body) as Hbody0.
  pose proof (zlen_head_bytes_pos (l0 :: hdrs)) as Hpos.
  rewrite <- app_assoc in Hmem.
  assert (HeadAt c pre (l0 :: hdrs) (body ++ rest)) as Hhead.
  { split; try done; [|lia].
    rewrite Hmem. apply bytes_ok_app. split; [done|].
    apply bytes_ok_app. split; [done|]. by apply bytes_ok_app. }
  rewrite (step_head char_is_signed handlers false user c pre (l0 :: hdrs) (body ++ rest)
             Hhead).
  set (mem' := head_mem' pre (l0 :: hdrs) (body ++ rest)).
  set (req := head_request c pre (l0 :: hdrs) (body ++ rest)).
  pose proof (callRequest_log handlers (c_world c) user mem' req) as Hlog.
  pose proof (callRequest_returned handlers (c_world c) user mem' req) as Hret.
  rewrite Hkeep_r in Hret.
  destruct (callRequest handlers (c_world c) user mem' req) as [w r].
  cbn [fst snd] in Hlog, Hret. subst r. cbv zeta. rewrite Z.eqb_refl. cbn [negb].
  pose proof (observe_head_request c pre l0 hdrs (body ++ rest) user user Hhead Hl0)
    as Hobs. fold mem' req in Hobs.
  assert (mem' = (pre ++ head_bytes (map lower_line (l0 :: hdrs)) ++ body) ++ rest) as Hmem'
    by (unfold mem', head_mem'; by rewrite <- !app_assoc).
  set (n := zlen (head_bytes (l0 :: hdrs))) in *.
  destruct (bool_decide (lower (key_of l0) = bytes "get")) eqn:Hget.
  - apply bool_decide_eq_true in Hget. subst body.
    rewrite frameBody_get
      by (cbn [head_cursor c_mem c_req]; by rewrite head_request_method).
    eexists. split; [done|]. cbn [head_cursor c_mem c_data c_length c_consumedTotal c_req
                                   c_remaining c_world].
    rewrite zlen_nil in Hlen. rewrite !(app_nil_r (head_bytes (l0 :: hdrs))). fold n mem'.
    split_and!; [done|done|done|apply u32_small; lia|done|
                 by rewrite head_request_length|].
    unfold log. cbn [c_world].
    rewrite callData_log, Hlog, <- app_assoc, callData_returned, Hkeep_d.
    rewrite map_app. cbn [map app]. by rewrite Hobs.
  - apply bool_decide_eq_false in Hget. destruct Hframe as [Hcl Hvalue].
    destruct (head_request_header c pre l0 hdrs (body ++ rest) (bytes "content-length")
                Hhead) as [Hbytes Hlenv].
    fold mem' req in Hbytes, Hlenv.
    set (v := lookup_header (bytes "content-length") hdrs) in *.
    assert (0 < zlen v) as Hvpos.
    { assert (length v ≠ 0%nat) by (by intros E%length_zero_iff_nil). unfold zlen. lia. }
    unfold frameBody.
    cbn [head_cursor c_mem c_req c_world c_data c_length c_consumedTotal c_remaining].
    fold mem' req n.
    rewrite bool_decide_eq_false_2
      by (unfold mem', req; by rewrite head_request_method).
    cbn [negb]. rewrite Hbytes.
    destruct (Z.eqb_spec (sv_len (getHeader mem' req (bytes "content-length"))) 0)
      as [E|_]; [lia|].
    cbn [negb]. rewrite Hvalue.
    rewrite (Z.min_l (zlen body)) by lia.
    rewrite Z.eqb_refl, Z.sub_diag.
    assert (slice mem' (c_data c + n) (zlen body) = body) as ->.
    { rewrite Hmem', <- !app_assoc, (app_assoc pre).
      replace (c_data c + n) with (zlen (pre ++ head_bytes (map lower_line (l0 :: hdrs))))
        by (rewrite zlen_app, zlen_head_lower; unfold n; lia).
      apply slice_at. }
    eexists. split; [done|].
    cbn [c_mem c_data c_length c_consumedTotal c_req c_remaining c_world].
    rewrite (u32_small (c_consumedTotal c + n)) by lia.
    rewrite (u32_small (c_consumedTotal c + n + zlen body)) by lia.
    rewrite (u32_small (c_length c - n - zlen body)) by lia.
    change (u32 0) with 0. rewrite zlen_app. fold n.
    split_and!; [done|lia|lia|lia|done|by unfold req; rewrite head_request_length|].
    unfold log. cbn [c_world].
    rewrite callData_log, Hlog, <- app_assoc, callData_returned, Hkeep_d.
    rewrite map_app. cbn [map app]. by rewrite Hobs.
Qed.

Lemma zlen_lower_message m : zlen (message_bytes (lower_message m)) = zlen (message_bytes m).
Proof.
  unfold message_bytes, lower_message. cbn [fst snd]. by rewrite !zlen_app, zlen_head_lower.
Qed.

Lemma zlen_lower_messages ms :
  zlen (messages_bytes (map lower_message ms)) = zlen (messages_bytes ms).
Proof.
  unfold messages_bytes. induction ms as [|m ms IH]; [done|]. cbn [map concat].
  by rewrite !zlen_app, zlen_lower_message, IH.
Qed.

Lemma bytes_ok_lower_message m :
  bytes_ok (message_bytes m) → bytes_ok (message_bytes (lower_message m)).
Proof.
  unfold message_bytes, lower_message. cbn [fst snd]. intros [? ?]%bytes_ok_app.
  apply bytes_ok_app. split; [by apply bytes_ok_head_lower|done].
Qed.

Lemma length_messages ms : Z.of_nat (length ms) ≤ zlen (messages_bytes ms).
Proof.
  unfold messages_bytes. induction ms as [|m ms IH]; [done|]. cbn [map concat length].
  rewrite zlen_app. unfold message_bytes at 1. rewrite zlen_app.
  pose proof (zlen_head_bytes_pos m.1). pose proof (zlen_nonneg m.2). lia.
Qed.

(** The loop on a window that begins with requests and their bodies: one
    iteration each, and the loop goes on behind them. *)
Lemma loop_messages user ms : ∀ fuel (c : Cursor A) pre rest,
  keeps_token handlers → Forall (framed char_is_signed) ms →
  c_mem c = pre ++ messages_bytes ms ++ rest → c_data c = zlen pre →
  bytes_ok pre → bytes_ok rest →
  length (headers (c_req c)) = Z.to_nat MAX_HEADERS →
  zlen (messages_bytes ms) ≤ c_length c →
  0 ≤ c_consumedTotal c → c_consumedTotal c + c_length c < 2 ^ 32 →
  ∃ c2,
    fenceAndConsume_loop char_is_signed handlers (length ms + fuel) false user c
    = fenceAndConsume_loop char_is_signed handlers fuel false user c2
    ∧ c_mem c2 = (pre ++ messages_bytes (map lower_message ms)) ++ rest
    ∧ c_data c2 = c_data c + zlen (messages_bytes ms)
    ∧ c_length c2 = c_length c - zlen (messages_bytes ms)
    ∧ c_consumedTotal c2 = c_consumedTotal c + zlen (messages_bytes ms)
    ∧ (c_remaining c = 0 → c_remaining c2 = 0)
    ∧ length (headers (c_req c2)) = Z.to_nat MAX_HEADERS
    ∧ map observe (log c2)
      = map observe (log c) ++ concat (map (seen_message user) ms).
Proof.
  induction ms as [|m ms IH]; intros fuel c pre rest Hkeep Hms Hmem Hdata Hokpre Hokrest
    Hslots Hlen Htotal Hu32.
  - exists c. unfold messages_bytes in *. cbn [map concat app length] in *.
    rewrite zlen_nil, ?app_nil_r in *. split_and!; try done; lia.
  - inversion Hms as [|?? Hm Hms']; subst.
    unfold messages_bytes in Hmem, Hlen. cbn [map concat] in Hmem, Hlen.
    fold (messages_bytes ms) in Hmem, Hlen. rewrite <- app_assoc in Hmem.
    rewrite zlen_app in Hlen.
    pose proof (zlen_nonneg (messages_bytes ms)) as Hms0.
    pose proof (zlen_nonneg (message_bytes m)) as Hm0.
    assert (bytes_ok (messages_bytes ms)) as Hokms.
    { clear -Hms'. unfold messages_bytes.
      induction Hms' as [|m' ms' Hm' _ IH']; [constructor|].
      cbn [map concat]. apply bytes_ok_app. split; [|done].
      by destruct Hm' as (_ & _ & _ & _ & ? & _). }
    destruct (step_message user c pre m (messages_bytes ms ++ rest) Hkeep Hm Hmem Hdata
                Hokpre ltac:(by apply bytes_ok_app) Hslots ltac:(lia) Htotal Hu32)
      as (c1 & Hstep & Hmem1 & Hdata1 & Hlen1 & Htotal1 & Hrem1 & Hslots1 & Hlog1).
    destruct (IH fuel c1 (pre ++ head_bytes (map lower_line m.1) ++ m.2) rest Hkeep Hms')
      as (c2 & Hrun & Hmem2 & Hdata2 & Hlen2 & Htotal2 & Hrem2 & Hslots2 & Hlog2);
      [by rewrite Hmem1, <- !app_assoc| | |done|done|lia|lia|lia|].
    { rewrite Hdata1, Hdata. unfold message_bytes.
      rewrite !zlen_app, zlen_head_lower. lia. }
    { destruct Hm as (_ & _ & _ & _ & Hokm & _). apply bytes_ok_lower_message in Hokm.
      apply bytes_ok_app. by split. }
    exists c2. cbn [length Nat.add fenceAndConsume_loop]. rewrite Hstep.
    split; [done|].
    unfold messages_bytes. cbn [map concat]. fold (messages_bytes ms).
    fold (messages_bytes (map lower_message ms)). rewrite zlen_app.
    split_and!; [|lia|lia|lia|auto|done|].
    + rewrite Hmem2. unfold message_bytes, lower_message. cbn [fst snd].
      by rewrite <- !app_assoc.
    + by rewrite Hlog2, Hlog1, <- app_assoc.
Qed.

Lemma fenced_start (post : list Z) :
  2 ≤ zlen post → rd (fenced post 0) 0 = 13 ∧ rd (fenced post 0) 1 = 97.
Proof.
  intros Hpost. unfold fenced. split.
  - rewrite rd_wr_ne, rd_wr_eq; [done|lia..].
  - rewrite rd_wr_eq; [done|]. unfold zlen in *. rewrite length_wr. lia.
Qed.

(** The end of a call on a window of requests with their bodies and an
    incomplete head behind them. *)
Lemma consumeFresh_messages mem data len user req (w : World A) ms tail pre post :
  keeps_token handlers → Forall (framed char_is_signed) ms →
  NoHead tail → zlen tail < MAX_FALLBACK_SIZE →
  bytes_ok mem → 0 ≤ data → 0 ≤ len < 2 ^ 32 → data + len + 2 ≤ zlen mem →
  length (headers req) = Z.to_nat MAX_HEADERS →
  mem = pre ++ messages_bytes ms ++ tail ++ post →
  data = zlen pre → len = zlen (messages_bytes ms) + zlen tail →
  ∃ o tail',
    consumeFresh char_is_signed handlers [] 0 mem data len user req w = Some o
    ∧ o_returned o = user
    ∧ o_parser o = MkParser tail' 0
    ∧ pattern tail' = pattern tail
    ∧ map observe (o_world o).2
      = map observe w.2 ++ concat (map (seen_message user) ms).
Proof.
  intros Hkeep Hms Hno Htail Hok Hd Hl Hpad Hslots Hmem Hdata Hlength.
  unfold MAX_FALLBACK_SIZE in *.
  unfold consumeFresh, fenceAndConsumePostPadded.
  change (wr (wr mem (data + len) 13) (data + len + 1) 97)
    with (fenced mem (data + len)).
  pose proof (zlen_nonneg (messages_bytes ms)) as Hms0.
  pose proof (zlen_nonneg tail) as Htail0. pose proof (zlen_nonneg pre) as Hpre0.
  pose proof (length_messages ms) as Hcount.
  assert (2 ≤ zlen post) as Hpost.
  { rewrite Hmem, !zlen_app in Hpad. lia. }
  assert (bytes_ok (fenced mem (data + len))) as Hokf by (by apply bytes_ok_fenced).
  set (post' := fenced post 0).
  assert (fenced mem (data + len) = pre ++ messages_bytes ms ++ tail ++ post') as Hfenced.
  { rewrite Hmem, !(app_assoc pre), (app_assoc (pre ++ _)).
    rewrite fenced_app by (rewrite !zlen_app; lia).
    rewrite <- !app_assoc. do 3 f_equal. unfold post'. f_equal.
    rewrite !zlen_app. lia. }
  rewrite Hfenced in Hokf.
  apply bytes_ok_app in Hokf as [Hokpre Hokf].
  apply bytes_ok_app in Hokf as [_ Hokrest].
  replace (S (Z.to_nat len)) with (length ms + S (Z.to_nat len - length ms))%nat
    by lia.
  destruct (loop_messages user ms (S (Z.to_nat len - length ms))
              (MkCursor (fenced mem (data + len)) data len 0 req 0 w)
              pre (tail ++ post') Hkeep Hms)
    as (c2 & -> & Hmem2 & Hdata2 & Hlen2 & Htotal2 & Hrem2 & Hslots2 & Hlog2);
    [done|done|done|done|done|cbn; lia|cbn; lia|cbn; lia|].
  cbn [c_data c_length c_consumedTotal c_remaining log c_world] in *.
  specialize (Hrem2 eq_refl).
  set (pre2 := pre ++ messages_bytes (map lower_message ms)) in *.
  assert (zlen pre2 = data + zlen (messages_bytes ms)) as Hpre2.
  { unfold pre2. rewrite zlen_app, zlen_lower_messages. lia. }
  destruct (fenced_start post ltac:(lia)) as [Hcr Hlf]. fold post' in Hcr, Hlf.
  assert (Fenced c2 (data + len)) as HF.
  { split; try lia.
    - rewrite Hmem2. apply bytes_ok_app. split; [|done].
      unfold pre2. apply bytes_ok_app. split; [done|].
      clear -Hms. unfold messages_bytes.
      induction Hms as [|m' ms' Hm' _ IH']; [constructor|].
      cbn [map concat]. apply bytes_ok_app. split; [|done].
      destruct Hm' as (_ & _ & _ & _ & ? & _). by apply bytes_ok_lower_message.
    - rewrite Hmem2, app_assoc, rd_app_r; rewrite !zlen_app; [|lia].
      replace (data + len - (zlen pre2 + zlen tail)) with 0 by lia. done.
    - rewrite Hmem2, app_assoc, rd_app_r; rewrite !zlen_app; [|lia].
      replace (data + len + 1 - (zlen pre2 + zlen tail)) with 1 by lia.
      rewrite Hlf. done. }
  assert (window c2 = tail) as Hwin.
  { unfold window. rewrite Hmem2, Hdata2, Hlen2, <- Hpre2.
    replace (len - zlen (messages_bytes ms)) with (zlen tail) by lia.
    apply slice_at. }
  cbn [fenceAndConsume_loop].
  destruct (step_fenced char_is_signed handlers false user c2 _ HF) as (s & -> & Hs).
  assert (∀ c1 n, Parsed c2 c1 (data + len) n → False) as Hparsed.
  { intros c1 n [_ (lines & rest & Hw & _ & Hne & Hv & Hlines) _ _ _ _ _ _].
    rewrite Hwin in Hw. by destruct (Hno lines rest). }
  destruct s as [c' r|c']; cbn [StepOk] in Hs; cycle 1.
  { destruct Hs as (_ & c1 & n & HP & _). by destruct (Hparsed c1 n). }
  destruct Hs as [(-> & E0 & ->)|[(-> & Hfail)|(c1 & n & HP & _)]];
    [| |by destruct (Hparsed c1 n)]; cbn [mbind option_bind]; rewrite Z.eqb_refl;
    cbn [negb].
  - rewrite Htotal2.
    replace (len - (0 + zlen (messages_bytes ms))) with 0 by lia.
    change (u32 0) with 0. cbn [Z.eqb negb].
    eexists _, []. split; [done|]. cbn [o_returned o_parser o_world].
    assert (tail = []) as -> by (apply length_zero_iff_nil; unfold zlen in *; lia).
    rewrite Hrem2. by split_and!.
  - destruct Hfail as [Hne0 Hd' Hl' Ht' Hr' Hw' Hok' Hpat Hnoh].
    rewrite Ht', Htotal2, Hr', Hrem2, Hw'.
    replace (len - (0 + zlen (messages_bytes ms))) with (zlen tail) by lia.
    rewrite (u32_small (zlen tail)) by lia.
    destruct (Z.eqb_spec (zlen tail) 0) as [E|E]; [lia|]. cbn [negb].
    destruct (Z.ltb_spec (zlen tail) MAX_FALLBACK_SIZE) as [_|Hge];
      [|unfold MAX_FALLBACK_SIZE in Hge; lia].
    eexists _, _. split; [done|]. cbn [o_returned o_parser o_world app].
    split_and!; [done|done| |done].
    replace (data + (0 + zlen (messages_bytes ms))) with (c_data c2) by lia.
    rewrite (pattern_slice _ _ (c_data c2) (zlen tail) Hpat). f_equal.
    rewrite <- Hwin at 2. unfold window. f_equal. lia.
Qed.

(** X6.  A call on a parser that carries nothing over, with handlers that
    hand the token back, on a window that holds requests one after the
    other, each with its whole body (the method get in any case and no
    body, or another method and a body of the length that its first
    Content-Length value reads as), followed by fewer than 4096 bytes that
    do not make a complete head: the call returns the token; for every
    request, in order, the request handler is invoked once with the
    method lower-cased, the URL, the query and the version flag of its
    request line, and then the data handler once with the whole body and
    [fin]; no other callback is invoked; no body is left in progress; and
    the bytes behind the last request are kept in the fallback buffer,
    changed at most in case. *)
Theorem requests_in_one_call (p : HttpParser) (k : Call) (w : World A) ms tail pre post :
  keeps_token handlers → Forall (framed char_is_signed) ms →
  NoHead tail → zlen tail < MAX_FALLBACK_SIZE →
  fallback p = [] → remainingStreamingBytes p = 0 →
  call_ok k → length (headers (call_req k)) = Z.to_nat MAX_HEADERS →
  call_mem k = pre ++ messages_bytes ms ++ tail ++ post →
  call_data k = zlen pre → call_length k = zlen (messages_bytes ms) + zlen tail →
  ∃ o tail',
    consume char_is_signed handlers p k w = Some o
    ∧ o_returned o = call_user k
    ∧ o_parser o = MkParser tail' 0
    ∧ pattern tail' = pattern tail
    ∧ map observe (o_world o).2
      = map observe w.2 ++ concat (map (seen_message (call_user k)) ms).
Proof.
  destruct p as [fb rsb], k as [mem data len user req].
  intros Hkeep Hms Hno Htail Hfb Hrsb [Hok Hd Hl Hpad] Hslots Hmem Hdata Hlength.
  cbn [fallback remainingStreamingBytes call_mem call_data call_length call_user
       call_req] in *.
  subst fb rsb. unfold MINIMUM_HTTP_POST_PADDING in *.
  unfold consume, consumePostPadded.
  cbn [fallback remainingStreamingBytes call_mem call_data call_length call_user call_req].
  cbn [Z.eqb negb]. rewrite zlen_nil. cbn [Z.eqb negb].
  apply (consumeFresh_messages mem data len user req w ms tail pre post); try done; lia.
Qed.

End Calls.

(** ** Other ways through a call *)

Section Ways.

Context `{BloomFilterOps} `{ChunkedEncoding}.
Variable char_is_signed : bool.
Context {A : Type} (handlers : Handlers A).

(** X7.  When the request handler of the first head in a window returns
    another token than the one it was given, the call ends there: the
    token is returned, the request handler's call is the only callback,
    nothing of the window is kept and the parser is where it was, whatever
    follows the head in the window. *)
Theorem request_handler_takes_over (k : Call) (w : World A) lines pre post :
  call_ok k → length (headers (call_req k)) = Z.to_nat MAX_HEADERS →
  lines ≠ [] → valid_lines lines → zlen lines ≤ MAX_HEADERS - 1 →
  call_mem k = pre ++ head_bytes lines ++ post → call_data k = zlen pre →
  zlen (head_bytes lines) ≤ call_length k →
  let post' := fenced post (call_length k - zlen (head_bytes lines)) in
  let r := callRequest handlers w (call_user k) (head_mem' pre lines post')
             (head_request (call_cursor k 0 w) pre lines post') in
  r.2 ≠ call_user k →
  consume char_is_signed handlers (MkParser [] 0) k w
  = Some (MkOutcome (MkParser [] 0) r.1 r.2).
Proof.
  destruct k as [mem data len user req].
  intros [Hok Hd Hl Hpad] Hslots Hne Hv Hlines Hmem Hdata Hlen post' r Hr.
  cbn [call_mem call_data call_length call_user call_req] in *.
  unfold MINIMUM_HTTP_POST_PADDING in *.
  unfold consume, consumePostPadded.
  cbn [fallback remainingStreamingBytes call_mem call_data call_length call_user call_req].
  cbn [Z.eqb negb]. rewrite zlen_nil. cbn [Z.eqb negb].
  unfold consumeFresh, fenceAndConsumePostPadded.
  change (wr (wr mem (data + len) 13) (data + len + 1) 97)
    with (fenced mem (data + len)).
  pose proof (zlen_nonneg pre) as Hpre0.
  pose proof (zlen_nonneg (head_bytes lines)) as Hhead0.
  assert (fenced mem (data + len) = pre ++ head_bytes lines ++ post') as Hfenced.
  { rewrite Hmem, (app_assoc pre).
    rewrite fenced_app by (rewrite !zlen_app; lia).
    rewrite <- !app_assoc. do 2 f_equal. unfold post'. f_equal.
    rewrite !zlen_app. lia. }
  set (c := MkCursor (fenced mem (data + len)) data len 0 req 0 w).
  assert (HeadAt c pre lines post') as Hat.
  { split; cbn [c c_mem c_data c_req c_length]; try done; try lia.
    by apply bytes_ok_fenced. }
  cbn [fenceAndConsume_loop].
  rewrite (step_head char_is_signed handlers false user c pre lines post' Hat).
  change (c_world c) with w.
  change (head_request c pre lines post')
    with (head_request (call_cursor (MkCall mem data len user req) 0 w) pre lines post').
  fold r. destruct r as [w' r']. cbn [snd fst] in *.
  destruct (Z.eqb_spec r' user) as [E|E]; [done|]. cbn [negb mbind option_bind].
  destruct (Z.eqb_spec r' user) as [E'|_]; [done|]. done.
Qed.

(** X9.  A length-delimited body of which [n] bytes are still to come,
    arriving in any number of non-empty windows that together hold at most
    [n] bytes: every window goes to the data handler as it is, in one
    chunk, flagged as the last one exactly when it brings the count to
    zero, and the parser counts down by the bytes it has seen.  The head
    bytes it may hold are left alone. *)
Theorem body_across_calls (ks : list Call) : ∀ (n : Z) (fb : list Z) (w : World A),
  (∀ a user chunk fin, (dataHandler handlers a user chunk fin).2 = user) →
  (∀ m, 0 < m ≤ n → isParsingChunkedEncoding m = false) →
  n < 2 ^ 32 → Forall (λ k, 0 < call_length k) ks → windows_length ks ≤ n →
  ∃ outs,
    consume_calls char_is_signed handlers (MkParser fb n) w ks = Some outs
    ∧ map fst outs = ks
    ∧ (end_state (MkParser fb n) w outs).1 = MkParser fb (n - windows_length ks)
    ∧ (end_state (MkParser fb n) w outs).2.2 = w.2 ++ streamed n ks.
Proof.
  induction ks as [|k ks IH]; intros n fb w Hkeep Hlen Hn Hks Hsum.
  - exists []. cbn. rewrite Z.sub_0_r, app_nil_r. done.
  - inversion Hks as [|?? Hk Hks']; subst.
    cbn [windows_length foldr] in Hsum. fold (windows_length ks) in Hsum.
    assert (0 ≤ windows_length ks) as Hsum0.
    { clear -Hks'. induction Hks' as [|k' ks' Hk' _ IH']; [done|].
      cbn [windows_length foldr]. fold (windows_length ks'). lia. }
    cbn [consume_calls]. unfold consume, consumePostPadded.
    cbn [remainingStreamingBytes fallback].
    destruct (Z.eqb_spec n 0) as [E|_]; [lia|]. cbn [negb].
    rewrite (Hlen n) by lia. unfold resumeLength.
    destruct (Z.leb_spec (call_length k) n) as [_|E]; [|lia].
    pose proof (Hkeep w.1 (call_user k)
                  (slice (call_mem k) (call_data k) (call_length k))
                  (n =? call_length k)) as Hret.
    unfold callData.
    destruct (dataHandler handlers w.1 (call_user k) _ _) as [a r].
    cbn [snd] in Hret. subst r. cbn [o_returned o_parser o_world].
    rewrite Z.eqb_refl. unfold u32. rewrite Z.mod_small by lia.
    destruct (IH (n - call_length k) fb
                (a, w.2 ++ [DataEvent (call_user k)
                              (slice (call_mem k) (call_data k) (call_length k))
                              (n =? call_length k) (call_user k)]))
      as (outs & -> & Hcalls & Hp & Hlog); [done| |lia|done|lia|].
    { intros m Hm. apply Hlen. lia. }
    eexists. split; [done|]. cbn [map fst]. split; [by rewrite Hcalls|].
    cbn [windows_length foldr streamed]. fold (windows_length ks).
    unfold end_state in *. cbn [last]. destruct outs as [|ko outs].
    + cbn [last] in *. cbn [o_parser o_world snd fst] in *.
      destruct ks; [|done]. cbn [windows_length foldr streamed] in *.
      split; [f_equal; lia|done].
    + change (last ((k, _) :: ko :: outs)) with (last (ko :: outs)).
      destruct (last (ko :: outs)) as [ko'|] eqn:El.
      * cbn [fst snd] in *. rewrite Hp, Hlog. cbn [fst snd].
        split; [f_equal; lia|by rewrite <- app_assoc].
      * by apply last_None in El.
Qed.

End Ways.

Section Stuck.

Context `{BloomFilterOps} `{ChunkedEncoding} `{!ChunkedEncodingLaws}.
Variable char_is_signed : bool.
Context {A : Type} (handlers : Handlers A).

(** X12.  A fallback buffer that is full stays full: whatever the window
    of a later call holds, none of it is taken in, the error handler is
    the only callback and its result is returned, and the parser is in
    that state again. *)
Theorem full_fallback_is_final (p : HttpParser) (k : Call) (w : World A) :
  Inv p → remainingStreamingBytes p = 0 → zlen (fallback p) = MAX_FALLBACK_SIZE →
  call_ok k →
  ∃ fb',
    consume char_is_signed handlers p k w
    = Some (MkOutcome (MkParser fb' 0) (callError handlers w (call_user k)).1
                      (callError handlers w (call_user k)).2)
    ∧ pattern fb' = pattern (fallback p)
    ∧ Inv (MkParser fb' 0) ∧ zlen fb' = MAX_FALLBACK_SIZE.
Proof.
  intros Hp Hrsb Hfull Hk.
  assert (fallback p ≠ []) as Hne.
  { intros E. rewrite E in Hfull. done. }
  pose proof (call_size k Hk) as Hsize.
  assert (fallback p
          ++ slice (call_mem k) (call_data k)
               (Z.min (MAX_FALLBACK_SIZE - zlen (fallback p)) (call_length k))
          = fallback p) as Hfb.
  { rewrite Hfull, Z.sub_diag, Z.min_l by lia.
    unfold slice. change (Z.to_nat 0) with 0%nat. by rewrite take_0, app_nil_r. }
  destruct (consume_fallback_full_bytes char_is_signed handlers p k w Hp Hk Hrsb Hne)
    as (fb' & Hrun & Hpat & Hok).
  { cbv zeta. by rewrite Hfb. }
  { cbv zeta. rewrite Hfb. apply Hp. }
  cbv zeta in Hpat. rewrite Hfb in Hpat.
  exists fb'. split; [done|]. split; [done|].
  assert (zlen fb' = MAX_FALLBACK_SIZE) as Hlen.
  { rewrite <- Hfull. unfold zlen. f_equal.
    by apply pattern_length. }
  split; [|done].
  split; cbn [fallback remainingStreamingBytes]; try done; try lia; try (by right).
  apply (NoHead_pattern (fallback p)); [done|apply Hp].
Qed.

End Stuck.

(** ** A head completed from the bytes carried over *)

Lemma slice_app_ge (pre d rest : list Z) n :
  zlen d ≤ n → slice (pre ++ d ++ rest) (zlen pre) n = d ++ slice rest 0 (n - zlen d).
Proof.
  intros Hn. unfold slice, zlen in *. rewrite !Nat2Z.id, drop_app_length.
  rewrite take_app_ge by lia. change (Z.to_nat 0) with 0%nat. rewrite drop_0.
  do 2 f_equal. lia.
Qed.

Lemma bytes_ok_zeros n : bytes_ok (replicate n 0).
Proof. apply Forall_replicate. done. Qed.

Section Resume.

Context `{BloomFilterOps} `{!BloomFilterSound} `{ChunkedEncoding}.
Variable char_is_signed : bool.
Context {A : Type} (handlers : Handlers A).

(** The body framing in the fallback buffer moves nothing. *)
Lemma frameBody_true_keeps user (c : Cursor A) :
  c_consumedTotal (frameBody char_is_signed handlers true user c) = c_consumedTotal c
  ∧ c_req (frameBody char_is_signed handlers true user c) = c_req c.
Proof. unfold frameBody. by repeat case_match. Qed.

(** The body framing behind a head that was parsed in the fallback
    buffer. *)
Lemma frameBody_true_message user (c : Cursor A) pre l0 hdrs body post w1 :
  HeadAt c pre (l0 :: hdrs) post → framed char_is_signed (l0 :: hdrs, body) →
  let c1 := head_cursor c pre (l0 :: hdrs) post w1 in
  frameBody char_is_signed handlers true user c1
  = if bool_decide (lower (key_of l0) = bytes "get")
    then MkCursor (c_mem c1) (c_data c1) (c_length c1) (c_consumedTotal c1) (c_req c1)
                  (c_remaining c1) (callData handlers w1 user [] true).1
    else MkCursor (c_mem c1) (c_data c1) (c_length c1) (c_consumedTotal c1) (c_req c1)
                  (zlen body) w1.
Proof.
  intros Hhead (Hne & Hv & Hn & Hl0 & Hokm & Hframe) c1. cbn [fst snd hd tl] in *.
  destruct (bool_decide (lower (key_of l0) = bytes "get")) eqn:Hget.
  - apply bool_decide_eq_true in Hget.
    rewrite frameBody_get
      by (cbn [c1 head_cursor c_mem c_req]; by rewrite head_request_method).
    done.
  - apply bool_decide_eq_false in Hget. destruct Hframe as [Hcl Hvalue].
    destruct (head_request_header c pre l0 hdrs post (bytes "content-length") Hhead)
      as [Hbytes Hlenv].
    set (v := lookup_header (bytes "content-length") hdrs) in *.
    assert (0 < zlen v) as Hvpos.
    { assert (length v ≠ 0%nat) by (by intros E%length_zero_iff_nil). unfold zlen. lia. }
    unfold frameBody.
    cbn [c1 head_cursor c_mem c_req c_world c_data c_length c_consumedTotal c_remaining].
    rewrite bool_decide_eq_false_2 by (by rewrite head_request_method).
    cbn [negb]. rewrite Hbytes.
    destruct (Z.eqb_spec (sv_len (getHeader (head_mem' pre (l0 :: hdrs) post)
                                            (head_request c pre (l0 :: hdrs) post)
                                            (bytes "content-length"))) 0)
      as [E|_]; [lia|].
    cbn [negb]. by rewrite Hvalue.
Qed.

(** The body framing in the fallback buffer of a request that is not a
    get and has no Content-Length value. *)
Lemma frameBody_true_chunked user (c : Cursor A) pre l0 hdrs post w1 :
  HeadAt c pre (l0 :: hdrs) post →
  lower (key_of l0) ≠ bytes "get" → lookup_header (bytes "content-length") hdrs = [] →
  let c1 := head_cursor c pre (l0 :: hdrs) post w1 in
  frameBody char_is_signed handlers true user c1
  = MkCursor (c_mem c1) (c_data c1) (c_length c1) (c_consumedTotal c1) (c_req c1)
             STATE_IS_CHUNKED w1.
Proof.
  intros Hhead Hget Hcl c1.
  destruct (head_request_header c pre l0 hdrs post (bytes "content-length") Hhead)
    as [Hbytes Hlenv].
  rewrite Hcl, zlen_nil in Hlenv.
  unfold frameBody.
  cbn [c1 head_cursor c_mem c_req c_world c_data c_length c_consumedTotal c_remaining].
  rewrite bool_decide_eq_false_2 by (by rewrite head_request_method).
  cbn [negb]. by rewrite Hlenv.
Qed.

(** A call that completes the head carried over, up to the body framing:
    the head is parsed in the fallback buffer, the request handler is
    called, and the call goes on in the window behind the head. *)
Lemma consume_fallback_head fb mem data len user req (w : World A) lines d rest pre :
  (∀ a user mem req, (requestHandler handlers a user mem req).2 = user) →
  bytes_ok fb → fb ≠ [] → zlen fb ≤ MAX_FALLBACK_SIZE →
  lines ≠ [] → valid_lines lines → zlen lines ≤ MAX_HEADERS - 1 →
  fb ++ d = head_bytes lines → zlen (head_bytes lines) ≤ MAX_FALLBACK_SIZE →
  call_ok (MkCall mem data len user req) →
  length (headers req) = Z.to_nat MAX_HEADERS →
  mem = pre ++ d ++ rest → data = zlen pre → zlen d ≤ len →
  ∃ (c : Cursor A) post' w1,
    HeadAt c [] lines post' ∧ c_remaining c = 0
    ∧ w1.2 = w.2 ++ [RequestEvent user (head_mem' [] lines post')
                                  (head_request c [] lines post') user]
    ∧ let c' := frameBody char_is_signed handlers true user
                  (head_cursor c [] lines post' w1) in
      consume char_is_signed handlers (MkParser fb 0) (MkCall mem data len user req) w
      = if negb (c_remaining c' =? 0) then
          match resumeLength handlers (c_remaining c') mem (data + zlen d) (len - zlen d)
                             user (c_world c') with
          | Returned remaining w returned =>
              Some (MkOutcome (MkParser [] remaining) w returned)
          | Continue remaining data length w =>
              consumeFresh char_is_signed handlers [] remaining mem data length user
                           (c_req c') w
          end
        else consumeFresh char_is_signed handlers [] (c_remaining c') mem (data + zlen d)
                          (len - zlen d) user (c_req c') (c_world c').
Proof.
  intros Hkeep_r Hokfb Hfbne Hbound Hne Hv Hn Hhead Hfit [Hok Hd Hl Hpad] Hslots Hmem
    Hdata Hlen.
  cbn [call_mem call_data call_length call_user call_req] in *.
  unfold MINIMUM_HTTP_POST_PADDING in *.
  pose proof (zlen_nonneg fb) as Hfb0. pose proof (zlen_nonneg d) as Hd0.
  pose proof (zlen_nonneg pre) as Hpre0.
  assert (0 < zlen fb) as Hfbpos.
  { assert (length fb ≠ 0%nat) by (by intros E%length_zero_iff_nil). unfold zlen. lia. }
  assert (zlen fb + zlen d = zlen (head_bytes lines)) as Hsum
    by (by rewrite <- Hhead, zlen_app).
  set (n := zlen (head_bytes lines)) in *.
  unfold consume, consumePostPadded.
  cbn [fallback remainingStreamingBytes call_mem call_data call_length call_user call_req].
  cbn [Z.eqb negb].
  destruct (Z.eqb_spec (zlen fb) 0) as [E|_]; [lia|]. cbn [negb].
  unfold MAX_FALLBACK_SIZE in *.
  rewrite (u32_small (zlen fb)) by lia.
  replace (u64 (1024 * 4 - zlen fb)) with (1024 * 4 - zlen fb)
    by (unfold u64; rewrite Z.mod_small; lia).
  set (cp := Z.min (1024 * 4 - zlen fb) len).
  assert (zlen d ≤ cp ≤ len) as Hcp by (unfold cp; lia).
  set (extra := slice rest 0 (cp - zlen d)).
  assert (slice mem data cp = d ++ extra) as Hslice.
  { rewrite Hmem, Hdata. apply slice_app_ge. lia. }
  rewrite Hslice. rewrite (app_assoc fb d extra), Hhead.
  assert (zlen extra = cp - zlen d) as Hextra.
  { unfold extra. apply zlen_slice; [lia|lia|].
    rewrite Hmem, !zlen_app in Hpad. lia. }
  assert (bytes_ok extra) as Hokextra.
  { apply bytes_ok_slice. rewrite Hmem in Hok.
    apply bytes_ok_app in Hok as [_ Hok]. by apply bytes_ok_app in Hok as [_ Hok]. }
  assert (bytes_ok (head_bytes lines)) as Hokhead.
  { rewrite <- Hhead. apply bytes_ok_app. split; [done|]. rewrite Hmem in Hok.
    apply bytes_ok_app in Hok as [_ Hok]. by apply bytes_ok_app in Hok as [Hok _]. }
  rewrite zlen_app. fold n. rewrite (u32_small (n + zlen extra)) by lia.
  unfold fenceAndConsumePostPadded at 1.
  change (wr (wr ?m (0 + ?F) 13) (0 + ?F + 1) 97) with (fenced m (0 + F)).
  set (zeros := replicate (Z.to_nat MINIMUM_HTTP_POST_PADDING) 0).
  set (post' := fenced (extra ++ zeros) (zlen extra)).
  assert (fenced ((head_bytes lines ++ extra) ++ zeros) (0 + (n + zlen extra))
          = [] ++ head_bytes lines ++ post') as Hfenced.
  { rewrite <- app_assoc. rewrite fenced_app by (fold n; lia). cbn [app].
    f_equal. unfold post'. f_equal. fold n. lia. }
  rewrite Hfenced.
  set (c := MkCursor ([] ++ head_bytes lines ++ post') 0 (n + zlen extra) 0 req 0 w).
  assert (HeadAt c [] lines post') as Hat.
  { split; cbn [c c_mem c_data c_req c_length]; try done; [|fold n; lia].
    rewrite <- Hfenced. apply bytes_ok_fenced.
    apply bytes_ok_app. split; [by apply bytes_ok_app|apply bytes_ok_zeros]. }
  cbn [fenceAndConsume_loop].
  rewrite (step_head char_is_signed handlers true user c [] lines post' Hat).
  set (mem' := head_mem' [] lines post').
  set (req' := head_request c [] lines post').
  pose proof (callRequest_log handlers (c_world c) user mem' req') as Hlog.
  pose proof (callRequest_returned handlers (c_world c) user mem' req') as Hret.
  rewrite Hkeep_r in Hret.
  destruct (callRequest handlers (c_world c) user mem' req') as [w1 r].
  cbn [fst snd] in Hlog, Hret. subst r. cbv zeta. rewrite Z.eqb_refl. cbn [negb].
  exists c, post', w1. split; [done|]. split; [done|]. split; [done|].
  cbn [mbind option_bind]. rewrite Z.eqb_refl. cbn [negb].
  destruct (frameBody_true_keeps user (head_cursor c [] lines post' w1)) as [-> ->].
  cbn [head_cursor c c_consumedTotal c_req]. fold n. fold c. fold req'.
  rewrite (u32_small (0 + n)) by lia.
  destruct (Z.eqb_spec (0 + n) 0) as [E|_]; [lia|]. cbn [negb].
  replace (0 + n - zlen fb) with (zlen d) by lia.
  rewrite (u32_small (zlen d)) by lia.
  rewrite (u32_small (len - zlen d)) by lia.
  done.
Qed.

(** The call that completes the head carried over, with what follows the
    head in the window. *)
Lemma consume_completed_head (p : HttpParser) (k : Call) (w : World A)
    lines d body ms tail pre post :
  keeps_token handlers → Inv p → remainingStreamingBytes p = 0 → fallback p ≠ [] →
  framed char_is_signed (lines, body) → Forall (framed char_is_signed) ms →
  NoHead tail → zlen tail < MAX_FALLBACK_SIZE →
  fallback p ++ d = head_bytes lines → zlen (head_bytes lines) ≤ MAX_FALLBACK_SIZE →
  call_ok k → length (headers (call_req k)) = Z.to_nat MAX_HEADERS →
  call_mem k = pre ++ d ++ body ++ messages_bytes ms ++ tail ++ post →
  call_data k = zlen pre →
  call_length k = zlen d + zlen body + zlen (messages_bytes ms) + zlen tail →
  ∃ o tail',
    consume char_is_signed handlers p k w = Some o
    ∧ o_returned o = call_user k
    ∧ o_parser o = MkParser tail' 0
    ∧ pattern tail' = pattern tail
    ∧ map observe (o_world o).2
      = map observe w.2 ++ seen_resumed (call_user k) (lines, body)
        ++ concat (map (seen_message (call_user k)) ms).
Proof.
  destruct p as [fb rsb], k as [mem data len user req].
  intros Hkeep [_ _ Hbound Hokfb Hnofb] Hrsb Hfbne Hm Hms Hno Htail Hhead Hfit
    Hk Hslots Hmem Hdata Hlength.
  pose proof Hk as [Hok Hd Hl Hpad].
  cbn [fallback remainingStreamingBytes call_mem call_data call_length call_user
       call_req] in *.
  subst rsb. unfold MINIMUM_HTTP_POST_PADDING in *.
  pose proof Hm as (Hne & Hv & Hn & Hl0 & Hokm & Hframe). cbn [fst snd] in *.
  destruct lines as [|l0 hdrs]; [done|]. cbn [hd tl] in *.
  pose proof (zlen_nonneg fb) as Hfb0. pose proof (zlen_nonneg d) as Hd0.
  pose proof (zlen_nonneg body) as Hbody0. pose proof (zlen_nonneg pre) as Hpre0.
  pose proof (zlen_nonneg (messages_bytes ms)) as Hms0.
  pose proof (zlen_nonneg tail) as Htail0.
  destruct Hkeep as [Hkeep_r Hkeep_d].
  destruct (consume_fallback_head fb mem data len user req w (l0 :: hdrs) d
              (body ++ messages_bytes ms ++ tail ++ post) pre Hkeep_r Hokfb Hfbne Hbound
              Hne Hv Hn Hhead Hfit Hk Hslots Hmem Hdata ltac:(lia))
    as (c & post' & w1 & Hat & Hrem & Hlog & ->).
  set (mem' := head_mem' [] (l0 :: hdrs) post') in *.
  set (req' := head_request c [] (l0 :: hdrs) post') in *.
  pose proof (observe_head_request c [] l0 hdrs post' user user Hat Hl0) as Hobs.
  fold mem' req' in Hobs.
  assert (length (headers req') = Z.to_nat MAX_HEADERS) as Hslots'.
  { unfold req'. rewrite head_request_length. apply Hat. }
  unfold MAX_FALLBACK_SIZE in *.
  rewrite (frameBody_true_message user c [] l0 hdrs body post' w1 Hat Hm).
  cbn [head_cursor c_mem c_data c_length c_consumedTotal c_req c_remaining c_world].
  fold mem' req'.
  unfold seen_resumed. cbn [fst snd hd].
  destruct (bool_decide (lower (key_of l0) = bytes "get")) eqn:Hget;
    cbn [c_consumedTotal c_remaining c_world c_req].
  - subst body. rewrite Hrem. cbn [Z.eqb negb]. rewrite zlen_nil in *.
    destruct (consumeFresh_messages char_is_signed handlers mem (data + zlen d)
                (len - zlen d) user req' (callData handlers w1 user [] true).1
                ms tail (pre ++ d) post (conj Hkeep_r Hkeep_d) Hms Hno)
      as (o & tail' & -> & Hr & Hp & Hpat & Hlogo);
      [done|done|lia|lia|lia|done| |rewrite zlen_app; lia|lia|].
    { rewrite Hmem. cbn [app]. by rewrite <- app_assoc. }
    exists o, tail'. split_and!; [done|done|done|done|].
    rewrite Hlogo, callData_log, Hlog, callData_returned, Hkeep_d.
    rewrite !map_app. cbn [map]. rewrite Hobs. by rewrite <- !app_assoc.
  - destruct (Z.eqb_spec (zlen body) 0) as [E0|E0]; cbn [negb].
    + assert (body = []) as -> by (apply length_zero_iff_nil; unfold zlen in *; lia).
      rewrite zlen_nil in *.
      destruct (consumeFresh_messages char_is_signed handlers mem (data + zlen d)
                  (len - zlen d) user req' w1
                  ms tail (pre ++ d) post (conj Hkeep_r Hkeep_d) Hms Hno)
        as (o & tail' & -> & Hr & Hp & Hpat & Hlogo);
        [done|done|lia|lia|lia|done| |rewrite zlen_app; lia|lia|].
      { rewrite Hmem. cbn [app]. by rewrite <- app_assoc. }
      exists o, tail'. split_and!; [done|done|done|done|].
      rewrite Hlogo, Hlog. rewrite !map_app. cbn [map]. rewrite Hobs.
      by rewrite <- !app_assoc.
    + unfold resumeLength.
      assert (slice mem (data + zlen d) (zlen body) = body) as Hbody.
      { rewrite Hmem. rewrite (app_assoc pre).
        replace (data + zlen d) with (zlen (pre ++ d)) by (rewrite zlen_app; lia).
        apply slice_at. }
      destruct (Z.leb_spec (len - zlen d) (zlen body)) as [Hle|Hgt].
      * assert (zlen (messages_bytes ms) = 0 ∧ zlen tail = 0) as [Hz1 Hz2] by lia.
        assert (ms = []) as ->.
        { pose proof (length_messages ms). destruct ms; [done|]. cbn [length] in *. lia. }
        assert (tail = []) as -> by (apply length_zero_iff_nil; unfold zlen in *; lia).
        replace (len - zlen d) with (zlen body) by lia. rewrite Hbody.
        pose proof (callData_log handlers w1 user body (zlen body =? zlen body)) as Hlogd.
        pose proof (callData_returned handlers w1 user body (zlen body =? zlen body))
          as Hretd.
        rewrite Hkeep_d in Hretd.
        destruct (callData handlers w1 user body (zlen body =? zlen body)) as [w2 r2].
        cbn [fst snd] in Hlogd, Hretd. subst r2.
        rewrite Z.sub_diag. change (u32 0) with 0.
        eexists _, []. split; [done|]. cbn [o_returned o_parser o_world].
        split_and!; [done|done|done|].
        rewrite Hlogd, Hlog, Z.eqb_refl. rewrite !map_app. cbn [map concat].
        rewrite Hobs. by rewrite <- !app_assoc, app_nil_r.
      * rewrite Hbody.
        pose proof (callData_log handlers w1 user body true) as Hlogd.
        pose proof (callData_returned handlers w1 user body true) as Hretd.
        rewrite Hkeep_d in Hretd.
        destruct (callData handlers w1 user body true) as [w2 r2].
        cbn [fst snd] in Hlogd, Hretd. subst r2. rewrite Z.eqb_refl. cbn [negb].
        rewrite (u32_small (len - zlen d - zlen body)) by lia.
        destruct (consumeFresh_messages char_is_signed handlers mem
                    (data + zlen d + zlen body) (len - zlen d - zlen body) user req' w2
                    ms tail (pre ++ d ++ body) post (conj Hkeep_r Hkeep_d) Hms Hno)
          as (o & tail' & -> & Hr & Hp & Hpat & Hlogo);
          [done|done|lia|lia|lia|done| |rewrite !zlen_app; lia|lia|].
        { rewrite Hmem. by rewrite <- !app_assoc. }
        exists o, tail'. split_and!; [done|done|done|done|].
        rewrite Hlogo, Hlogd, Hlog. rewrite !map_app. cbn [map]. rewrite Hobs.
        by rewrite <- !app_assoc.
Qed.


(** X11.  A request that is not a get and has no Content-Length value is
    taken to have a chunked body.  When its head is completed from the
    bytes carried over, the rest of the window does not go through the
    chunk decoder: it is handed to the data handler as it is, in one
    chunk, and its length is subtracted from the decoder's state. *)
Theorem chunked_body_behind_fallback_head (p : HttpParser) (k : Call) (w : World A)
    l0 hdrs d rest pre post :
  keeps_token handlers → Inv p → remainingStreamingBytes p = 0 → fallback p ≠ [] →
  valid_lines (l0 :: hdrs) → zlen (l0 :: hdrs) ≤ MAX_HEADERS - 1 → zlen l0 < 2 ^ 31 →
  lower (key_of l0) ≠ bytes "get" → lookup_header (bytes "content-length") hdrs = [] →
  fallback p ++ d = head_bytes (l0 :: hdrs) →
  zlen (head_bytes (l0 :: hdrs)) ≤ MAX_FALLBACK_SIZE →
  call_ok k → length (headers (call_req k)) = Z.to_nat MAX_HEADERS →
  call_mem k = pre ++ d ++ rest ++ post → call_data k = zlen pre →
  call_length k = zlen d + zlen rest →
  0 < STATE_IS_CHUNKED < 2 ^ 32 → zlen rest ≤ STATE_IS_CHUNKED →
  ∃ o,
    consume char_is_signed handlers p k w = Some o
    ∧ o_returned o = call_user k
    ∧ o_parser o = MkParser [] (STATE_IS_CHUNKED - zlen rest)
    ∧ map observe (o_world o).2
      = map observe w.2
        ++ [SeenRequest (lower (key_of l0)) (url_of (target_of (value_of l0)))
                        (query_of (target_of (value_of l0)))
                        (bool_decide (last (value_of l0) = Some 48)) (call_user k);
            SeenData rest (STATE_IS_CHUNKED =? zlen rest) (call_user k)].
Proof.
  destruct p as [fb rsb], k as [mem data len user req].
  intros Hkeep [_ _ Hbound Hokfb Hnofb] Hrsb Hfbne Hv Hn Hl0 Hget Hcl Hhead Hfit
    Hk Hslots Hmem Hdata Hlength Hstate Hrest.
  pose proof Hk as [Hok Hd Hl Hpad].
  cbn [fallback remainingStreamingBytes call_mem call_data call_length call_user
       call_req] in *.
  subst rsb.
  pose proof (zlen_nonneg d) as Hd0. pose proof (zlen_nonneg rest) as Hrest0.
  pose proof (zlen_nonneg pre) as Hpre0.
  destruct Hkeep as [Hkeep_r Hkeep_d].
  destruct (consume_fallback_head fb mem data len user req w (l0 :: hdrs) d
              (rest ++ post) pre Hkeep_r Hokfb Hfbne Hbound
              ltac:(done) Hv Hn Hhead Hfit Hk Hslots Hmem Hdata ltac:(lia))
    as (c & post' & w1 & Hat & Hrem & Hlog & ->).
  pose proof (observe_head_request c [] l0 hdrs post' user user Hat Hl0) as Hobs.
  rewrite (frameBody_true_chunked user c [] l0 hdrs post' w1 Hat Hget Hcl).
  cbn [c_remaining c_world c_req].
  destruct (Z.eqb_spec STATE_IS_CHUNKED 0) as [E|_]; [lia|]. cbn [negb].
  unfold resumeLength.
  destruct (Z.leb_spec (len - zlen d) STATE_IS_CHUNKED) as [_|Hgt]; [|lia].
  replace (len - zlen d) with (zlen rest) by lia.
  assert (slice mem (data + zlen d) (zlen rest) = rest) as ->.
  { rewrite Hmem. rewrite (app_assoc pre).
    replace (data + zlen d) with (zlen (pre ++ d)) by (rewrite zlen_app; lia).
    apply slice_at. }
  pose proof (callData_log handlers w1 user rest (STATE_IS_CHUNKED =? zlen rest)) as Hlogd.
  pose proof (callData_returned handlers w1 user rest (STATE_IS_CHUNKED =? zlen rest))
    as Hretd.
  rewrite Hkeep_d in Hretd.
  destruct (callData handlers w1 user rest (STATE_IS_CHUNKED =? zlen rest)) as [w2 r2].
  cbn [fst snd] in Hlogd, Hretd. subst r2.
  rewrite (u32_small (STATE_IS_CHUNKED - zlen rest)) by lia.
  eexists. split; [done|]. cbn [o_returned o_parser o_world].
  split_and!; [done|done|].
  rewrite Hlogd, Hlog. rewrite !map_app. cbn [map]. rewrite Hobs.
  by rewrite <- !app_assoc.
Qed.

End Resume.

(** ** Heads with too many lines *)

(** The lines of a head are determined by its bytes. *)
Lemma tail_lines_unique (ls : list (list Z)) : ∀ ls' rest rest',
  Forall no_cr ls → Forall (λ l, l ≠ []) ls →
  Forall no_cr ls' → Forall (λ l, l ≠ []) ls' →
  head_bytes ls ++ rest = head_bytes ls' ++ rest' → ls = ls'.
Proof.
  induction ls as [|l ls IH]; intros ls' rest rest' Hcr Hne Hcr' Hne' Heq.
  - destruct (head_tail_cases ls' rest' Hcr' Hne') as [[-> _]|[_ Hhd]]; [done|].
    rewrite <- Heq in Hhd. done.
  - inversion Hcr as [|?? Hl Hcr0]; inversion Hne as [|?? Hlne Hne0]; subst.
    rewrite head_bytes_cons, <- app_assoc in Heq. cbn [app] in Heq.
    destruct ls' as [|l' ls'].
    { apply (f_equal (hd 0)) in Heq.
      pose proof (hd_nonempty_no_cr l (13 :: 10 :: head_bytes ls ++ rest) Hlne Hl).
      by rewrite Heq in *. }
    destruct (head_at_line [] l (10 :: head_bytes ls ++ rest) (l' :: ls') rest' Hl)
      as (ls2 & E & Htail & Hcr2 & Hne2); [done| |done|].
    { split; [done|]. by inversion Hne'. }
    inversion E; subst. inversion Htail as [Htail']. f_equal.
    by apply (IH ls2 rest rest').
Qed.

Lemma head_lines_unique (lines lines' : list (list Z)) rest rest' :
  lines ≠ [] → valid_lines lines → lines' ≠ [] → valid_lines lines' →
  head_bytes lines ++ rest = head_bytes lines' ++ rest' → lines = lines'.
Proof.
  intros Hne [Hcr Htl] Hne' Hv' Heq. destruct lines as [|l ls]; [done|].
  inversion Hcr as [|?? Hl Hcr0]; subst. cbn [tail] in Htl.
  rewrite head_bytes_cons, <- app_assoc in Heq. cbn [app] in Heq.
  destruct (head_at_line [] l (10 :: head_bytes ls ++ rest) lines' rest' Hl Hne' Hv' Heq)
    as (ls2 & -> & Htail & Hcr2 & Hne2).
  inversion Htail as [Htail']. f_equal.
  by apply (tail_lines_unique ls ls2 rest rest').
Qed.


Section Lines.

Context `{BloomFilterOps} `{ChunkedEncoding}.
Variable char_is_signed : bool.
Context {A : Type} (handlers : Handlers A).



End Lines.

(** ** A body that begins in the window of its head *)

Section Partial.

Context `{BloomFilterOps} `{!BloomFilterSound} `{ChunkedEncoding}.
Variable char_is_signed : bool.
Context {A : Type} (handlers : Handlers A).

(** X8.  Requests with their bodies, and behind them a request whose
    Content-Length announces more bytes than the window still holds: the
    requests are handed over in order, the part of the body that is there
    goes to the data handler in one chunk that is not flagged as the last
    one, nothing is carried over as head bytes, and the parser expects the
    bytes that are missing. *)
Theorem body_begins_in_window (p : HttpParser) (k : Call) (w : World A)
    ms l0 hdrs part pre post :
  keeps_token handlers → Forall (framed char_is_signed) ms →
  fallback p = [] → remainingStreamingBytes p = 0 →
  call_ok k → length (headers (call_req k)) = Z.to_nat MAX_HEADERS →
  valid_lines (l0 :: hdrs) → zlen (l0 :: hdrs) ≤ MAX_HEADERS - 1 → zlen l0 < 2 ^ 31 →
  lower (key_of l0) ≠ bytes "get" →
  lookup_header (bytes "content-length") hdrs ≠ [] →
  zlen part < toUnsignedInteger char_is_signed
                (lookup_header (bytes "content-length") hdrs) →
  call_mem k = pre ++ messages_bytes ms ++ head_bytes (l0 :: hdrs) ++ part ++ post →
  call_data k = zlen pre →
  call_length k = zlen (messages_bytes ms) + zlen (head_bytes (l0 :: hdrs)) + zlen part →
  ∃ o,
    consume char_is_signed handlers p k w = Some o
    ∧ o_returned o = call_user k
    ∧ o_parser o
      = MkParser [] (toUnsignedInteger char_is_signed
                       (lookup_header (bytes "content-length") hdrs) - zlen part)
    ∧ map observe (o_world o).2
      = map observe w.2 ++ concat (map (seen_message (call_user k)) ms)
        ++ [SeenRequest (lower (key_of l0)) (url_of (target_of (value_of l0)))
                        (query_of (target_of (value_of l0)))
                        (bool_decide (last (value_of l0) = Some 48)) (call_user k);
            SeenData part false (call_user k)].
Proof.
  destruct p as [fb rsb], k as [mem data len user req].
  intros Hkeep Hms Hfb Hrsb [Hok Hd Hl Hpad] Hslots Hv Hn Hl0 Hget Hcl Hpart Hmem Hdata
    Hlength.
  cbn [fallback remainingStreamingBytes call_mem call_data call_length call_user
       call_req] in *.
  subst fb rsb. unfold MINIMUM_HTTP_POST_PADDING in *.
  set (n := toUnsignedInteger char_is_signed
              (lookup_header (bytes "content-length") hdrs)) in *.
  pose proof (toUnsignedInteger_range char_is_signed
                (lookup_header (bytes "content-length") hdrs)) as Hrange. fold n in Hrange.
  set (head := head_bytes (l0 :: hdrs)) in *.
  unfold consume, consumePostPadded.
  cbn [fallback remainingStreamingBytes call_mem call_data call_length call_user call_req].
  cbn [Z.eqb negb]. rewrite zlen_nil. cbn [Z.eqb negb].
  unfold consumeFresh, fenceAndConsumePostPadded.
  change (wr (wr mem (data + len) 13) (data + len + 1) 97)
    with (fenced mem (data + len)).
  pose proof (zlen_nonneg (messages_bytes ms)) as Hms0.
  pose proof (zlen_nonneg part) as Hpart0. pose proof (zlen_nonneg pre) as Hpre0.
  pose proof (zlen_head_bytes_pos (l0 :: hdrs)) as Hhead0. fold head in Hhead0.
  pose proof (length_messages ms) as Hcount.
  assert (2 ≤ zlen post) as Hpost.
  { rewrite Hmem, !zlen_app in Hpad. lia. }
  assert (bytes_ok (fenced mem (data + len))) as Hokf by (by apply bytes_ok_fenced).
  set (post' := fenced post 0).
  assert (fenced mem (data + len) = pre ++ messages_bytes ms ++ head ++ part ++ post')
    as Hfenced.
  { rewrite Hmem, !(app_assoc pre), (app_assoc (pre ++ _)),
      (app_assoc ((pre ++ _) ++ _)).
    rewrite fenced_app by (rewrite !zlen_app; lia).
    rewrite <- !app_assoc. do 4 f_equal. unfold post'. f_equal.
    rewrite !zlen_app. lia. }
  rewrite Hfenced in Hokf.
  apply bytes_ok_app in Hokf as [Hokpre Hokf].
  apply bytes_ok_app in Hokf as [_ Hokrest].
  replace (S (Z.to_nat len))
    with (length ms + S (S (Z.to_nat len - length ms - 1)))%nat by lia.
  destruct (loop_messages char_is_signed handlers user ms
              (S (S (Z.to_nat len - length ms - 1)))
              (MkCursor (fenced mem (data + len)) data len 0 req 0 w)
              pre (head ++ part ++ post') Hkeep Hms)
    as (c2 & -> & Hmem2 & Hdata2 & Hlen2 & Htotal2 & Hrem2 & Hslots2 & Hlog2);
    [done|done|done|done|done|cbn; lia|cbn; lia|cbn; lia|].
  cbn [c_data c_length c_consumedTotal c_remaining log c_world] in *.
  specialize (Hrem2 eq_refl).
  set (pre2 := pre ++ messages_bytes (map lower_message ms)) in *.
  assert (zlen pre2 = data + zlen (messages_bytes ms)) as Hpre2.
  { unfold pre2. rewrite zlen_app, zlen_lower_messages. lia. }
  assert (bytes_ok pre2) as Hokpre2.
  { unfold pre2. apply bytes_ok_app. split; [done|].
    clear -Hms. unfold messages_bytes.
    induction Hms as [|m' ms' Hm' _ IH']; [constructor|].
    cbn [map concat]. apply bytes_ok_app. split; [|done].
    destruct Hm' as (_ & _ & _ & _ & ? & _). by apply bytes_ok_lower_message. }
  assert (HeadAt c2 pre2 (l0 :: hdrs) (part ++ post')) as Hat.
  { split; try done; [lia| |fold head; lia].
    rewrite Hmem2. by apply bytes_ok_app. }
  cbn [fenceAndConsume_loop].
  rewrite (step_head char_is_signed handlers false user c2 pre2 (l0 :: hdrs)
             (part ++ post') Hat).
  set (mem' := head_mem' pre2 (l0 :: hdrs) (part ++ post')).
  set (req' := head_request c2 pre2 (l0 :: hdrs) (part ++ post')).
  destruct Hkeep as [Hkeep_r Hkeep_d].
  pose proof (callRequest_log handlers (c_world c2) user mem' req') as Hlog.
  pose proof (callRequest_returned handlers (c_world c2) user mem' req') as Hret.
  rewrite Hkeep_r in Hret.
  destruct (callRequest handlers (c_world c2) user mem' req') as [w1 r].
  cbn [fst snd] in Hlog, Hret. subst r. cbv zeta. rewrite Z.eqb_refl. cbn [negb].
  pose proof (observe_head_request c2 pre2 l0 hdrs (part ++ post') user user Hat Hl0)
    as Hobs. fold mem' req' in Hobs.
  destruct (head_request_header c2 pre2 l0 hdrs (part ++ post') (bytes "content-length")
              Hat) as [Hbytes Hlenv].
  fold mem' req' in Hbytes, Hlenv.
  set (v := lookup_header (bytes "content-length") hdrs) in *.
  assert (0 < zlen v) as Hvpos.
  { assert (length v ≠ 0%nat) by (by intros E%length_zero_iff_nil). unfold zlen. lia. }
  unfold frameBody.
  cbn [head_cursor c_mem c_req c_world c_data c_length c_consumedTotal c_remaining].
  fold mem' req' head.
  rewrite bool_decide_eq_false_2
    by (unfold mem', req'; by rewrite head_request_method).
  cbn [negb]. rewrite Hbytes.
  destruct (Z.eqb_spec (sv_len (getHeader mem' req' (bytes "content-length"))) 0)
    as [E|_]; [lia|].
  cbn [negb]. fold n.
  replace (c_length c2 - zlen head) with (zlen part) by lia.
  rewrite (Z.min_r n (zlen part)) by lia.
  destruct (Z.eqb_spec (zlen part) n) as [E|_]; [lia|].
  assert (slice mem' (c_data c2 + zlen head) (zlen part) = part) as ->.
  { unfold mem', head_mem'. rewrite (app_assoc pre2).
    replace (c_data c2 + zlen head)
      with (zlen (pre2 ++ head_bytes (map lower_line (l0 :: hdrs))))
      by (rewrite zlen_app, zlen_head_lower; fold head; lia).
    apply slice_at. }
  rewrite Z.sub_diag. change (u32 0) with 0.
  rewrite (u32_small (c_consumedTotal c2 + zlen head)) by lia.
  rewrite (u32_small (c_consumedTotal c2 + zlen head + zlen part)) by lia.
  rewrite (u32_small (n - zlen part)) by lia.
  cbn [fenceAndConsume_loop fenceAndConsume_step c_length Z.eqb].
  cbn [mbind option_bind]. rewrite Z.eqb_refl. cbn [negb].
  cbn [c_consumedTotal c_remaining c_world].
  replace (len - (c_consumedTotal c2 + zlen head + zlen part)) with 0 by lia.
  change (u32 0) with 0. cbn [Z.eqb negb].
  eexists. split; [done|]. cbn [o_returned o_parser o_world].
  split_and!; [done|done|].
  rewrite callData_log, Hlog, callData_returned, Hkeep_d.
  unfold log in Hlog2. rewrite !map_app, Hlog2. cbn [map]. rewrite Hobs.
  by rewrite <- !app_assoc.
Qed.

End Partial.

(** ** A head that comes in two windows *)

Lemma is_key_byte_lower c : 0 ≤ c < 256 → is_key_byte c = true → is_key_byte (Z.lor c 32) = true.
Proof.
  intros Hc Hk.
  pose proof (byte_cases (λ c, negb (is_key_byte c) || is_key_byte (Z.lor c 32))
                ltac:(by vm_compute) c Hc) as Hcase.
  cbn beta in Hcase. by rewrite Hk in Hcase.
Qed.

Lemma lower_lower k : lower (lower k) = lower k.
Proof.
  unfold lower. rewrite map_map. apply map_ext. intros c.
  by rewrite <- Z.lor_assoc, Z.lor_diag.
Qed.

Lemma key_bytes_lower k :
  bytes_ok k → Forall (λ c, is_key_byte c = true) k →
  Forall (λ c, is_key_byte c = true) (lower k).
Proof.
  intros Hok Hk. apply Forall_map.
  induction Hk as [|c k Hc Hk IH]; [constructor|]. inversion Hok; subst.
  constructor; [by apply is_key_byte_lower|by apply IH].
Qed.

Lemma key_of_app k a :
  Forall (λ c, is_key_byte c = true) k → is_key_byte (hd 0 a) = false →
  key_of (k ++ a) = k ∧ after_key (k ++ a) = a.
Proof.
  intros Hk Ha. induction Hk as [|c k Hc Hk IH]; cbn [app].
  - destruct a as [|c a]; [done|]. cbn in *. by rewrite Ha.
  - cbn. rewrite Hc. destruct IH as [-> ->]. done.
Qed.

(** The key loop on the beginning of a line does to it what it does to
    the beginning of the whole line. *)
Lemma lower_line_take (m : nat) l : lower_line (take m l) = take m (lower_line l).
Proof.
  pose proof (key_split l) as Hl. pose proof (key_of_bytes' l) as Hk.
  pose proof (after_key_hd l) as Ha.
  set (k := key_of l) in *. set (a := after_key l) in *.
  unfold lower_line at 2. fold k a. rewrite <- Hl.
  assert (length (lower k) = length k) as Hlen by (unfold lower; by rewrite length_map).
  destruct (Nat.le_gt_cases m (length k)) as [Hle|Hgt].
  - rewrite !take_app_le by lia.
    destruct (key_of_app (take m k) [] ltac:(by apply Forall_take) eq_refl) as [Hk' Ha'].
    rewrite app_nil_r in Hk', Ha'. unfold lower_line. rewrite Hk', Ha', app_nil_r.
    unfold lower. by rewrite List.firstn_map.
  - rewrite !take_app_ge by lia. rewrite Hlen.
    destruct (key_of_app k (take (m - length k) a) Hk) as [Hk' Ha'].
    { destruct (m - length k)%nat as [|j] eqn:E; [lia|]. by destruct a. }
    unfold lower_line. by rewrite Hk', Ha'.
Qed.

(** A line of which the first [m] bytes have been through the key loop
    has the same key, up to the loop, and the same rest. *)
Lemma mixed_line (m : nat) l :
  bytes_ok l →
  let l' := take m (lower_line l) ++ drop m l in
  lower (key_of l') = lower (key_of l) ∧ after_key l' = after_key l.
Proof.
  intros Hok l'. subst l'.
  pose proof (key_split l) as Hl. pose proof (key_of_bytes' l) as Hk.
  pose proof (after_key_hd l) as Ha.
  set (k := key_of l) in *. set (a := after_key l) in *.
  assert (bytes_ok k) as Hokk by (rewrite <- Hl in Hok; by apply bytes_ok_app in Hok as [? _]).
  unfold lower_line. fold k a. rewrite <- Hl.
  assert (length (lower k) = length k) as Hlen by (unfold lower; by rewrite length_map).
  destruct (Nat.le_gt_cases m (length k)) as [Hle|Hgt].
  - rewrite take_app_le, drop_app_le by lia. rewrite app_assoc.
    destruct (key_of_app (take m (lower k) ++ drop m k) a) as [-> ->]; [|done|].
    { apply Forall_app. split; [apply Forall_take; by apply key_bytes_lower|].
      by apply Forall_drop. }
    split; [|done]. unfold lower. rewrite map_app, <- List.firstn_map, <- List.skipn_map.
    fold (lower k). fold (lower (lower k)). by rewrite lower_lower, take_drop.
  - rewrite take_app_ge, drop_app_ge by lia. rewrite Hlen, <- app_assoc, take_drop.
    destruct (key_of_app (lower k) a) as [-> ->]; [by apply key_bytes_lower|done|].
    by rewrite lower_lower.
Qed.

(** The window that ends inside a head, as the decoder meets it: complete
    lines, and one that the fence or a stray CR ends.  The key loop has
    been over all of them when the decoder gives up. *)
Lemma cut_head_lower lines : ∀ (m : nat) x pad,
  (m < length (head_bytes lines))%nat → x ≠ 10 → Forall no_cr lines →
  ∃ (k : nat) l y post,
    take m (head_bytes lines) ++ 13 :: x :: pad
    = lines_bytes (take k lines) ++ l ++ 13 :: y :: post
    ∧ take m (head_bytes (map lower_line lines)) ++ 13 :: x :: pad
      = lines_bytes (map lower_line (take k lines)) ++ lower_line l ++ 13 :: y :: post
    ∧ no_cr l ∧ y ≠ 10 ∧ (k ≤ length lines)%nat ∧ (k = length lines → l = []).
Proof.
  induction lines as [|l0 rest IH]; intros m x pad Hm Hx Hcr.
  - cbn in Hm. destruct m as [|[|m]]; [| |lia].
    + exists 0%nat, [], x, pad. repeat split; [constructor|done|done].
    + exists 0%nat, [], 13, (x :: pad). repeat split; [constructor|done|done].
  - cbn [map]. rewrite !head_bytes_cons in *. inversion Hcr as [|? ? Hl0 Hcr']; subst.
    pose proof (zlen_lower_line l0) as Hll. unfold zlen in Hll.
    destruct (Nat.le_gt_cases m (length l0)) as [Hle|Hgt].
    + exists 0%nat, (take m l0), x, pad. rewrite !take_app_le by lia.
      rewrite lower_line_take.
      repeat split; [by apply Forall_take|done|cbn; lia|done].
    + rewrite !take_app_ge by lia.
      replace (length (lower_line l0)) with (length l0) by lia.
      destruct (m - length l0)%nat as [|[|m']] eqn:Em; [lia| |].
      * exists 0%nat, l0, 13, (x :: pad). cbn. rewrite <- !app_assoc.
        repeat split; [done|done|lia|done].
      * destruct (IH m' x pad) as (k & l & y & post & Heq & Heql & Hl & Hy & Hk & Hkl);
          [|done|done|].
        { rewrite length_app in Hm. cbn in Hm. lia. }
        exists (S k), l, y, post. cbn [take lines_bytes map].
        rewrite <- !app_assoc. cbn [app take]. rewrite Heq, Heql.
        repeat split; [done|done|cbn; lia|].
        cbn [length]. intros E. apply Hkl. lia.
Qed.

(** [getHeaders] on such a window: the result is 0, and the key loop has
    been over every line. *)
Lemma getHeaders_loop_cut ls : ∀ l n pre x post start hs h,
  bytes_ok (pre ++ lines_bytes ls ++ l ++ 13 :: x :: post) →
  Forall no_cr ls → Forall (λ l, l ≠ []) (tail ls) → no_cr l → x ≠ 10 →
  (length ls < n)%nat ∨ (length ls = n ∧ l = [] ∧ ls ≠ []) →
  ∃ hs',
    getHeaders_loop n (pre ++ lines_bytes ls ++ l ++ 13 :: x :: post) start (zlen pre) hs h
    = Some (pre ++ lines_bytes (map lower_line ls) ++ lower_line l ++ 13 :: x :: post,
            hs', 0).
Proof.
  induction ls as [|l1 ls IH]; intros l n pre x post start hs h Hok Hcr Hne Hl Hx Hn.
  - cbn [lines_bytes app map] in *. destruct n as [|n]; [by destruct Hn as [?|(_ & _ & ?)]; [lia|]|].
    rewrite getHeaders_loop_step by done. cbv zeta. cbn [hd].
    destruct (Z.eqb_spec x 10); [done|]. by eexists.
  - cbn [lines_bytes map] in *. rewrite <- !app_assoc in *. cbn [app] in *.
    destruct n as [|n]; [cbn in Hn; destruct Hn as [?|(? & _)]; lia|].
    inversion Hcr as [|? ? Hl1 Hcr']; subst.
    rewrite getHeaders_loop_step by done. cbv zeta. cbn [hd tl]. rewrite Z.eqb_refl.
    destruct (Z.eqb_spec (hd 0 (lines_bytes ls ++ l ++ 13 :: x :: post)) 13) as [E|E].
    + destruct ls as [|l2 ls].
      * cbn [lines_bytes app map] in *. destruct l as [|c l].
        -- cbn [app tl hd]. destruct (Z.eqb_spec x 10); [done|]. by eexists.
        -- cbn in E. inversion Hl. done.
      * exfalso. cbn [lines_bytes] in E. rewrite <- app_assoc in E. revert E.
        cbn [tail] in Hne. inversion Hne; subst. inversion Hcr'; subst.
        by apply hd_nonempty_no_cr.
    + replace (zlen pre + zlen l1 + 2) with (zlen (pre ++ lower_line l1 ++ [13; 10]))
        by (rewrite !zlen_app, zlen_lower_line, !zlen_cons, zlen_nil; lia).
      replace (pre ++ lower_line l1 ++ 13 :: 10 :: lines_bytes ls ++ l ++ 13 :: x :: post)
        with ((pre ++ lower_line l1 ++ [13; 10]) ++ lines_bytes ls ++ l ++ 13 :: x :: post)
        by (rewrite <- !app_assoc; done).
      destruct (IH l n (pre ++ lower_line l1 ++ [13; 10]) x post start
                  (alter (λ _, line_header (zlen pre) l1) h hs) (S h)) as (hs' & ->);
        [|done| |done|done| |].
      * rewrite <- !app_assoc. cbn [app]. by apply bytes_ok_lower_mid.
      * cbn [tail] in Hne. destruct ls; [constructor|]. by inversion Hne.
      * cbn [length] in Hn. destruct Hn as [?|(? & -> & _)]; [left; lia|].
        destruct ls as [|l2 ls]; [by cbn in E|]. right. split; [lia|done].
      * exists hs'. by rewrite <- !app_assoc.
Qed.

(** The bytes carried over and the rest of the head make up a head whose
    lines differ from the original ones only where the key loop has been. *)
Lemma mixed_head lines : ∀ (m : nat),
  Forall bytes_ok lines →
  ∃ lines',
    take m (head_bytes (map lower_line lines)) ++ drop m (head_bytes lines)
    = head_bytes lines'
    ∧ Forall2 same_line lines' lines.
Proof.
  induction lines as [|l ls IH]; intros m Hok.
  - exists []. cbn [map]. by rewrite take_drop.
  - inversion Hok as [|?? Hl Hls]; subst. cbn [map]. rewrite !head_bytes_cons.
    pose proof (zlen_lower_line l) as Hll. unfold zlen in Hll.
    destruct (Nat.le_gt_cases m (length l)) as [Hle|Hgt].
    + exists ((take m (lower_line l) ++ drop m l) :: ls).
      rewrite take_app_le, drop_app_le by lia.
      rewrite head_bytes_cons, <- app_assoc. split; [done|].
      constructor; [by apply mixed_line|]. clear. by induction ls; constructor.
    + rewrite take_app_ge, drop_app_ge by lia.
      replace (length (lower_line l)) with (length l) by lia.
      pose proof (mixed_line (length l) l Hl) as Hmix. cbv zeta in Hmix.
      rewrite drop_all, app_nil_r in Hmix.
      replace (take (length l) (lower_line l)) with (lower_line l) in Hmix
        by (rewrite take_ge; [done|lia]).
      destruct (m - length l)%nat as [|[|j]] eqn:Em; [lia| |].
      * exists (lower_line l :: ls). rewrite head_bytes_cons, <- app_assoc.
        split; [done|]. constructor; [done|]. clear. by induction ls; constructor.
      * destruct (IH j Hls) as (lines' & Heq & Hsim).
        exists (lower_line l :: lines'). rewrite head_bytes_cons, <- app_assoc.
        cbn [take drop app]. rewrite Heq. split; [done|]. by constructor.
Qed.

Lemma sim_zlen l' l : same_line l' l → zlen l' = zlen l.
Proof.
  intros [Hk Ha]. rewrite <- (zlen_key_split l'), <- (zlen_key_split l), Ha.
  by rewrite <- (zlen_lower (key_of l')), Hk, zlen_lower.
Qed.

Lemma sim_value l' l : same_line l' l → value_of l' = value_of l.
Proof. intros [_ Ha]. unfold value_of. by rewrite Ha. Qed.

Lemma sim_key_nil l' l : same_line l' l → (key_of l' = [] ↔ key_of l = []).
Proof.
  intros [Hk _]. apply (f_equal length) in Hk. unfold lower in Hk.
  rewrite !length_map in Hk. split; intros E; rewrite E in Hk; cbn in Hk.
  - by apply length_zero_iff_nil.
  - by apply length_zero_iff_nil.
Qed.

Lemma sim_no_cr l' l : same_line l' l → no_cr l → no_cr l'.
Proof.
  intros [_ Ha] Hl. rewrite <- (key_split l'). apply Forall_app. split.
  - eapply Forall_impl; [apply key_of_bytes'|]. intros c Hc. cbn in Hc.
    unfold is_key_byte in Hc. lia.
  - rewrite Ha. by apply no_cr_after_key.
Qed.

Lemma sim_lookup name ls' ls :
  Forall2 same_line ls' ls → lookup_header name ls' = lookup_header name ls.
Proof.
  induction 1 as [|l' l ls' ls Hl _ IH]; [done|]. cbn [lookup_header].
  rewrite (sim_value l' l Hl), IH. destruct Hl as [Hk Ha]. rewrite Hk.
  pose proof (sim_key_nil l' l (conj Hk Ha)) as Hnil.
  by rewrite (bool_decide_ext _ _ Hnil).
Qed.

Lemma sim_valid ls' ls : Forall2 same_line ls' ls → valid_lines ls → valid_lines ls'.
Proof.
  intros Hsim [Hcr Hne]. split.
  - clear Hne. induction Hsim as [|l' l ls' ls Hl _ IH]; [constructor|].
    inversion Hcr; subst. constructor; [by apply (sim_no_cr l' l)|by apply IH].
  - clear Hcr. destruct Hsim as [|l0' l0 ls' ls _ Hsim]; [constructor|]. cbn [tail] in *.
    induction Hsim as [|l' l ls' ls Hl _ IH]; [constructor|].
    inversion Hne; subst. constructor; [|by apply IH].
    intros ->. apply sim_zlen in Hl. rewrite zlen_nil in Hl.
    assert (l = []) by (apply length_zero_iff_nil; unfold zlen in Hl; lia). done.
Qed.

Lemma sim_framed char_is_signed lines' lines body :
  Forall2 same_line lines' lines → bytes_ok (head_bytes lines') →
  framed char_is_signed (lines, body) → framed char_is_signed (lines', body).
Proof.
  intros Hsim Hok (Hne & Hv & Hn & Hl0 & Hokm & Hframe). cbn [fst snd] in *.
  pose proof (Forall2_length _ _ _ Hsim) as Hlen.
  destruct Hsim as [|l0' l0 ls' ls H0 Hsim]; [done|]. cbn [hd tl] in *.
  unfold message_bytes in *. cbn [fst snd] in *.
  apply bytes_ok_app in Hokm as [_ Hokbody].
  split_and!; cbn [fst snd hd tl].
  - done.
  - apply (sim_valid (l0' :: ls') (l0 :: ls)); [by constructor|done].
  - unfold zlen in *. by rewrite Hlen.
  - by rewrite (sim_zlen l0' l0 H0).
  - by apply bytes_ok_app.
  - rewrite (sim_lookup _ ls' ls Hsim). by destruct H0 as [-> _].
Qed.

Lemma sim_seen_resumed user lines' lines body :
  Forall2 same_line lines' lines →
  seen_resumed user (lines', body) = seen_resumed user (lines, body).
Proof.
  intros Hsim. unfold seen_resumed. cbn [fst snd].
  destruct Hsim as [|l0' l0 ls' ls H0 Hsim]; [done|]. cbn [hd].
  rewrite (sim_value l0' l0 H0). by destruct H0 as [-> _].
Qed.

Lemma bytes_ok_lines lines : bytes_ok (head_bytes lines) → Forall bytes_ok lines.
Proof.
  induction lines as [|l ls IH]; intros Hok; [constructor|].
  rewrite head_bytes_cons in Hok. apply bytes_ok_app in Hok as [Hl Hok].
  inversion Hok as [|?? _ Hok']; subst. inversion Hok' as [|?? _ Hok'']; subst.
  constructor; [done|by apply IH].
Qed.

Lemma valid_lines_lower lines :
  Forall bytes_ok lines → valid_lines lines → valid_lines (map lower_line lines).
Proof.
  intros Hok [Hcr Hne]. split.
  - clear Hne. induction Hok as [|l ls Hl _ IH]; [constructor|].
    inversion Hcr; subst. cbn [map]. constructor; [|by apply IH].
    apply (pattern_no_cr l); [by apply pattern_lower_line|done].
  - clear Hcr Hok. destruct lines as [|l0 ls]; [constructor|]. cbn [map tail] in *.
    induction Hne as [|l ls Hl _ IH]; [constructor|]. cbn [map].
    constructor; [|done]. intros E. apply (f_equal zlen) in E.
    rewrite zlen_lower_line, zlen_nil in E.
    assert (l = []) by (apply length_zero_iff_nil; unfold zlen in E; lia). done.
Qed.

(** The beginning of a head is no head. *)
Lemma NoHead_prefix lines (m : nat) :
  lines ≠ [] → valid_lines lines → (m < length (head_bytes lines))%nat →
  NoHead (take m (head_bytes lines)).
Proof.
  intros Hne Hv Hm lines' rest' Hne' Hv' Hlen' Heq.
  assert (head_bytes lines ++ [] = head_bytes lines' ++ rest' ++ drop m (head_bytes lines))
    as Hsplit.
  { rewrite app_nil_r, app_assoc, <- Heq. by rewrite take_drop. }
  apply head_lines_unique in Hsplit; [|done..]. subst lines'.
  apply (f_equal length) in Heq. rewrite length_take, length_app in Heq. lia.
Qed.

Lemma fenced_padding (post : list Z) :
  2 ≤ zlen post → fenced post 0 = 13 :: 97 :: drop 2 post.
Proof.
  intros Hpost. destruct post as [|a [|b post]]; [by vm_compute in Hpost..|]. done.
Qed.

Section Fragments.

Context `{BloomFilterOps} `{!BloomFilterSound} `{ChunkedEncoding}.
Variable char_is_signed : bool.
Context {A : Type} (handlers : Handlers A).

(** The end of a call on a window of requests with their bodies and the
    beginning of a head behind them: these bytes are carried over, with
    the keys that the decoder has been over in lower case. *)
Lemma consumeFresh_cut mem data len user req (w : World A) ms lines (m : nat) pre post :
  keeps_token handlers → Forall (framed char_is_signed) ms →
  lines ≠ [] → valid_lines lines → zlen lines ≤ MAX_HEADERS - 1 →
  (0 < m < length (head_bytes lines))%nat → Z.of_nat m < MAX_FALLBACK_SIZE →
  bytes_ok mem → 0 ≤ data → 0 ≤ len < 2 ^ 32 → data + len + 2 ≤ zlen mem →
  length (headers req) = Z.to_nat MAX_HEADERS →
  mem = pre ++ messages_bytes ms ++ take m (head_bytes lines) ++ post →
  data = zlen pre → len = zlen (messages_bytes ms) + Z.of_nat m →
  ∃ w',
    consumeFresh char_is_signed handlers [] 0 mem data len user req w
    = Some (MkOutcome (MkParser (take m (head_bytes (map lower_line lines))) 0) w' user)
    ∧ map observe w'.2 = map observe w.2 ++ concat (map (seen_message user) ms).
Proof.
  intros Hkeep Hms Hne Hv Hn Hm Hm4 Hok Hd Hl Hpad Hslots Hmem Hdata Hlength.
  unfold MAX_FALLBACK_SIZE in *.
  set (tail := take m (head_bytes lines)) in *.
  assert (zlen tail = Z.of_nat m) as Htail.
  { unfold tail, zlen. rewrite length_take. lia. }
  unfold consumeFresh, fenceAndConsumePostPadded.
  change (wr (wr mem (data + len) 13) (data + len + 1) 97)
    with (fenced mem (data + len)).
  pose proof (zlen_nonneg (messages_bytes ms)) as Hms0.
  pose proof (zlen_nonneg pre) as Hpre0.
  pose proof (length_messages ms) as Hcount.
  assert (2 ≤ zlen post) as Hpost.
  { rewrite Hmem, !zlen_app in Hpad. lia. }
  assert (bytes_ok (fenced mem (data + len))) as Hokf by (by apply bytes_ok_fenced).
  set (post' := fenced post 0).
  assert (fenced mem (data + len) = pre ++ messages_bytes ms ++ tail ++ post') as Hfenced.
  { rewrite Hmem, !(app_assoc pre), (app_assoc (pre ++ _)).
    rewrite fenced_app by (rewrite !zlen_app; lia).
    rewrite <- !app_assoc. do 3 f_equal. unfold post'. f_equal.
    rewrite !zlen_app. lia. }
  rewrite Hfenced in Hokf.
  apply bytes_ok_app in Hokf as [Hokpre Hokf].
  apply bytes_ok_app in Hokf as [_ Hokrest].
  replace (S (Z.to_nat len)) with (length ms + S (Z.to_nat len - length ms))%nat
    by lia.
  destruct (loop_messages char_is_signed handlers user ms (S (Z.to_nat len - length ms))
              (MkCursor (fenced mem (data + len)) data len 0 req 0 w)
              pre (tail ++ post') Hkeep Hms)
    as (c2 & -> & Hmem2 & Hdata2 & Hlen2 & Htotal2 & Hrem2 & Hslots2 & Hlog2);
    [done|done|done|done|done|cbn; lia|cbn; lia|cbn; lia|].
  cbn [c_data c_length c_consumedTotal c_remaining log c_world] in *.
  specialize (Hrem2 eq_refl).
  set (pre2 := pre ++ messages_bytes (map lower_message ms)) in *.
  assert (zlen pre2 = data + zlen (messages_bytes ms)) as Hpre2.
  { unfold pre2. rewrite zlen_app, zlen_lower_messages. lia. }
  assert (bytes_ok pre2) as Hokpre2.
  { unfold pre2. apply bytes_ok_app. split; [done|].
    clear -Hms. unfold messages_bytes.
    induction Hms as [|m' ms' Hm' _ IH']; [constructor|].
    cbn [map concat]. apply bytes_ok_app. split; [|done].
    destruct Hm' as (_ & _ & _ & _ & ? & _). by apply bytes_ok_lower_message. }
  unfold post' in Hmem2, Hokrest. rewrite (fenced_padding post Hpost) in Hmem2, Hokrest.
  destruct Hv as [Hcr Hnonempty].
  destruct (cut_head_lower lines m 97 (drop 2 post) ltac:(lia) ltac:(done) Hcr)
    as (k & l & y & post2 & Heq & HeqL & Hlcr & Hy & Hk & Hkl).
  fold tail in Heq. rewrite Heq in Hmem2, Hokrest.
  cbn [fenceAndConsume_loop]. unfold fenceAndConsume_step.
  destruct (Z.eqb_spec (c_length c2) 0) as [E|_]; [lia|].
  rewrite Hmem2, Hdata2. replace (data + zlen (messages_bytes ms)) with (zlen pre2) by lia.
  unfold getHeaders.
  destruct (getHeaders_loop_cut (take k lines) l (Z.to_nat (MAX_HEADERS - 1)) pre2 y post2
              (zlen pre2) (headers (c_req c2)) 0) as (hs' & ->).
  { by apply bytes_ok_app. }
  { by apply Forall_take. }
  { rewrite tail_take. by apply Forall_take. }
  { done. }
  { done. }
  { rewrite length_take. unfold MAX_HEADERS, zlen in *.
    destruct (decide (k = length lines)) as [Ek|Ek].
    - destruct (decide (length lines < 49)%nat); [left; lia|]. right.
      split; [lia|]. split; [by apply Hkl|].
      rewrite take_ge by lia. done.
    - left. lia. }
  cbn [mbind option_bind Z.eqb]. rewrite Z.eqb_refl. cbn [negb].
  cbn [c_consumedTotal c_mem c_remaining c_world].
  rewrite Htotal2, Hrem2.
  replace (len - (0 + zlen (messages_bytes ms))) with (Z.of_nat m) by lia.
  rewrite (u32_small (Z.of_nat m)) by lia.
  destruct (Z.eqb_spec (Z.of_nat m) 0) as [E|_]; [lia|]. cbn [negb].
  destruct (Z.ltb_spec (Z.of_nat m) MAX_FALLBACK_SIZE) as [_|Hge];
    [|unfold MAX_FALLBACK_SIZE in Hge; lia].
  eexists. split; [|exact Hlog2]. cbn [app]. do 3 f_equal.
  rewrite <- HeqL.
  replace (data + (0 + zlen (messages_bytes ms))) with (zlen pre2) by lia.
  assert (Z.of_nat m = zlen (take m (head_bytes (map lower_line lines)))) as ->.
  { unfold zlen. rewrite length_take.
    pose proof (zlen_head_lower lines) as Hhl. unfold zlen in Hhl. lia. }
  apply slice_at.
Qed.

(** X14.  A head that comes in two windows.  The first call is given
    requests with their bodies and the first [m] bytes of a head; the
    second is given the rest of the head, the body, further requests and
    an incomplete head.  The first call hands over the complete requests
    and carries the beginning of the head over; the second hands over the
    request as if its head had come in one piece: the callbacks of the two
    calls are those that [seen_resumed] and [seen_message] list, wherever
    the head is cut. *)
Theorem head_split_over_two_calls (k1 k2 : Call) (w : World A)
    ms0 lines body ms tail (m : nat) pre1 post1 pre2 post2 :
  keeps_token handlers →
  Forall (framed char_is_signed) ms0 → framed char_is_signed (lines, body) →
  Forall (framed char_is_signed) ms → NoHead tail → zlen tail < MAX_FALLBACK_SIZE →
  (0 < m < length (head_bytes lines))%nat →
  zlen (head_bytes lines) ≤ MAX_FALLBACK_SIZE →
  call_ok k1 → call_ok k2 → call_user k2 = call_user k1 →
  length (headers (call_req k1)) = Z.to_nat MAX_HEADERS →
  length (headers (call_req k2)) = Z.to_nat MAX_HEADERS →
  call_mem k1 = pre1 ++ messages_bytes ms0 ++ take m (head_bytes lines) ++ post1 →
  call_data k1 = zlen pre1 →
  call_length k1 = zlen (messages_bytes ms0) + Z.of_nat m →
  call_mem k2 = pre2 ++ drop m (head_bytes lines) ++ body ++ messages_bytes ms ++ tail
                ++ post2 →
  call_data k2 = zlen pre2 →
  call_length k2 = zlen (drop m (head_bytes lines)) + zlen body + zlen (messages_bytes ms)
                   + zlen tail →
  ∃ o1 o2 tail',
    consume_calls char_is_signed handlers (MkParser [] 0) w [k1; k2]
    = Some [(k1, o1); (k2, o2)]
    ∧ o_returned o1 = call_user k1 ∧ o_returned o2 = call_user k1
    ∧ o_parser o1 = MkParser (take m (head_bytes (map lower_line lines))) 0
    ∧ map observe (o_world o1).2
      = map observe w.2 ++ concat (map (seen_message (call_user k1)) ms0)
    ∧ o_parser o2 = MkParser tail' 0 ∧ pattern tail' = pattern tail
    ∧ map observe (o_world o2).2
      = map observe w.2 ++ concat (map (seen_message (call_user k1)) ms0)
        ++ seen_resumed (call_user k1) (lines, body)
        ++ concat (map (seen_message (call_user k1)) ms).
Proof.
  intros Hkeep Hms0 Hm Hms Hno Htail Hcut Hfit Hk1 Hk2 Huser Hslots1 Hslots2
    Hmem1 Hdata1 Hlen1 Hmem2 Hdata2 Hlen2.
  pose proof Hm as (Hne & Hv & Hn & Hl0 & Hokm & Hframe). cbn [fst snd] in *.
  unfold message_bytes in Hokm. cbn [fst snd] in Hokm.
  apply bytes_ok_app in Hokm as [Hokhead Hokbody].
  pose proof (zlen_head_lower lines) as Hhl.
  assert (Z.of_nat m < MAX_FALLBACK_SIZE) as Hm4 by (unfold zlen in Hfit; lia).
  destruct Hk1 as [Hok1 Hd1 Hl1 Hpad1]. unfold MINIMUM_HTTP_POST_PADDING in Hpad1.
  destruct (consumeFresh_cut (call_mem k1) (call_data k1) (call_length k1) (call_user k1)
              (call_req k1) w ms0 lines m pre1 post1 Hkeep Hms0 Hne Hv Hn Hcut Hm4 Hok1 Hd1
              Hl1 ltac:(lia) Hslots1 Hmem1 Hdata1 Hlen1) as (w1 & Hrun1 & Hlog1).
  set (fb := take m (head_bytes (map lower_line lines))) in *.
  destruct (mixed_head lines m (bytes_ok_lines lines Hokhead)) as (lines' & Hmix & Hsim).
  fold fb in Hmix.
  assert (bytes_ok fb) as Hokfb.
  { unfold fb. apply Forall_take. by apply bytes_ok_head_lower. }
  assert (bytes_ok (head_bytes lines')) as Hokhead'.
  { rewrite <- Hmix. apply bytes_ok_app. split; [done|]. by apply Forall_drop. }
  assert (zlen (head_bytes lines') = zlen (head_bytes lines)) as Hlen'.
  { rewrite <- Hmix, zlen_app. unfold fb, zlen. rewrite length_take, length_drop.
    unfold zlen in Hhl. lia. }
  assert (Inv (MkParser fb 0)) as Hinv.
  { split; cbn [fallback remainingStreamingBytes]; [done|by right| |done|].
    - unfold fb, zlen. rewrite length_take. lia.
    - unfold fb. apply NoHead_prefix.
      + by destruct lines.
      + apply valid_lines_lower; [by apply bytes_ok_lines|done].
      + unfold zlen in Hhl. lia. }
  destruct (consume_completed_head char_is_signed handlers (MkParser fb 0) k2 w1 lines'
              (drop m (head_bytes lines)) body ms tail pre2 post2 Hkeep Hinv)
    as (o2 & tail' & Hrun2 & Hret2 & Hp2 & Hpat2 & Hlog2);
    [done| |by apply (sim_framed char_is_signed lines' lines)|done|done|done|done
    |by rewrite Hlen'|done|done|done|done|done|].
  { cbn [fallback]. intros E. apply (f_equal length) in E. unfold fb in E.
    rewrite length_take in E. unfold zlen in Hhl. cbn in E. lia. }
  exists (MkOutcome (MkParser fb 0) w1 (call_user k1)), o2, tail'.
  cbn [consume_calls]. unfold consume at 1.
  unfold consumePostPadded. cbn [fallback remainingStreamingBytes Z.eqb negb].
  rewrite zlen_nil. cbn [Z.eqb negb]. rewrite Hrun1. cbn [o_returned o_parser o_world].
  rewrite Z.eqb_refl, Hrun2, Hret2, Huser, Z.eqb_refl.
  split_and!; try done.
  rewrite Hlog2, Hlog1, Huser, <- !app_assoc.
  by rewrite (sim_seen_resumed (call_user k1) lines' lines body Hsim).
Qed.

End Fragments.

(** ** The properties observed on inputs *)

Lemma keep_keeps_token : keeps_token keep.
Proof. by split. Qed.

Lemma framed_check (m : list (list Z) * list Z) :
  m.1 ≠ [] →
  forallb (λ l, forallb (λ c, negb (c =? 13)) l) m.1 = true →
  forallb (λ l : list Z, negb (bool_decide (l = []))) (tail m.1) = true →
  zlen m.1 ≤ MAX_HEADERS - 1 → zlen (hd [] m.1) < 2 ^ 31 →
  forallb (λ c, (0 <=? c) && (c <? 256)) (message_bytes m) = true →
  (if bool_decide (lower (key_of (hd [] m.1)) = bytes "get") then m.2 = []
   else lookup_header (bytes "content-length") (tl m.1) ≠ []
        ∧ toUnsignedInteger true (lookup_header (bytes "content-length") (tl m.1))
          = zlen m.2) →
  framed true m.
Proof.
  intros. split_and!; try done; [by apply valid_lines_check|by apply bytes_ok_check].
Qed.

Ltac framed_at :=
  apply framed_check;
  [discriminate | by vm_compute | by vm_compute | by vm_compute | by vm_compute
  | by vm_compute | by vm_compute].

Lemma two_requests_framed : Forall (framed true) two_requests.
Proof.
  unfold two_requests. repeat (apply Forall_cons_2; [framed_at|]). constructor.
Qed.

Lemma partial_head_no_head : NoHead partial_head.
Proof. apply NoHead_no_cr, no_cr_check. by vm_compute. Qed.

Lemma carrying_parser_inv : Inv carrying_parser.
Proof.
  split; [done|by right|by vm_compute|apply bytes_ok_check; by vm_compute|].
  apply NoHead_no_cr, no_cr_check. by vm_compute.
Qed.

Lemma full_parser_inv : Inv full_parser.
Proof.
  split; [done|by right|by vm_compute|apply bytes_ok_check; by vm_compute|].
  apply NoHead_no_cr, no_cr_check. by vm_compute.
Qed.

(** X4, observed on GET /a?b=1 HTTP/1.0 with one header line. *)
Lemma iterate_header_lines_witness :
  ∃ kvs,
    iterate (head_request sample_cursor [] (sample_request_line :: sample_headers)
                          sample_post) = Some kvs
    ∧ map (λ kv, (sv_bytes (head_mem' [] (sample_request_line :: sample_headers)
                                      sample_post) kv.1,
                  sv_bytes (head_mem' [] (sample_request_line :: sample_headers)
                                      sample_post) kv.2)) kvs
      = [(bytes "host", bytes "x")].
Proof.
  exact (iterate_header_lines sample_cursor [] sample_request_line sample_headers
           sample_post sample_head).
Defined.

(** X5, observed on the same request: the target /a?b=1. *)
Lemma url_and_raw_query_witness :
  sv_bytes (head_mem' [] (sample_request_line :: sample_headers) sample_post)
           (getUrl (head_request sample_cursor [] (sample_request_line :: sample_headers)
                                 sample_post))
  ++ sv_bytes (head_mem' [] (sample_request_line :: sample_headers) sample_post)
              (queryString (head_request sample_cursor []
                              (sample_request_line :: sample_headers) sample_post))
  = bytes "/a?b=1".
Proof.
  apply (url_and_raw_query sample_cursor [] sample_request_line sample_headers
           sample_post sample_head).
  by vm_compute.
Defined.

(** X6, observed on a GET request, a POST request with a body of five
    bytes and the beginning of a third request, all in one window. *)
Lemma requests_in_one_call_witness :
  ∃ o tail',
    consume true keep fresh_parser pipelined_call (tt, []) = Some o
    ∧ o_returned o = 7
    ∧ o_parser o = MkParser tail' 0
    ∧ pattern tail' = pattern partial_head
    ∧ map observe (o_world o).2
      = [SeenRequest (bytes "get") (bytes "/a") (bytes "b=1") false 7;
         SeenData [] true 7;
         SeenRequest (bytes "post") (bytes "/") [] false 7;
         SeenData (bytes "ABCDE") true 7].
Proof.
  apply (requests_in_one_call true keep fresh_parser pipelined_call (tt, []) two_requests
           partial_head [] post_padding keep_keeps_token two_requests_framed
           partial_head_no_head);
    [by vm_compute|done|done|apply call_ok_check; by vm_compute|done|by vm_compute|done
    |by vm_compute].
Defined.

(** X7, observed on the two requests when the request handler answers
    the first with another token. *)
Lemma request_handler_takes_over_witness :
  ∃ mem' req',
    consume true (upgrade 9) (MkParser [] 0) takeover_call (tt, [])
    = Some (MkOutcome (MkParser [] 0) (tt, [RequestEvent 7 mem' req' 9]) 9).
Proof.
  eexists _, _.
  apply (request_handler_takes_over true (upgrade 9) takeover_call (tt, [])
           [request_line (bytes "GET") (bytes "/a?b=1") (bytes "HTTP/1.1");
            header_line (bytes "Host", bytes "x")] []
           (message_bytes ([sample_post_line;
                            header_line (bytes "Content-Length", bytes "5")],
                           bytes "ABCDE") ++ post_padding));
    [apply call_ok_check; by vm_compute|done|done
    |apply valid_lines_check; by vm_compute|by vm_compute|by vm_compute|done
    |by vm_compute|by vm_compute].
Defined.

(** X8, observed on a GET request and a POST request with two of the five
    bytes of its body. *)
Lemma body_begins_in_window_witness :
  ∃ o,
    consume true keep fresh_parser partial_body_call (tt, []) = Some o
    ∧ o_returned o = 7
    ∧ o_parser o = MkParser [] 3
    ∧ map observe (o_world o).2
      = [SeenRequest (bytes "get") (bytes "/a") (bytes "b=1") false 7;
         SeenData [] true 7;
         SeenRequest (bytes "post") (bytes "/") [] false 7;
         SeenData (bytes "AB") false 7].
Proof.
  refine (body_begins_in_window true keep fresh_parser partial_body_call (tt, [])
            (take 1 two_requests) sample_post_line
            [header_line (bytes "Content-Length", bytes "5")] (bytes "AB") []
            post_padding keep_keeps_token _ _ _ _ _ _ _ _ _ _ _ _ _ _);
    [apply Forall_cons_2; [framed_at|constructor]|done|done
    |apply call_ok_check; by vm_compute|done|apply valid_lines_check; by vm_compute
    |by vm_compute|by vm_compute|by vm_compute|by vm_compute|by vm_compute
    |by vm_compute|done|by vm_compute].
Defined.

(** X9, observed on a body of five bytes that comes in two windows. *)
Lemma body_across_calls_witness :
  ∃ outs,
    consume_calls true keep (MkParser [] 5) (tt, []) body_calls = Some outs
    ∧ map fst outs = body_calls
    ∧ (end_state (MkParser [] 5) (tt, []) outs).1 = MkParser [] 0
    ∧ (end_state (MkParser [] 5) (tt, []) outs).2.2
      = [DataEvent 7 (bytes "AB") false 7; DataEvent 7 (bytes "CDE") true 7].
Proof.
  apply (body_across_calls true keep body_calls 5 [] (tt, [])).
  - done.
  - intros m Hm.
    assert (m = 1 ∨ m = 2 ∨ m = 3 ∨ m = 4 ∨ m = 5) as [->|[->|[->|[->| ->]]]] by lia;
      by vm_compute.
  - done.
  - unfold body_calls. repeat (apply Forall_cons_2; [by vm_compute|]). constructor.
  - by vm_compute.
Defined.

(** X12, observed on a full fallback buffer and a window of 200 bytes. *)
Lemma full_fallback_is_final_witness :
  ∃ fb',
    consume true keep full_parser filling_call (tt, [])
    = Some (MkOutcome (MkParser fb' 0) (tt, [ErrorEvent 7 7]) 7)
    ∧ pattern fb' = pattern (fallback full_parser)
    ∧ Inv (MkParser fb' 0) ∧ zlen fb' = MAX_FALLBACK_SIZE.
Proof.
  apply (full_fallback_is_final true keep full_parser filling_call (tt, [])
           full_parser_inv); [done|by vm_compute|apply call_ok_check; by vm_compute].
Defined.


(** X11, observed on a POST request without Content-Length whose request
    line was cut in an earlier call: the chunk of five bytes reaches the
    data handler with its framing. *)
Lemma chunked_body_behind_fallback_head_witness :
  ∃ o,
    consume true keep carrying_parser chunked_call (tt, []) = Some o
    ∧ o_returned o = 7
    ∧ o_parser o = MkParser [] (0x40000000 - 10)
    ∧ map observe (o_world o).2
      = [SeenRequest (bytes "post") (bytes "/up") [] false 7;
         SeenData (bytes "5" ++ CRLF ++ bytes "ABCDE" ++ CRLF) false 7].
Proof.
  refine (chunked_body_behind_fallback_head true keep carrying_parser chunked_call (tt, [])
            (bytes "post /up HTTP/1.1") [bytes "Transfer-Encoding: chunked"]
            chunked_rest chunked_body [] post_padding keep_keeps_token
            carrying_parser_inv _ _ _ _ _ _ _ _ _ _ _ _ _ _ _ _);
    [done|done|apply valid_lines_check; by vm_compute|by vm_compute|by vm_compute
    |by vm_compute|by vm_compute|by vm_compute|by vm_compute
    |apply call_ok_check; by vm_compute|done|by vm_compute|done|by vm_compute
    |by vm_compute|by vm_compute].
Defined.


(** X14, observed on a POST request whose head is cut inside the name
    Content-Length. *)
Lemma head_split_over_two_calls_witness :
  ∃ o1 o2 tail',
    consume_calls true keep (MkParser [] 0) (tt, []) [first_fragment; second_fragment]
    = Some [(first_fragment, o1); (second_fragment, o2)]
    ∧ o_returned o1 = 7 ∧ o_returned o2 = 7
    ∧ o_parser o1 = MkParser (bytes "post / HTTP/1.1" ++ CRLF ++ bytes "content-") 0
    ∧ map observe (o_world o1).2
      = [SeenRequest (bytes "get") (bytes "/a") (bytes "b=1") false 7;
         SeenData [] true 7]
    ∧ o_parser o2 = MkParser tail' 0 ∧ pattern tail' = pattern partial_head
    ∧ map observe (o_world o2).2
      = [SeenRequest (bytes "get") (bytes "/a") (bytes "b=1") false 7;
         SeenData [] true 7;
         SeenRequest (bytes "post") (bytes "/") [] false 7;
         SeenData (bytes "ABCDE") true 7;
         SeenRequest (bytes "get") (bytes "/a") (bytes "b=1") false 7;
         SeenData [] true 7].
Proof.
  refine (head_split_over_two_calls true keep first_fragment second_fragment (tt, [])
            (take 1 two_requests) split_head (bytes "ABCDE") (take 1 two_requests)
            partial_head 25 [] post_padding [] post_padding keep_keeps_token
            _ _ _ partial_head_no_head _ _ _ _ _ _ _ _ _ _ _ _ _ _);
    [apply Forall_cons_2; [framed_at|constructor]|framed_at
    |apply Forall_cons_2; [framed_at|constructor]|by vm_compute|vm_compute; lia
    |by vm_compute|apply call_ok_check; by vm_compute|apply call_ok_check; by vm_compute
    |done|done|done|by vm_compute|done|by vm_compute|by vm_compute|done|by vm_compute].
Defined.
